(** * Payment reconciliation of the shop bot: model and verification

    A shallow embedding of [services/nowpayments.py] (status mapping,
    signature check, [process_ipn_callback] and the two fulfillment
    handlers), of the rows of [database/models.py] these functions read
    and write, and of the webhook endpoint [payment_ipn] of [web/app.py].

    Modelling conventions.
    - Python values that come out of [json.loads] are the inductive [pyval];
      a Python [str] is represented by its UTF-8 bytes.
    - A Python [float] is an IEEE-754 binary64 number, [spec_float] with
      precision 53 and maximal exponent 1024; [+] on floats is [SFadd].
    - Python exceptions are the [Raise] outcome of the monad [M]; a
      [try/except Exception] is [try_except].
    - The SQLAlchemy session of a request is a working view of the tables
      ([session]); [commit] publishes it to [store]; [close] drops what was
      not committed.  ORM objects are referred to by their row (primary key
      or position in the table), so two paths to one row see one object.  A
      relationship ([payment.order], [order.user], [order.items],
      [item.product]) is read where the code first uses it; the ORM keeps
      what it loaded, and the code changes no foreign key.
    - A [commit] sends the columns whose value has changed to the
      database, which may refuse a value (a list where a text is expected,
      an integer beyond the range of the column): then the commit raises
      and nothing of the session is stored.  What the database makes of a
      value given for a text column, and which integers it takes, are the
      fields [db_text] and [db_integer] of [Runtime].  A row holds the
      values as they were assigned; a value found in a stored row has been
      taken by the database before.  Columns that the modelled functions
      neither read nor write are left out of the rows, and so are the
      values the store fills in by itself (autoincrement ids, server-side
      [created_at]).
    - The clock, [uuid.uuid4], HMAC-SHA512, [json.loads], UTF-8 validation,
      the parsing of a float literal, the text of an exception and the
      database are not code of this repository: they are the fields of
      [Runtime].
    - Integers are unbounded, as in Python.  Timestamps are POSIX seconds;
      a [timedelta] holds at most 999999999 days and a [datetime] the years
      1 to 9999, beyond which the arithmetic raises [OverflowError].
    - The host check and the rate limiter that [create_app] puts in front of
      the webhook endpoint are library code: whether they let a request
      through is an input of [serve_payment_ipn].

    The second part of the model (from [More of the code] on) embeds code
    around these functions: the data of the QR code
    ([create_qr_payment_data]), authentication ([web/auth.py]) with the
    login and the backup endpoint of [web/app.py], helpers of
    [bot/utils.py] (text, discount, shipping, translation, users), and the
    cart callbacks of [bot/bot.py].  What these take from libraries
    (Unicode case mappings, the formatting and parsing of numbers, JWT,
    password hashing, one-time codes, the parsing of cookies, MD5) are the
    fields of the classes [Text], [AuthRuntime] and [BotRuntime].  The
    calls to Telegram are recorded and taken to succeed, and so are the
    commits of this part, which write texts, booleans, timestamps and
    counters of the code's own making. *)

From Stdlib Require Import ZArith String Ascii List Bool Lia.
From Stdlib Require Import Floats.SpecFloat.
From stdpp Require Import base option list gmap strings pretty.

Local Open Scope Z_scope.

(** ** Enumerations of [database/models.py] *)

Module OrderStatus.
Inductive t := PENDING | PAID | PROCESSING | SHIPPED | DELIVERED | CANCELLED | REFUNDED.
#[global] Instance eq_dec : EqDecision t.
Proof. solve_decision. Defined.
End OrderStatus.

Module PaymentStatus.
Inductive t :=
  PENDING | WAITING | CONFIRMING | CONFIRMED | SENDING | PARTIALLY_PAID
| FINISHED | FAILED | REFUNDED | EXPIRED.
#[global] Instance eq_dec : EqDecision t.
Proof. solve_decision. Defined.
End PaymentStatus.

Module ProductType.
Inductive t := DIGITAL | PHYSICAL.
#[global] Instance eq_dec : EqDecision t.
Proof. solve_decision. Defined.
End ProductType.

(** ** Python values *)

Definition float := spec_float.
Definition prec : Z := 53.
Definition emax : Z := 1024.

#[global] Instance float_eq_dec : EqDecision float.
Proof. unfold float. solve_decision. Defined.

(** [x + y] on two floats. *)
Definition float_add (x y : float) : float := SFadd prec emax x y.

(** The float nearest to an integer (round half to even); an integer too
    large for a double comes out as an infinity. *)
Definition float_of_Z (n : Z) : float := binary_normalize prec emax n 0 false.

#[warnings="-register-all"]
Inductive pyval :=
| PNone
| PBool (b : bool)
| PInt (n : Z)
| PFloat (x : float)
| PStr (s : string)
| PList (l : list pyval)
| PTuple (l : list pyval)
| PDict (d : list (string * pyval)).

(** Truth value of an object, as [not x] and [if x:] test it. *)
Definition truthy (v : pyval) : bool :=
  match v with
  | PNone => false
  | PBool b => b
  | PInt n => negb (Z.eqb n 0)
  | PFloat (S754_zero _) => false
  | PFloat _ => true
  | PStr s => negb (String.eqb s EmptyString)
  | PList l | PTuple l => match l with [] => false | _ => true end
  | PDict d => match d with [] => false | _ => true end
  end.

Fixpoint assoc_get {A} (k : string) (d : list (string * A)) : option A :=
  match d with
  | [] => None
  | (k', v) :: d' => if String.eqb k k' then Some v else assoc_get k d'
  end.

(** Python exceptions that the modelled code can raise. *)
Inductive Exn :=
| AttributeError
| TypeError
| ValueError
| OverflowError
| UnicodeDecodeError
| JSONDecodeError
| DatabaseError   (* what the ORM or the driver raises for a statement *)
| HTTPException (status_code : Z) (detail : string).

Inductive Res (A : Type) :=
| Ok (a : A)
| Raise (e : Exn).
Arguments Ok {A} a.
Arguments Raise {A} e.

(** [int(x)] of a float: truncation towards zero; [ValueError] on a NaN and
    [OverflowError] on an infinity. *)
Definition int_of_float (x : float) : Res Z :=
  match x with
  | S754_zero _ => Ok 0
  | S754_infinity _ => Raise OverflowError
  | S754_nan => Raise ValueError
  | S754_finite s m e =>
      let sm := cond_Zopp s (Zpos m) in
      Ok (if Z.leb 0 e then sm * 2 ^ e else Z.quot sm (2 ^ (- e)))
  end.

(** ASCII lower case.  [str.lower] also maps characters outside ASCII, but
    to none of the letters of the nine status names, so a string is mapped
    to such a name by the one exactly when it is by the other. *)
Definition lower_ascii (c : ascii) : ascii :=
  let n := nat_of_ascii c in
  if (Nat.leb 65 n && Nat.leb n 90) then ascii_of_nat (n + 32) else c.

Fixpoint lower (s : string) : string :=
  match s with
  | EmptyString => EmptyString
  | String c s' => String (lower_ascii c) (lower s')
  end.

Fixpoint is_ascii (s : string) : bool :=
  match s with
  | EmptyString => true
  | String c s' => Nat.ltb (nat_of_ascii c) 128 && is_ascii s'
  end.

(** ** Rows of [database/models.py] *)

Record User := {
  loyalty_points : Z;
  total_spent : float;
  total_orders : Z;
}.

Record Product := {
  product_type : ProductType.t;
  digital_file_url : option string;
  download_limit : option Z;
  download_expiry_days : option Z;
}.

Record Order := {
  order_number : string;
  user_id : option Z;
  status : OrderStatus.t;
  total_amount : float;
  order_payment_status : PaymentStatus.t;
  order_updated_at : option Z;
}.

(** One entry of the JSON column [OrderItem.download_links]; [expires_at]
    holds the instant whose ISO-8601 text the code stores. *)
Record DownloadLink := {
  url : string;
  token : string;
  expires_at : Z;
  link_download_limit : Z;
}.

Record OrderItem := {
  item_order_id : option Z;
  product_id : option Z;
  download_links : option (list DownloadLink);
  download_expires_at : option Z;
}.

Record Payment := {
  pay_order_id : option Z;
  payment_id : option string;
  payment_status : PaymentStatus.t;
  actually_paid : float;
  actually_paid_currency : pyval;
  txn_id : pyval;
  network : pyval;
  updated_at : option Z;
}.

Record LoyaltyTransaction := {
  lt_user_id : option Z;
  lt_order_id : Z;
  points : Z;
  type : string;
  description : string;
  reference : string;
}.

(** The tables.  [orders], [users] and [products] are keyed by primary key;
    [payments] and [order_items] are kept in table order, a row being
    identified by its position. *)
Record DB := {
  payments : list Payment;
  orders : gmap Z Order;
  users : gmap Z User;
  order_items : list OrderItem;
  products : gmap Z Product;
  loyalty_transactions : list LoyaltyTransaction;
}.

Definition set_payments (f : list Payment → list Payment) (d : DB) : DB :=
  {| payments := f (payments d); orders := orders d; users := users d;
     order_items := order_items d; products := products d;
     loyalty_transactions := loyalty_transactions d |}.

Definition set_orders (f : gmap Z Order → gmap Z Order) (d : DB) : DB :=
  {| payments := payments d; orders := f (orders d); users := users d;
     order_items := order_items d; products := products d;
     loyalty_transactions := loyalty_transactions d |}.

Definition set_users (f : gmap Z User → gmap Z User) (d : DB) : DB :=
  {| payments := payments d; orders := orders d; users := f (users d);
     order_items := order_items d; products := products d;
     loyalty_transactions := loyalty_transactions d |}.

Definition set_order_items (f : list OrderItem → list OrderItem) (d : DB) : DB :=
  {| payments := payments d; orders := orders d; users := users d;
     order_items := f (order_items d); products := products d;
     loyalty_transactions := loyalty_transactions d |}.

Definition set_loyalty_transactions
    (f : list LoyaltyTransaction → list LoyaltyTransaction) (d : DB) : DB :=
  {| payments := payments d; orders := orders d; users := users d;
     order_items := order_items d; products := products d;
     loyalty_transactions := f (loyalty_transactions d) |}.

(** Assignment to one attribute of a row. *)
Definition set_loyalty_points (v : Z) (u : User) : User :=
  {| loyalty_points := v; total_spent := total_spent u; total_orders := total_orders u |}.
Definition set_total_spent (v : float) (u : User) : User :=
  {| loyalty_points := loyalty_points u; total_spent := v; total_orders := total_orders u |}.
Definition set_total_orders (v : Z) (u : User) : User :=
  {| loyalty_points := loyalty_points u; total_spent := total_spent u; total_orders := v |}.

Definition set_status (v : OrderStatus.t) (o : Order) : Order :=
  {| order_number := order_number o; user_id := user_id o; status := v;
     total_amount := total_amount o; order_payment_status := order_payment_status o;
     order_updated_at := order_updated_at o |}.
Definition set_order_payment_status (v : PaymentStatus.t) (o : Order) : Order :=
  {| order_number := order_number o; user_id := user_id o; status := status o;
     total_amount := total_amount o; order_payment_status := v;
     order_updated_at := order_updated_at o |}.
Definition set_order_updated_at (v : option Z) (o : Order) : Order :=
  {| order_number := order_number o; user_id := user_id o; status := status o;
     total_amount := total_amount o; order_payment_status := order_payment_status o;
     order_updated_at := v |}.

Definition set_download_links (v : option (list DownloadLink)) (it : OrderItem) : OrderItem :=
  {| item_order_id := item_order_id it; product_id := product_id it;
     download_links := v; download_expires_at := download_expires_at it |}.
Definition set_download_expires_at (v : option Z) (it : OrderItem) : OrderItem :=
  {| item_order_id := item_order_id it; product_id := product_id it;
     download_links := download_links it; download_expires_at := v |}.

Definition set_payment_status (v : PaymentStatus.t) (p : Payment) : Payment :=
  {| pay_order_id := pay_order_id p; payment_id := payment_id p; payment_status := v;
     actually_paid := actually_paid p; actually_paid_currency := actually_paid_currency p;
     txn_id := txn_id p; network := network p; updated_at := updated_at p |}.
Definition set_actually_paid (v : float) (p : Payment) : Payment :=
  {| pay_order_id := pay_order_id p; payment_id := payment_id p;
     payment_status := payment_status p;
     actually_paid := v; actually_paid_currency := actually_paid_currency p;
     txn_id := txn_id p; network := network p; updated_at := updated_at p |}.
Definition set_actually_paid_currency (v : pyval) (p : Payment) : Payment :=
  {| pay_order_id := pay_order_id p; payment_id := payment_id p;
     payment_status := payment_status p;
     actually_paid := actually_paid p; actually_paid_currency := v;
     txn_id := txn_id p; network := network p; updated_at := updated_at p |}.
Definition set_txn_id (v : pyval) (p : Payment) : Payment :=
  {| pay_order_id := pay_order_id p; payment_id := payment_id p;
     payment_status := payment_status p;
     actually_paid := actually_paid p; actually_paid_currency := actually_paid_currency p;
     txn_id := v; network := network p; updated_at := updated_at p |}.
Definition set_network (v : pyval) (p : Payment) : Payment :=
  {| pay_order_id := pay_order_id p; payment_id := payment_id p;
     payment_status := payment_status p;
     actually_paid := actually_paid p; actually_paid_currency := actually_paid_currency p;
     txn_id := txn_id p; network := v; updated_at := updated_at p |}.
Definition set_updated_at (v : option Z) (p : Payment) : Payment :=
  {| pay_order_id := pay_order_id p; payment_id := payment_id p;
     payment_status := payment_status p;
     actually_paid := actually_paid p; actually_paid_currency := actually_paid_currency p;
     txn_id := txn_id p; network := network p; updated_at := v |}.


(** ** The world: store, request session, clock, token source, call trace *)

(** Calls of the reconciliation entry point and of the fulfillment
    handlers, recorded in the order they are made (instrumentation: the
    source keeps no such list). *)
Inductive Call :=
| Called_process_ipn_callback
| Called_award_loyalty_points (order : Z)
| Called_process_digital_delivery (order : Z).

Record World := {
  store : DB;            (* committed rows *)
  session : DB;          (* rows as the open request session sees them *)
  clock_reads : nat;     (* how many times the clock has been read *)
  uuid_draws : nat;      (* how many uuids have been drawn *)
  calls : list Call;
}.

Definition set_store (f : DB → DB) (w : World) : World :=
  {| store := f (store w); session := session w; clock_reads := clock_reads w;
     uuid_draws := uuid_draws w; calls := calls w |}.

Definition set_session (f : DB → DB) (w : World) : World :=
  {| store := store w; session := f (session w); clock_reads := clock_reads w;
     uuid_draws := uuid_draws w; calls := calls w |}.

Definition set_clock_reads (f : nat → nat) (w : World) : World :=
  {| store := store w; session := session w; clock_reads := f (clock_reads w);
     uuid_draws := uuid_draws w; calls := calls w |}.

Definition set_uuid_draws (f : nat → nat) (w : World) : World :=
  {| store := store w; session := session w; clock_reads := clock_reads w;
     uuid_draws := f (uuid_draws w); calls := calls w |}.

Definition set_calls (f : list Call → list Call) (w : World) : World :=
  {| store := store w; session := session w; clock_reads := clock_reads w;
     uuid_draws := uuid_draws w; calls := f (calls w) |}.

(** State and exception monad of the Python code. *)
Definition M (A : Type) : Type := World → Res A * World.

Definition ret {A} (a : A) : M A := λ w, (Ok a, w).

Definition bind {A B} (m : M A) (k : A → M B) : M B :=
  λ w, match m w with
       | (Ok a, w') => k a w'
       | (Raise e, w') => (Raise e, w')
       end.

Definition raise {A} (e : Exn) : M A := λ w, (Raise e, w).

(** [try: m  except Exception as e: h e] *)
Definition try_except {A} (m : M A) (h : Exn → M A) : M A :=
  λ w, match m w with
       | (Ok a, w') => (Ok a, w')
       | (Raise e, w') => h e w'
       end.

(** [try: m  finally: fin], for a [fin] that does not raise. *)
Definition try_finally {A} (m : M A) (fin : World → World) : M A :=
  λ w, match m w with
       | (r, w') => (r, fin w')
       end.

(** A computation that only returns or raises. *)
Definition lift {A} (r : Res A) : M A := λ w, (r, w).

Definition get_world : M World := λ w, (Ok w, w).
Definition modify (f : World → World) : M unit := λ w, (Ok tt, f w).

Declare Scope py_scope.
Delimit Scope py_scope with py.
Notation "'let*' x ':=' m 'in' k" := (bind m (λ x, k))
  (at level 10, x name, m at level 100, k at level 200) : py_scope.
Notation "m ;; k" := (bind m (λ _, k))
  (at level 100, right associativity) : py_scope.
Local Open Scope py_scope.

Fixpoint for_each {A} (l : list A) (body : A → M unit) : M unit :=
  match l with
  | [] => ret tt
  | x :: l' => body x ;; for_each l' body
  end.

(** Attribute access on an object that may be [None]. *)
Definition load {A} (o : option A) : M A :=
  match o with
  | Some a => ret a
  | None => raise AttributeError
  end.

Definition called (c : Call) : M unit := modify (set_calls (λ l, l ++ [c])).

(** [d.get(k, default)]; only a dict has a [get]. *)
Definition py_get (d : pyval) (k : string) (default : pyval) : Res pyval :=
  match d with
  | PDict l => Ok (match assoc_get k l with Some v => v | None => default end)
  | _ => Raise AttributeError
  end.

(** ** What the code takes from outside the repository *)

Record Settings := {
  nowpayments_ipn_secret : string;
  webhook_url : string;
}.

Class Runtime := {
  settings : Settings;
  (** the [k]-th reading of [datetime.now(timezone.utc)] *)
  utcnow : nat → Z;
  (** the [k]-th [uuid.uuid4().hex] *)
  uuid4_hex : nat → string;
  (** [hmac.new(key, msg, hashlib.sha512).hexdigest()] *)
  hmac_sha512_hexdigest : string → string → string;
  (** [json.loads]; [None] when it raises *)
  json_loads : string → option pyval;
  (** whether [bytes.decode()] accepts the bytes *)
  utf8_valid : string → bool;
  (** [float(s)] of a string; [None] when it raises *)
  float_of_str : string → option float;
  (** [str(e)] *)
  exn_str : Exn → string;
  (** what the database makes of a value other than [None] that is given
      for a text column, to be compared with it or stored in it: a text
      ([Some (Some s)]) or NULL ([Some None]); [None] when the driver or the
      database refuses the value (SQLite takes an integer of 64 bits as its
      decimal text and a NaN as NULL, and refuses a list) *)
  db_text : pyval → option (option string);
  (** whether the database takes the integer for an integer column (an
      integer column of SQLite holds 64 bits) *)
  db_integer : Z → bool;
}.

Section Model.
Context `{RT : Runtime}.

(** *** The request session *)

(** [db = SessionLocal()] of the request: a fresh view of the store. *)
Definition Session_open : M unit := modify (λ w, set_session (λ _, store w) w).

(** Whether the value assigned to a column is the one the row holds
    already: the ORM sends no such column with its UPDATE. *)
Fixpoint same_value (a b : pyval) : bool :=
  match a, b with
  | PNone, PNone => true
  | PBool x, PBool y => Bool.eqb x y
  | PInt x, PInt y => Z.eqb x y
  | PFloat x, PFloat y => bool_decide (x = y)
  | PStr x, PStr y => String.eqb x y
  | PList l, PList l' | PTuple l, PTuple l' =>
      (fix go (l l' : list pyval) : bool :=
         match l, l' with
         | [], [] => true
         | x :: l, y :: l' => same_value x y && go l l'
         | _, _ => false
         end) l l'
  | PDict d, PDict d' =>
      (fix go (d d' : list (string * pyval)) : bool :=
         match d, d' with
         | [], [] => true
         | (k, x) :: d, (k', y) :: d' => String.eqb k k' && same_value x y && go d d'
         | _, _ => false
         end) d d'
  | _, _ => false
  end.

(** A text column takes [None] as NULL, and any other value if the database
    makes a text of it. *)
Definition text_accepted (old new : pyval) : bool :=
  same_value new old
  || match new with
     | PNone => true
     | _ => bool_decide (is_Some (db_text new))
     end.

Definition integer_accepted (old new : Z) : bool := Z.eqb new old || db_integer new.

(** The UPDATE of a [Payment] and of a [User]: of the columns the modelled
    code assigns, the enumerations, the floats and the timestamps are
    values of the type of their column; the others are checked. *)
Definition payment_accepted (old new : Payment) : bool :=
  text_accepted (actually_paid_currency old) (actually_paid_currency new)
  && text_accepted (txn_id old) (txn_id new)
  && text_accepted (network old) (network new).

Definition user_accepted (old new : User) : bool :=
  integer_accepted (loyalty_points old) (loyalty_points new)
  && integer_accepted (total_orders old) (total_orders new).

(** Whether the database takes what the view [se] has changed in the rows
    of the store [st].  The modelled code changes rows of [payments],
    [orders], [users] and [order_items]; an order gets enumeration members
    and a timestamp, a line item a timestamp and links of strings and
    integers for its JSON column. *)
Definition flush_accepted (st se : DB) : bool :=
  forallb (λ '(old, new), payment_accepted old new) (zip (payments st) (payments se))
  && forallb (λ '(u, new), match users st !! u with
                            | Some old => user_accepted old new
                            | None => true
                            end) (map_to_list (users se)).

(** [db.commit()]: the changed rows are sent to the database; if it takes
    them, the rows of the view become the stored rows, and if it does not,
    the statement raises and nothing is stored. *)
Definition Session_commit : M unit :=
  λ w, if flush_accepted (store w) (session w)
       then (Ok tt, set_store (λ _, session w) w)
       else (Raise DatabaseError, w).

(** [db.close()]: what the view held and was not committed is dropped. *)
Definition Session_close (w : World) : World := set_session (λ _, store w) w.

(** [db = SessionLocal(); db.add(row); db.commit(); db.close()] on a second
    session.  The row is built from stored ids and texts and from [points];
    if the database takes it, it is stored at once, whatever happens to the
    request session afterwards (whose view of the table follows the
    store). *)
Definition second_session_add_commit (row : LoyaltyTransaction) : M unit :=
  λ w, if db_integer (points row)
       then (Ok tt, set_session (set_loyalty_transactions (λ l, l ++ [row]))
                      (set_store (set_loyalty_transactions (λ l, l ++ [row])) w))
       else (Raise DatabaseError, w).

(** [db = SessionLocal(); db.commit(); db.close()] on a second session that
    holds no object: nothing is written. *)
Definition second_session_commit : M unit := ret tt.

Definition get_payment (i : nat) : M Payment :=
  let* w := get_world in load (payments (session w) !! i).

Definition update_payment (i : nat) (f : Payment → Payment) : M unit :=
  modify (set_session (set_payments (alter f i))).

Definition get_order (order : Z) : M Order :=
  let* w := get_world in load (orders (session w) !! order).

Definition update_order (order : Z) (f : Order → Order) : M unit :=
  modify (set_session (set_orders (alter f order))).

Definition get_user (user : Z) : M User :=
  let* w := get_world in load (users (session w) !! user).

Definition update_user (user : Z) (f : User → User) : M unit :=
  modify (set_session (set_users (alter f user))).

Definition get_item (j : nat) : M OrderItem :=
  let* w := get_world in load (order_items (session w) !! j).

Definition update_item (j : nat) (f : OrderItem → OrderItem) : M unit :=
  modify (set_session (set_order_items (alter f j))).

(** [Payment.payment_id == key], evaluated by the database on one row.  The
    key is compared as the text the database makes of it: the column is a
    text column, and SQLite, the default store, compares an integer key by
    its decimal text, so that 5077125051 equals the stored ['5077125051'].
    [== None] is [IS NULL]; a NULL column equals no key, and a key that the
    database takes as NULL equals no column. *)
Definition payment_id_matches (key : pyval) (p : Payment) : bool :=
  match key with
  | PNone => match payment_id p with None => true | Some _ => false end
  | _ =>
      match db_text key, payment_id p with
      | Some (Some k), Some s => String.eqb k s
      | _, _ => false
      end
  end.

Fixpoint first_from (key : pyval) (i : nat) (l : list Payment) : option nat :=
  match l with
  | [] => None
  | p :: l' => if payment_id_matches key p then Some i else first_from key (S i) l'
  end.

(** [db.query(Payment).filter(Payment.payment_id == key).first()]: the first
    matching row in table order, or [None]; the statement raises for a key
    the database refuses. *)
Definition query_payment_first (key : pyval) : M (option nat) :=
  match key, db_text key with
  | PNone, _ | _, Some _ =>
      let* w := get_world in ret (first_from key 0 (payments (session w)))
  | _, None => raise DatabaseError
  end.

(** [payment.order]: the order the foreign key points to, or [None]. *)
Definition payment_order (i : nat) : M (option Z) :=
  let* p := get_payment i in
  let* w := get_world in
  ret (match pay_order_id p with
       | Some o => match orders (session w) !! o with Some _ => Some o | None => None end
       | None => None
       end).

(** [order.user] *)
Definition order_user (order : Z) : M (option Z) :=
  let* o := get_order order in
  let* w := get_world in
  ret (match user_id o with
       | Some u => match users (session w) !! u with Some _ => Some u | None => None end
       | None => None
       end).

Fixpoint items_from (order : Z) (j : nat) (l : list OrderItem) : list nat :=
  match l with
  | [] => []
  | it :: l' =>
      if decide (item_order_id it = Some order)
      then j :: items_from order (S j) l'
      else items_from order (S j) l'
  end.

(** [order.items]: the line items whose foreign key is this order. *)
Definition order_items_of (order : Z) : M (list nat) :=
  let* w := get_world in ret (items_from order 0 (order_items (session w))).

(** [item.product] *)
Definition item_product (j : nat) : M (option Product) :=
  let* it := get_item j in
  let* w := get_world in
  ret (match product_id it with
       | Some p => products (session w) !! p
       | None => None
       end).

(** [datetime.now(timezone.utc)] *)
Definition now : M Z :=
  let* w := get_world in
  modify (set_clock_reads S) ;;
  ret (utcnow (clock_reads w)).

(** [uuid.uuid4().hex] *)
Definition uuid4 : M string :=
  let* w := get_world in
  modify (set_uuid_draws S) ;;
  ret (uuid4_hex (uuid_draws w)).

(** [float(v)] *)
Definition py_float (v : pyval) : Res float :=
  match v with
  | PFloat x => Ok x
  | PInt n =>
      match float_of_Z n with
      | S754_infinity _ => Raise OverflowError
      | x => Ok x
      end
  | PBool b => Ok (float_of_Z (if b then 1 else 0))
  | PStr s =>
      match float_of_str s with
      | Some x => Ok x
      | None => Raise ValueError
      end
  | PNone | PList _ | PTuple _ | PDict _ => Raise TypeError
  end.

(** The range of [datetime], year 1 to year 9999, in POSIX seconds.  The
    clock is read in whole seconds: a number of days moves no instant
    across a limit that its whole second does not cross. *)
Definition datetime_min : Z := -62135596800.
Definition datetime_max : Z := 253402300799.

(** [timedelta(days=d)], in seconds; a [timedelta] holds at most 999999999
    days. *)
Definition timedelta_days (d : Z) : Res Z :=
  if Z.leb (-999999999) d && Z.leb d 999999999 then Ok (86400 * d)
  else Raise OverflowError.

(** [t + delta] of a [datetime] and a [timedelta]. *)
Definition datetime_add (t delta : Z) : Res Z :=
  if Z.leb datetime_min (t + delta) && Z.leb (t + delta) datetime_max then Ok (t + delta)
  else Raise OverflowError.

(** [x or default] on a nullable integer column. *)
Definition or_default (x : option Z) (default : Z) : Z :=
  match x with
  | Some n => if Z.eqb n 0 then default else n
  | None => default
  end.

(** ** [services/nowpayments.py] *)

(** [hmac.compare_digest(a, b)] on two [str]: both must be ASCII. *)
Definition compare_digest (a b : string) : M bool :=
  if is_ascii a && is_ascii b then ret (String.eqb a b) else raise TypeError.

Definition verify_ipn_signature (payload signature : string) : M bool :=
  try_except
    (let expected_signature :=
       hmac_sha512_hexdigest (nowpayments_ipn_secret settings) payload in
     compare_digest expected_signature signature)
    (λ _, ret false).

Definition status_mapping : list (string * PaymentStatus.t) :=
  [ ("waiting"%string, PaymentStatus.WAITING);
    ("confirming"%string, PaymentStatus.CONFIRMING);
    ("confirmed"%string, PaymentStatus.CONFIRMED);
    ("sending"%string, PaymentStatus.SENDING);
    ("partially_paid"%string, PaymentStatus.PARTIALLY_PAID);
    ("finished"%string, PaymentStatus.FINISHED);
    ("failed"%string, PaymentStatus.FAILED);
    ("refunded"%string, PaymentStatus.REFUNDED);
    ("expired"%string, PaymentStatus.EXPIRED) ].

(** [status_mapping.get(nowpayments_status.lower(), PaymentStatus.PENDING)];
    a value that is not a string has no [lower]. *)
Definition map_payment_status (nowpayments_status : pyval) : Res PaymentStatus.t :=
  match nowpayments_status with
  | PStr s =>
      Ok (match assoc_get (lower s) status_mapping with
          | Some st => st
          | None => PaymentStatus.PENDING
          end)
  | _ => Raise AttributeError
  end.

Definition _award_loyalty_points (order : Z) : M unit :=
  called (Called_award_loyalty_points order) ;;
  try_except
    (let* o := get_order order in
     let* points_earned := lift (int_of_float (total_amount o)) in
     if Z.leb points_earned 0 then ret tt
     else
       (* a second session [db] is opened here; the rows below belong to
          the session of the request *)
       let* user := order_user order in
       let* u := load user in
       let* row := get_user u in
       update_user u (set_loyalty_points (loyalty_points row + points_earned)) ;;
       let* row := get_user u in
       let* o := get_order order in
       update_user u (set_total_spent (float_add (total_spent row) (total_amount o))) ;;
       let* row := get_user u in
       update_user u (set_total_orders (total_orders row + 1)) ;;
       let* o := get_order order in
       let loyalty_transaction :=
         {| lt_user_id := user_id o;
            lt_order_id := order;
            points := points_earned;
            type := "earned";
            description := "Points earned from order " +:+ order_number o;
            reference := "order_" +:+ pretty order |} in
       second_session_add_commit loyalty_transaction)
    (λ _, ret tt).

(** The body of the loop of [_process_digital_delivery] for one line item. *)
Definition process_item (item : nat) : M unit :=
  let* product := item_product item in
  let* product := load product in
  if bool_decide (product_type product = ProductType.DIGITAL) then
    let* t := now in
    let* delta := lift (timedelta_days (or_default (download_expiry_days product) 30)) in
    let* expiry_date := lift (datetime_add t delta) in
    let* links :=
      match digital_file_url product return M (list DownloadLink) with
      | Some u =>
          if negb (String.eqb u EmptyString) then
            let* download_token := uuid4 in
            ret [ {| url := webhook_url settings +:+ "/download/" +:+ download_token;
                     token := download_token;
                     expires_at := expiry_date;
                     link_download_limit := or_default (download_limit product) 5 |} ]
          else ret []
      | None => ret []
      end in
    update_item item (set_download_links (Some links)) ;;
    update_item item (set_download_expires_at (Some expiry_date))
  else ret tt.

Definition _process_digital_delivery (order : Z) : M unit :=
  called (Called_process_digital_delivery order) ;;
  try_except
    (let* items := order_items_of order in
     for_each items process_item ;;
     second_session_commit)
    (λ _, ret tt).

Definition process_ipn_callback (ipn_data : pyval) : M bool :=
  called Called_process_ipn_callback ;;
  try_except
    (let* payment_id' := lift (py_get ipn_data "payment_id" PNone) in
     let* payment_status' := lift (py_get ipn_data "payment_status" PNone) in
     if negb (truthy payment_id') || negb (truthy payment_status') then ret false
     else
       Session_open ;;
       try_finally
         (let* payment := query_payment_first payment_id' in
          match payment with
          | None => ret false
          | Some payment =>
              let* row := get_payment payment in
              let old_status := payment_status row in
              let* new_status := lift (map_payment_status payment_status') in
              update_payment payment (set_payment_status new_status) ;;
              let* paid := lift (py_get ipn_data "actually_paid" (PInt 0)) in
              let* paid := lift (py_float paid) in
              update_payment payment (set_actually_paid paid) ;;
              let* currency := lift (py_get ipn_data "actually_paid_currency" PNone) in
              update_payment payment (set_actually_paid_currency currency) ;;
              let* outcome := lift (py_get ipn_data "outcome" (PDict [])) in
              let* txid := lift (py_get outcome "txid" PNone) in
              update_payment payment (set_txn_id txid) ;;
              let* outcome := lift (py_get ipn_data "outcome" (PDict [])) in
              let* net := lift (py_get outcome "network" PNone) in
              update_payment payment (set_network net) ;;
              let* t := now in
              update_payment payment (set_updated_at (Some t)) ;;
              (if bool_decide (new_status = PaymentStatus.FINISHED)
                  && negb (bool_decide (old_status = PaymentStatus.FINISHED))
               then
                 let* order := payment_order payment in
                 let* order := load order in
                 update_order order (set_order_payment_status PaymentStatus.FINISHED) ;;
                 update_order order (set_status OrderStatus.PAID) ;;
                 let* t := now in
                 update_order order (set_order_updated_at (Some t)) ;;
                 _award_loyalty_points order ;;
                 let* items := order_items_of order in
                 match items with
                 | [] => ret tt
                 | _ => _process_digital_delivery order
                 end
               else ret tt) ;;
              Session_commit ;;
              ret true
          end)
         Session_close)
    (λ _, ret false).

(** ** [web/app.py]: the webhook endpoint *)

Record Request := {
  headers : list (string * string);   (* names in lower case *)
  body : string;
}.

(** [body.decode()] *)
Definition bytes_decode (b : string) : M string :=
  if utf8_valid b then ret b else raise UnicodeDecodeError.

(** [json.loads(body)] *)
Definition py_json_loads (b : string) : M pyval :=
  match json_loads b with
  | Some v => ret v
  | None => raise JSONDecodeError
  end.

Definition payment_ipn (request : Request) : M pyval :=
  try_except
    (let signature := assoc_get "x-nowpayments-sig" (headers request) in
     let body' := body request in
     let* rejected :=
       match signature with
       | None => ret true
       | Some signature =>
           if String.eqb signature EmptyString then ret true
           else
             let* payload := bytes_decode body' in
             let* ok := verify_ipn_signature payload signature in
             ret (negb ok)
       end in
     if (rejected : bool) then raise (HTTPException 400 "Invalid signature")
     else
       let* data := py_json_loads body' in
       let* success := process_ipn_callback data in
       if (success : bool) then ret (PDict [("status"%string, PStr "ok")])
       else ret (PTuple [PDict [("status"%string, PStr "error")]; PInt 400]))
    (λ e, ret (PTuple [PDict [("status"%string, PStr "error");
                               ("message"%string, PStr (exn_str e))]; PInt 500])).

(** What FastAPI answers for the value an endpoint returns, when the route
    declares neither a status code nor a response class: the value is made
    JSON-compatible (a tuple becomes an array) and sent with status 200.
    An [HTTPException] that leaves the endpoint is answered with its own
    status, any other exception with status 500. *)
Fixpoint jsonable_encoder (v : pyval) : pyval :=
  match v with
  | PList l => PList (map jsonable_encoder l)
  | PTuple l => PList (map jsonable_encoder l)
  | PDict d => PDict (map (λ kv, (fst kv, jsonable_encoder (snd kv))) d)
  | _ => v
  end.

Record HTTPResponse := {
  status_code : Z;
  content : pyval;
}.

(** What stands in front of the endpoint.  [create_app] installs
    [TrustedHostMiddleware] outside debug mode, which answers a request
    for a host that is not allowed with status 400, and the route is
    limited to 100 requests a minute for one remote address, beyond which
    the handler of the limiter answers with status 429.  Both are library
    code and the second depends on the requests before: whether they let
    a request through, and what they answer when they do not, is given to
    the model. *)
Inductive Front :=
| Let_through
| Answered_in_front (answer : HTTPResponse).

Definition serve_payment_ipn (front : Front) (request : Request) (w : World)
    : HTTPResponse * World :=
  match front with
  | Answered_in_front answer => (answer, w)
  | Let_through =>
      match payment_ipn request w with
      | (Ok v, w') => ({| status_code := 200; content := jsonable_encoder v |}, w')
      | (Raise (HTTPException c d), w') =>
          ({| status_code := c; content := PDict [("detail"%string, PStr d)] |}, w')
      | (Raise _, w') =>
          ({| status_code := 500; content := PStr "Internal Server Error" |}, w')
      end
  end.

End Model.

(** ** Notions of the specification *)

(** Terminal payment statuses (spec, section 4.1). *)
Definition terminal (st : PaymentStatus.t) : bool :=
  match st with
  | PaymentStatus.FINISHED | PaymentStatus.FAILED
  | PaymentStatus.REFUNDED | PaymentStatus.EXPIRED => true
  | _ => false
  end.

(** The floor of an amount in whole currency units (spec, section 4.4);
    undefined on a NaN and on an infinity. *)
Definition floor_amount (x : float) : option Z :=
  match x with
  | S754_zero _ => Some 0
  | S754_finite s m e =>
      let sm := cond_Zopp s (Zpos m) in
      Some (if Z.leb 0 e then sm * 2 ^ e else sm / 2 ^ (- e))
  | _ => None
  end.

(** The nine gateway statuses, compared without regard to case. *)
Definition recognized (s : string) : bool :=
  match assoc_get (lower s) status_mapping with
  | Some _ => true
  | None => false
  end.

(** How many times Fulfillment ran: once per call of the first handler of
    the branch that triggers it. *)
Fixpoint fulfillment_runs (l : list Call) : nat :=
  match l with
  | [] => 0
  | Called_award_loyalty_points _ :: l' => S (fulfillment_runs l')
  | _ :: l' => fulfillment_runs l'
  end.

(** The ledger row written for an order [o] (key [order]) of user [u] that
    earns [p] points. *)
Definition awarded (order : Z) (o : Order) (u : Z) (p : Z) : LoyaltyTransaction :=
  {| lt_user_id := Some u; lt_order_id := order; points := p; type := "earned";
     description := "Points earned from order " +:+ order_number o;
     reference := "order_" +:+ pretty order |}.

(** What a notification writes on the payment row, at time [t]. *)
Definition written (new : PaymentStatus.t) (paid : float) (cur txid net : pyval)
    (t : Z) (p : Payment) : Payment :=
  set_updated_at (Some t)
    (set_network net
       (set_txn_id txid
          (set_actually_paid_currency cur
             (set_actually_paid paid (set_payment_status new p))))).

(** What a notification that triggers Fulfillment writes on the order row,
    at time [t]. *)
Definition paid_at (t : Z) (o : Order) : Order :=
  set_order_updated_at (Some t)
    (set_status OrderStatus.PAID
       (set_order_payment_status PaymentStatus.FINISHED o)).

(** The payload is an object that carries a payment id [key], a status that
    maps to [new], and incidental fields of the shapes of the interface
    (spec, section 6): an amount that [float] accepts and, if present, an
    [outcome] object. *)
Definition reads `{RT : Runtime} (ipn_data key : pyval) (new : PaymentStatus.t)
    (paid : float) (cur txid net : pyval) : Prop :=
  py_get ipn_data "payment_id" PNone = Ok key ∧ truthy key = true
  ∧ (∃ st, py_get ipn_data "payment_status" PNone = Ok st ∧ truthy st = true
           ∧ map_payment_status st = Ok new)
  ∧ (∃ v, py_get ipn_data "actually_paid" (PInt 0) = Ok v ∧ py_float v = Ok paid)
  ∧ py_get ipn_data "actually_paid_currency" PNone = Ok cur
  ∧ (∃ oc, py_get ipn_data "outcome" (PDict []) = Ok oc
           ∧ py_get oc "txid" PNone = Ok txid
           ∧ py_get oc "network" PNone = Ok net).

(** The product row of a line item. *)
Definition product_of (d : DB) (it : OrderItem) : option Product :=
  match product_id it with
  | Some p => products d !! p
  | None => None
  end.

(** What the delivery handler makes of a line item of a digital product,
    with clock reading [t] and token [tok]. *)
Definition delivered `{RT : Runtime} (t : Z) (tok : string) (product : Product)
    (it : OrderItem) : OrderItem :=
  let expiry := t + 86400 * or_default (download_expiry_days product) 30 in
  set_download_expires_at (Some expiry)
    (set_download_links
       (Some match digital_file_url product with
             | Some u =>
                 if negb (String.eqb u EmptyString) then
                   [ {| url := webhook_url settings +:+ "/download/" +:+ tok;
                        token := tok; expires_at := expiry;
                        link_download_limit := or_default (download_limit product) 5 |} ]
                 else []
             | None => []
             end)
       it).

(** What the award handler leaves alone. *)
Definition frame_award (w w' : World) : Prop :=
  payments (store w') = payments (store w)
  ∧ orders (store w') = orders (store w)
  ∧ users (store w') = users (store w)
  ∧ order_items (store w') = order_items (store w)
  ∧ products (store w') = products (store w)
  ∧ payments (session w') = payments (session w)
  ∧ orders (session w') = orders (session w)
  ∧ order_items (session w') = order_items (session w)
  ∧ products (session w') = products (session w)
  ∧ clock_reads w' = clock_reads w
  ∧ uuid_draws w' = uuid_draws w.

(** What the delivery handler leaves alone. *)
Definition frame_delivery (w w' : World) : Prop :=
  store w' = store w
  ∧ payments (session w') = payments (session w)
  ∧ orders (session w') = orders (session w)
  ∧ users (session w') = users (session w)
  ∧ products (session w') = products (session w)
  ∧ loyalty_transactions (session w') = loyalty_transactions (session w)
  ∧ length (order_items (session w')) = length (order_items (session w))
  ∧ calls w' = calls w
  ∧ (clock_reads w ≤ clock_reads w')%nat.

(** Whether the delivery handler draws a token for this product. *)
Definition has_file (product : Product) : bool :=
  match digital_file_url product with
  | Some u => negb (String.eqb u EmptyString)
  | None => false
  end.

(** What the loop of the delivery handler has done to line item [j], which
    held [it] when the handler started in [w] and whose product is
    [product]: a digital item carries the expiry and the links computed
    from one reading [k] of the clock taken during the run; any other item
    is as it was. *)
Definition item_outcome `{RT : Runtime} (w w' : World) (j : nat) (it : OrderItem)
    (product : Product) : Prop :=
  if bool_decide (product_type product = ProductType.DIGITAL) then
    ∃ k n, (clock_reads w ≤ k < clock_reads w')%nat
           ∧ order_items (session w') !! j
             = Some (delivered (utcnow k) (uuid4_hex n) product it)
  else order_items (session w') !! j = Some it.

(** The world a successful application that does not trigger Fulfillment
    ends in. *)
Definition applied_plain (i : nat) (f : Payment → Payment) (w : World) : World :=
  {| store := set_payments (alter f i) (store w);
     session := set_payments (alter f i) (store w);
     clock_reads := S (clock_reads w);
     uuid_draws := uuid_draws w;
     calls := calls w ++ [Called_process_ipn_callback] |}.

(** In an application that triggers Fulfillment: the world before the
    handlers run, what the handlers make of a world, and the commit. *)
Definition before_fulfillment `{RT : Runtime} (i : nat) (f : Payment → Payment)
    (order : Z) (w : World) : World :=
  {| store := store w;
     session :=
       set_orders (alter (paid_at (utcnow (S (clock_reads w)))) order)
         (set_payments (alter f i) (store w));
     clock_reads := S (S (clock_reads w));
     uuid_draws := uuid_draws w;
     calls := calls w ++ [Called_process_ipn_callback] |}.

Definition fulfill `{RT : Runtime} (order : Z) (w : World) : World :=
  let w1 := snd (_award_loyalty_points order w) in
  match items_from order 0 (order_items (session w1)) with
  | [] => w1
  | _ => snd (_process_digital_delivery order w1)
  end.

Definition committed (w : World) : World :=
  {| store := session w; session := session w; clock_reads := clock_reads w;
     uuid_draws := uuid_draws w; calls := calls w |}.

(** The world before the commit of an application that does not trigger
    Fulfillment. *)
Definition before_commit (i : nat) (f : Payment → Payment) (w : World) : World :=
  {| store := store w;
     session := set_payments (alter f i) (store w);
     clock_reads := S (clock_reads w);
     uuid_draws := uuid_draws w;
     calls := calls w ++ [Called_process_ipn_callback] |}.

(** How an application that has reached its commit in the world [w] ends:
    applied if the database takes the changes, and refused, with the view
    of the request dropped, if it does not. *)
Definition commit_and_close `{RT : Runtime} (w : World) : Res bool * World :=
  if flush_accepted (store w) (session w) then (Ok true, committed w)
  else (Ok false, Session_close w).

(** Whether the database takes the incidental fields of a notification for
    the payment row [p]. *)
Definition accepts `{RT : Runtime} (p : Payment) (cur txid net : pyval) : bool :=
  text_accepted (actually_paid_currency p) cur
  && text_accepted (txn_id p) txid
  && text_accepted (network p) net.

(** What the award handler does for the order [o] (key [order]) with the
    users [us]: nothing, or the owner, the new row of the owner and, if the
    database takes the points, the ledger row. *)
Definition award_of `{RT : Runtime} (order : Z) (o : Order) (us : gmap Z User)
    : option (Z * User * list LoyaltyTransaction) :=
  match int_of_float (total_amount o) with
  | Ok q =>
      if Z.leb q 0 then None
      else
        u ← user_id o;
        row ← us !! u;
        Some (u,
              {| loyalty_points := loyalty_points row + q;
                 total_spent := float_add (total_spent row) (total_amount o);
                 total_orders := total_orders row + 1 |},
              if db_integer q then [awarded order o u q] else [])
  | Raise _ => None
  end.

(** The ledger rows the award stores, the users it leaves in the request
    session, and whether the database takes the row of the owner at the
    commit of the request. *)
Definition award_rows `{RT : Runtime} (order : Z) (o : Order) (us : gmap Z User)
    : list LoyaltyTransaction :=
  match award_of order o us with
  | Some (_, _, rows) => rows
  | None => []
  end.

Definition award_users `{RT : Runtime} (order : Z) (o : Order) (us : gmap Z User)
    : gmap Z User :=
  match award_of order o us with
  | Some (u, row', _) => <[u := row']> us
  | None => us
  end.

Definition award_accepted `{RT : Runtime} (order : Z) (o : Order) (us : gmap Z User)
    : bool :=
  match award_of order o us with
  | Some (u, row', _) =>
      match us !! u with
      | Some row => user_accepted row row'
      | None => true
      end
  | None => true
  end.

(** The notification can be read, names the stored payment [p] at position
    [i] and, if it triggers Fulfillment, the order of the payment exists:
    the application gets as far as its commit. *)
Definition applies_to `{RT : Runtime} (ipn_data : pyval) (d : DB) (key : pyval)
    (new : PaymentStatus.t) (paid : float) (cur txid net : pyval) (i : nat)
    (p : Payment) : Prop :=
  reads ipn_data key new paid cur txid net
  ∧ first_from key 0 (payments d) = Some i
  ∧ payments d !! i = Some p
  ∧ (new = PaymentStatus.FINISHED → payment_status p ≠ PaymentStatus.FINISHED →
     ∃ order o, pay_order_id p = Some order ∧ orders d !! order = Some o).

(** The world in which such an application reaches its commit. *)
Definition commit_world `{RT : Runtime} (new : PaymentStatus.t) (paid : float)
    (cur txid net : pyval) (i : nat) (p : Payment) (w : World) : World :=
  let f := written new paid cur txid net (utcnow (clock_reads w)) in
  if bool_decide (new = PaymentStatus.FINISHED ∧ payment_status p ≠ PaymentStatus.FINISHED)
  then
    match pay_order_id p with
    | Some order => fulfill order (before_fulfillment i f order w)
    | None => before_commit i f w
    end
  else before_commit i f w.

(** Whether the database takes the commit of such an application: the
    incidental fields of the payment and, if Fulfillment has run, the row
    of the owner of the order. *)
Definition commit_accepted `{RT : Runtime} (d : DB) (new : PaymentStatus.t)
    (cur txid net : pyval) (p : Payment) : bool :=
  accepts p cur txid net
  && if bool_decide (new = PaymentStatus.FINISHED
                     ∧ payment_status p ≠ PaymentStatus.FINISHED)
     then match pay_order_id p with
          | Some order =>
              match orders d !! order with
              | Some o => award_accepted order o (users d)
              | None => true
              end
          | None => true
          end
     else true.

(** The ledger rows such an application stores, applied or not. *)
Definition commit_rows `{RT : Runtime} (d : DB) (new : PaymentStatus.t) (p : Payment)
    : list LoyaltyTransaction :=
  if bool_decide (new = PaymentStatus.FINISHED
                  ∧ payment_status p ≠ PaymentStatus.FINISHED)
  then match pay_order_id p with
       | Some order =>
           match orders d !! order with
           | Some o => award_rows order o (users d)
           | None => []
           end
       | None => []
       end
  else [].

(** The expiry of a link made at time [t] for a product, where [datetime]
    can hold it. *)
Definition expiry_date (t : Z) (product : Product) : Res Z :=
  match timedelta_days (or_default (download_expiry_days product) 30) with
  | Ok delta => datetime_add t delta
  | Raise e => Raise e
  end.

(** The calls an application that triggers Fulfillment makes for [order]. *)
Definition fulfillment_calls (order : Z) (d : DB) : list Call :=
  Called_award_loyalty_points order ::
  match items_from order 0 (order_items d) with
  | [] => []
  | _ => [Called_process_digital_delivery order]
  end.

(** What the endpoint returns when it catches an exception. *)
Definition error_500 (message : string) : pyval :=
  PTuple [PDict [("status"%string, PStr "error"); ("message"%string, PStr message)];
          PInt 500].

(** ** The scenario of the specification (section 8) *)

Module Scenario.

Definition quoted (s : string) : string :=
  String "034"%char s +:+ String "034"%char EmptyString.

(** Request bodies, and what [json.loads] makes of them. *)
Definition body_of (id st : string) : string :=
  "{" +:+ quoted "payment_id" +:+ ": " +:+ quoted id +:+ ", "
      +:+ quoted "payment_status" +:+ ": " +:+ quoted st +:+ "}".

Definition ipn_of (id st : string) : pyval :=
  PDict [("payment_id"%string, PStr id); ("payment_status"%string, PStr st)].

Definition known_bodies : list (string * pyval) :=
  [ (body_of "np_123" "finished", ipn_of "np_123" "finished");
    (body_of "np_123" "confirming", ipn_of "np_123" "confirming");
    (body_of "np_123" "on_hold", ipn_of "np_123" "on_hold");
    (body_of "np_unknown" "finished", ipn_of "np_unknown" "finished") ].

(** The integers of 64 bits. *)
Definition int64 (n : Z) : bool := Z.leb (- 2 ^ 63) n && Z.ltb n (2 ^ 63).

(** A runtime to run the model on: a clock that advances by one second
    per reading, numbered tokens, a stand-in for the keyed digest, and a
    database that takes texts and integers of 64 bits (an integer or a
    boolean by its decimal text where a text is expected) and refuses the
    rest: lists and objects, as SQLite does, and floats, of which SQLite
    would store the decimal text, which is not modelled; no run below
    gives a float for a text. *)
Definition rt : Runtime := {|
  settings := {| nowpayments_ipn_secret := "s3cret";
                 webhook_url := "https://shop.example" |};
  utcnow := λ k, 1704067200 + Z.of_nat k;
  uuid4_hex := λ k, "uuid" +:+ pretty k;
  hmac_sha512_hexdigest := λ key msg, "5ca1ab1e";
  json_loads := λ b, assoc_get b known_bodies;
  utf8_valid := is_ascii;
  float_of_str := λ _, None;
  exn_str := λ e,
    match e with
    | HTTPException c d => pretty c +:+ ": " +:+ d
    | _ => "error"
    end;
  db_text := λ v,
    match v with
    | PStr s => Some (Some s)
    | PInt n => if int64 n then Some (Some (pretty n)) else None
    | PBool b => Some (Some (if b then "1" else "0"))
    | _ => None
    end;
  db_integer := int64;
|}.

Definition zero : float := S754_zero false.
Definition fifty : float := float_of_Z 50.

Definition alice : User :=
  {| loyalty_points := 0; total_spent := zero; total_orders := 0 |}.

Definition ebook : Product :=
  {| product_type := ProductType.DIGITAL;
     digital_file_url := Some "https://files.example/ebook.pdf"%string;
     download_limit := None; download_expiry_days := None |}.

(** A digital product that has no file yet. *)
Definition preorder : Product :=
  {| product_type := ProductType.DIGITAL; digital_file_url := None;
     download_limit := Some 3; download_expiry_days := Some 7 |}.

Definition mug : Product :=
  {| product_type := ProductType.PHYSICAL; digital_file_url := None;
     download_limit := None; download_expiry_days := None |}.

Definition order7 : Order :=
  {| order_number := "ORD-20240101-ABC123"; user_id := Some 1;
     status := OrderStatus.PENDING; total_amount := fifty;
     order_payment_status := PaymentStatus.PENDING; order_updated_at := None |}.

(** An order without line items. *)
Definition order8 : Order :=
  {| order_number := "ORD-20240101-EMPTY0"; user_id := Some 1;
     status := OrderStatus.PENDING; total_amount := fifty;
     order_payment_status := PaymentStatus.PENDING; order_updated_at := None |}.

Definition item_of (order product : Z) : OrderItem :=
  {| item_order_id := Some order; product_id := Some product;
     download_links := None; download_expires_at := None |}.

Definition payment_for (order : Z) (st : PaymentStatus.t) : Payment :=
  {| pay_order_id := Some order; payment_id := Some "np_123"%string;
     payment_status := st; actually_paid := zero;
     actually_paid_currency := PNone; txn_id := PNone; network := PNone;
     updated_at := None |}.

Definition db_with (p : Payment) : DB :=
  {| payments := [p];
     orders := <[7 := order7]> (<[8 := order8]> ∅);
     users := <[1 := alice]> ∅;
     order_items := [item_of 7 1; item_of 7 2; item_of 7 3];
     products := <[1 := ebook]> (<[2 := mug]> (<[3 := preorder]> ∅));
     loyalty_transactions := [] |}.

Definition world_of (d : DB) : World :=
  {| store := d; session := d; clock_reads := 0; uuid_draws := 0; calls := [] |}.

(** The payment of the scenario: created for order 7, status WAITING. *)
Definition w0 : World := world_of (db_with (payment_for 7 PaymentStatus.WAITING)).

(** The same payment once FINISHED has been recorded. *)
Definition w_finished : World := world_of (db_with (payment_for 7 PaymentStatus.FINISHED)).

(** A payment for the order that has no line items. *)
Definition w_empty : World := world_of (db_with (payment_for 8 PaymentStatus.WAITING)).

Definition signed (b : string) : Request :=
  {| headers := [("x-nowpayments-sig"%string, "5ca1ab1e"%string)]; body := b |}.

Definition unsigned (b : string) : Request := {| headers := []; body := b |}.

Definition finished : pyval := ipn_of "np_123" "finished".
Definition confirming : pyval := ipn_of "np_123" "confirming".
Definition on_hold : pyval := ipn_of "np_123" "on_hold".
Definition unknown : pyval := ipn_of "np_unknown" "finished".

(** FINISHED with a list of transaction ids where the gateway documents
    one, and [on_hold] with a null amount. *)
Definition finished_txids : pyval :=
  PDict [("payment_id"%string, PStr "np_123"); ("payment_status"%string, PStr "finished");
         ("outcome"%string, PDict [("txid"%string, PList [PStr "0xa1"; PStr "0xb2"])])].

Definition on_hold_null_amount : pyval :=
  PDict [("payment_id"%string, PStr "np_123"); ("payment_status"%string, PStr "on_hold");
         ("actually_paid"%string, PNone)].

(** An order without owner, and a world that holds it. *)
Definition order9 : Order :=
  {| order_number := "ORD-20240101-NOUSER"; user_id := None;
     status := OrderStatus.PENDING; total_amount := fifty;
     order_payment_status := PaymentStatus.PENDING; order_updated_at := None |}.

Definition w_orphan : World :=
  world_of
    {| payments := []; orders := <[9 := order9]> ∅; users := ∅; order_items := [];
       products := ∅; loyalty_transactions := [] |}.

(** An order of an e-book whose links are to last 3000000 days, followed
    by the e-book of the scenario. *)
Definition lasting : Product :=
  {| product_type := ProductType.DIGITAL;
     digital_file_url := Some "https://files.example/atlas.pdf"%string;
     download_limit := None; download_expiry_days := Some 3000000 |}.

Definition w_lasting : World :=
  world_of
    {| payments := []; orders := <[7 := order7]> ∅; users := ∅;
       order_items := [item_of 7 1; item_of 7 5; item_of 7 1];
       products := <[1 := ebook]> (<[5 := lasting]> ∅); loyalty_transactions := [] |}.

Definition after (ipn_data : pyval) (w : World) : World :=
  snd (process_ipn_callback (RT := rt) ipn_data w).

(** The scenario: FINISHED is delivered, and delivered again. *)
Definition w1 : World := after finished w0.
Definition w2 : World := after finished w1.

(** Out of order: after FINISHED, a stale CONFIRMING, then FINISHED again. *)
Definition w1' : World := after confirming w1.
Definition w2' : World := after finished w1'.

End Scenario.

(** * More of the code *)

(** ** More notions of [database/models.py] and of the ledger *)

(** [PaymentStatus.<member>.value] *)
Definition payment_status_value (st : PaymentStatus.t) : string :=
  match st with
  | PaymentStatus.PENDING => "pending"
  | PaymentStatus.WAITING => "waiting"
  | PaymentStatus.CONFIRMING => "confirming"
  | PaymentStatus.CONFIRMED => "confirmed"
  | PaymentStatus.SENDING => "sending"
  | PaymentStatus.PARTIALLY_PAID => "partially_paid"
  | PaymentStatus.FINISHED => "finished"
  | PaymentStatus.FAILED => "failed"
  | PaymentStatus.REFUNDED => "refunded"
  | PaymentStatus.EXPIRED => "expired"
  end.

(** The points that the ledger rows of user [u] add up to. *)
Fixpoint ledger_points (u : Z) (l : list LoyaltyTransaction) : Z :=
  match l with
  | [] => 0
  | r :: l' =>
      (if decide (lt_user_id r = Some u) then points r else 0) + ledger_points u l'
  end.

(** What the webhook endpoint returns for a notification that was applied,
    and for one that was refused (for an exception it returns
    [error_500]). *)
Definition body_ok : pyval := PDict [("status"%string, PStr "ok")].
Definition body_refused : pyval :=
  PTuple [PDict [("status"%string, PStr "error")]; PInt 400].

(** Whether a float is a number with a value: neither a NaN nor an
    infinity. *)
Definition float_is_finite (x : float) : bool :=
  match x with
  | S754_zero _ | S754_finite _ _ _ => true
  | S754_infinity _ | S754_nan => false
  end.

(** ** [services/nowpayments.py]: the data of the QR code *)

(** ASCII upper case. *)
Definition upper_ascii (c : ascii) : ascii :=
  let n := nat_of_ascii c in
  if (Nat.leb 97 n && Nat.leb n 122) then ascii_of_nat (n - 32) else c.

Fixpoint upper (s : string) : string :=
  match s with
  | EmptyString => EmptyString
  | String c s' => String (upper_ascii c) (upper s')
  end.

(** What the formatting and the parsing of Python values take from outside
    the repository: the case mappings of Unicode on a string that is not
    ASCII, the [repr] of a float, the [str] of a list, a tuple and a dict,
    and [int] of a string ([None] when it raises). *)
Class Text := {
  unicode_upper : string → string;
  unicode_lower : string → string;
  float_repr : float → string;
  container_str : pyval → string;
  int_of_str : string → option Z;
}.

Section QR.
Context `{TX : Text}.

(** [s.upper()] and [s.lower()] *)
Definition str_upper (s : string) : string :=
  if is_ascii s then upper s else unicode_upper s.

Definition str_lower (s : string) : string :=
  if is_ascii s then lower s else unicode_lower s.

(** [v.upper()]; only a string has an [upper]. *)
Definition py_upper (v : pyval) : Res string :=
  match v with
  | PStr s => Ok (str_upper s)
  | _ => Raise AttributeError
  end.

(** [str(v)], which is also what an f-string puts for [{v}]. *)
Definition py_str (v : pyval) : string :=
  match v with
  | PNone => "None"
  | PBool true => "True"
  | PBool false => "False"
  | PInt n => pretty n
  | PFloat x => float_repr x
  | PStr s => s
  | PList _ | PTuple _ | PDict _ => container_str v
  end.

Definition create_qr_payment_data (payment_data : pyval) : M pyval :=
  try_except
    (let* pay_address := lift (py_get payment_data "pay_address" PNone) in
     let* pay_amount := lift (py_get payment_data "pay_amount" PNone) in
     let* pay_currency := lift (py_get payment_data "pay_currency" (PStr EmptyString)) in
     let* pay_currency := lift (py_upper pay_currency) in
     if negb (truthy pay_address) || negb (truthy pay_amount) then ret (PDict [])
     else
       let payment_uri := str_lower pay_currency +:+ ":" +:+ py_str pay_address in
       let payment_uri :=
         if truthy pay_amount then payment_uri +:+ "?amount=" +:+ py_str pay_amount
         else payment_uri in
       ret (PDict [ ("payment_uri"%string, PStr payment_uri);
                    ("pay_address"%string, pay_address);
                    ("pay_amount"%string, PStr (py_str pay_amount));
                    ("pay_currency"%string, PStr pay_currency);
                    ("qr_data"%string, PStr payment_uri) ]))
    (λ _, ret (PDict [])).

End QR.

(** A payload the QR data can be made from: an object with an address and an
    amount that are not empty, and a currency that, if given, is a string. *)
Definition qr_ready (payment_data : pyval) (address amount : pyval) (currency : string)
    : Prop :=
  py_get payment_data "pay_address" PNone = Ok address ∧ truthy address = true
  ∧ py_get payment_data "pay_amount" PNone = Ok amount ∧ truthy amount = true
  ∧ py_get payment_data "pay_currency" (PStr EmptyString) = Ok (PStr currency).

(** ** [web/auth.py] and the endpoints of [web/app.py] that use it *)

Module UserRole.
Inductive t := CUSTOMER | ADMIN | MODERATOR.
#[global] Instance eq_dec : EqDecision t.
Proof. solve_decision. Defined.
End UserRole.

(** The columns of the table [users] that authentication reads and writes
    (the columns of [User] above are those the loyalty award uses); every
    column but the primary key is nullable. *)
Record Account := {
  acc_id : Z;
  username : option string;
  role : option UserRole.t;
  is_active : option bool;
  password_hash : option string;
  two_fa_secret : option string;
  two_fa_enabled : option bool;
  last_login : option Z;
  login_attempts : option Z;
  locked_until : option Z;
}.

Definition set_last_login (v : option Z) (a : Account) : Account :=
  {| acc_id := acc_id a; username := username a; role := role a;
     is_active := is_active a; password_hash := password_hash a;
     two_fa_secret := two_fa_secret a; two_fa_enabled := two_fa_enabled a;
     last_login := v; login_attempts := login_attempts a;
     locked_until := locked_until a |}.
Definition set_login_attempts (v : option Z) (a : Account) : Account :=
  {| acc_id := acc_id a; username := username a; role := role a;
     is_active := is_active a; password_hash := password_hash a;
     two_fa_secret := two_fa_secret a; two_fa_enabled := two_fa_enabled a;
     last_login := last_login a; login_attempts := v;
     locked_until := locked_until a |}.

(** The table in table order, and how often the clock has been read. *)
Record AuthState := {
  accounts : list Account;
  auth_clock_reads : nat;
}.

(** What authentication takes from outside the repository.  The functions
    that depend on the time of the call ([jwt.decode] checks the expiry,
    a one-time code is valid for a while) get the state of the clock. *)
Class AuthRuntime := {
  debug : bool;
  access_token_expire_minutes : Z;
  (** [jwt.encode(claims, SECRET_KEY, algorithm=ALGORITHM)]; [None] when it
      raises *)
  jwt_encode : list (string * pyval) → option string;
  (** [jwt.decode(token, SECRET_KEY, algorithms=[ALGORITHM])]; [None] when
      it raises *)
  jwt_decode : nat → string → option pyval;
  (** [pwd_context.verify(password, hash)]; [None] when it raises *)
  pwd_verify : string → option string → option bool;
  (** [pyotp.TOTP(secret).verify(code, valid_window=1)]; [None] when it
      raises *)
  totp_verify : nat → option string → string → option bool;
  (** the cookies Starlette reads from a [Cookie] header *)
  cookie_parser : string → list (string * string);
}.

(** Truth value of a nullable Boolean column. *)
Definition column_true (b : option bool) : bool :=
  match b with
  | Some true => true
  | _ => false
  end.

(** [s.split(sep)] for a separator of one character. *)
Fixpoint split_on (sep : ascii) (s : string) : list string :=
  match s with
  | EmptyString => [EmptyString]
  | String c s' =>
      if Ascii.eqb c sep then EmptyString :: split_on sep s'
      else match split_on sep s' with
           | p :: ps => String c p :: ps
           | [] => [String c EmptyString]
           end
  end.

(** What the web server answers with. *)
Record Cookie := {
  cookie_key : string;
  cookie_value : string;
  httponly : bool;
  secure : bool;
}.

(** A rendered template with its context (the entry [request] left out), or
    a redirect with the cookies it sets. *)
Inductive Response :=
| TemplateResponse (name : string) (context : list (string * pyval))
| RedirectResponse (location : string) (status : Z) (set_cookies : list Cookie).

Section Auth.
Context `{RT : Runtime} `{TX : Text} `{AR : AuthRuntime}.

Definition verify_password (plain_password : string) (hashed_password : option string)
    : bool :=
  match pwd_verify plain_password hashed_password with
  | Some b => b
  | None => false
  end.

Definition verify_2fa_token (k : nat) (secret : option string) (code : string) : bool :=
  match totp_verify k secret code with
  | Some b => b
  | None => false
  end.

(** [create_access_token(data, expires_delta)]: the claims get the entry
    [exp], the instant of expiry; an [expires_delta] of zero counts as none
    given.  An exception of [jwt.encode] is raised again. *)
Definition dict_update (k : string) (v : pyval) (d : list (string * pyval))
    : list (string * pyval) :=
  match assoc_get k d with
  | Some _ => map (λ kv, if String.eqb (fst kv) k then (k, v) else kv) d
  | None => d ++ [(k, v)]
  end.

Definition create_access_token (data : list (string * pyval)) (expires_delta : option Z)
    (s : AuthState) : option string * AuthState :=
  let delta :=
    match expires_delta with
    | Some d => if Z.eqb d 0 then 60 * access_token_expire_minutes else d
    | None => 60 * access_token_expire_minutes
    end in
  let expire := utcnow (auth_clock_reads s) + delta in
  let s' := {| accounts := accounts s; auth_clock_reads := S (auth_clock_reads s) |} in
  (jwt_encode (dict_update "exp" (PInt expire) data), s').

Definition verify_token (token : string) (s : AuthState) : option pyval :=
  jwt_decode (auth_clock_reads s) token.

(** [int(v)] *)
Definition py_int (v : pyval) : Res Z :=
  match v with
  | PInt n => Ok n
  | PBool b => Ok (if b then 1 else 0)
  | PFloat x => int_of_float x
  | PStr s =>
      match int_of_str s with
      | Some n => Ok n
      | None => Raise ValueError
      end
  | PNone | PList _ | PTuple _ | PDict _ => Raise TypeError
  end.

(** [db.query(User).filter(User.id == k).first()] *)
Definition query_user_by_id (k : Z) (s : AuthState) : option Account :=
  find (λ a, Z.eqb (acc_id a) k) (accounts s).

(** [get_user_from_token]: every exception is answered with [None]. *)
Definition get_user_from_token (token : string) (s : AuthState) : option Account :=
  match verify_token token s with
  | None => None
  | Some payload =>
      if negb (truthy payload) then None
      else
        match py_get payload "sub" PNone with
        | Raise _ => None
        | Ok user_id =>
            if negb (truthy user_id) then None
            else
              match py_int user_id with
              | Raise _ => None
              | Ok k => query_user_by_id k s
              end
        end
  end.

(** [request.cookies] *)
Definition request_cookies (request : Request) : list (string * string) :=
  match assoc_get "cookie" (headers request) with
  | Some c => cookie_parser c
  | None => []
  end.

(** [not t] for a string that may be [None]. *)
Definition falsy_str (t : option string) : bool :=
  match t with
  | Some s => String.eqb s EmptyString
  | None => true
  end.

(** The first lines of [get_current_user]: the token of the request.  The
    lookup [auth_header.split(" ")[1]] is the one place where an exception
    other than [HTTPException] could come from; the handler
    [except Exception] turns it into the 401 written here. *)
Definition request_token (request : Request) : Res (option string) :=
  let token := assoc_get "access_token" (request_cookies request) in
  if falsy_str token then
    let auth_header := assoc_get "authorization" (headers request) in
    if negb (falsy_str auth_header)
       && String.prefix "Bearer " (default EmptyString auth_header)
    then
      match split_on " " (default EmptyString auth_header) !! 1%nat with
      | Some t => Ok (Some t)
      | None => Raise (HTTPException 401 "Authentication error")
      end
    else Ok token
  else Ok token.

(** Its last lines, from [user = get_user_from_token(token)] on. *)
Definition authenticate (token : string) (s : AuthState) : Res Account :=
  match get_user_from_token token s with
  | None => Raise (HTTPException 401 "Invalid authentication credentials")
  | Some user =>
      if negb (column_true (is_active user))
      then Raise (HTTPException 400 "Inactive user")
      else Ok user
  end.

Definition get_current_user (request : Request) (s : AuthState) : Res Account :=
  match request_token request with
  | Raise e => Raise e
  | Ok token =>
      if falsy_str token then Raise (HTTPException 401 "Not authenticated")
      else authenticate (default EmptyString token) s
  end.

(** [user.role in allowed]; a NULL role is in no list. *)
Definition role_in (r : option UserRole.t) (allowed : list UserRole.t) : bool :=
  match r with
  | Some x => bool_decide (x ∈ allowed)
  | None => false
  end.

Definition require_admin (user : Account) : Res unit :=
  if negb (role_in (role user) [UserRole.ADMIN; UserRole.MODERATOR])
  then Raise (HTTPException 403 "Not enough permissions")
  else Ok tt.

Definition require_super_admin (user : Account) : Res unit :=
  if negb (role_in (role user) [UserRole.ADMIN])
  then Raise (HTTPException 403 "Super admin permissions required")
  else Ok tt.

(** [RoleChecker(allowed_roles)(current_user)] *)
Definition RoleChecker (allowed_roles : list UserRole.t) (current_user : Account)
    : Res Account :=
  if negb (role_in (role current_user) allowed_roles)
  then Raise (HTTPException 403 "Insufficient permissions")
  else Ok current_user.

Definition require_admin_role : Account → Res Account :=
  RoleChecker [UserRole.ADMIN; UserRole.MODERATOR].
Definition require_super_admin_role : Account → Res Account :=
  RoleChecker [UserRole.ADMIN].

(** *** [web/app.py]: starting a backup *)

Inductive BackgroundTask := Task_create_backup.

(** The endpoint, given the user its dependency has resolved: the answer and
    the background tasks it has added. *)
Definition create_backup_endpoint (current_user : Account)
    : Res (pyval * list BackgroundTask) :=
  match require_admin current_user with
  | Raise e => Raise e
  | Ok _ => Ok (PDict [("status"%string, PStr "Backup started")], [Task_create_backup])
  end.

(** [POST /admin/backup]: FastAPI resolves [Depends(get_current_user)], then
    calls the endpoint; an [HTTPException] of either is the answer. *)
Definition serve_create_backup (request : Request) (s : AuthState)
    : Res (pyval * list BackgroundTask) :=
  match get_current_user request s with
  | Raise e => Raise e
  | Ok current_user => create_backup_endpoint current_user
  end.

(** *** [web/app.py]: the login *)

(** [User.username == username, User.role.in_([ADMIN, MODERATOR])] on one
    row. *)
Definition login_candidate (username' : string) (a : Account) : bool :=
  match username a with
  | Some u => String.eqb u username'
  | None => false
  end
  && role_in (role a) [UserRole.ADMIN; UserRole.MODERATOR].

(** [.first()]: the first matching row in table order, with its position. *)
Fixpoint first_account (f : Account → bool) (i : nat) (l : list Account)
    : option (nat * Account) :=
  match l with
  | [] => None
  | a :: l' => if f a then Some (i, a) else first_account f (S i) l'
  end.

Definition login_page (context : list (string * pyval)) : Response :=
  TemplateResponse "login.html" context.

Definition login (username' password : string) (totp_code : option string)
    (s : AuthState) : Response * AuthState :=
  match first_account (login_candidate username') 0 (accounts s) with
  | None => (login_page [("error"%string, PStr "Invalid credentials")], s)
  | Some (i, user) =>
      if negb (verify_password password (password_hash user))
      then (login_page [("error"%string, PStr "Invalid credentials")], s)
      else
        let second_factor : option Response :=
          if column_true (two_fa_enabled user) then
            if falsy_str totp_code then
              Some (login_page [("show_2fa"%string, PBool true);
                                ("username"%string, PStr username')])
            else if negb (verify_2fa_token (auth_clock_reads s) (two_fa_secret user)
                            (default EmptyString totp_code))
            then Some (login_page [("error"%string, PStr "Invalid 2FA code");
                                   ("show_2fa"%string, PBool true)])
            else None
          else None in
        match second_factor with
        | Some page => (page, s)
        | None =>
            let t := utcnow (auth_clock_reads s) in
            (* [db.commit()] *)
            let s1 :=
              {| accounts :=
                   alter (λ a, set_login_attempts (Some 0) (set_last_login (Some t) a))
                     i (accounts s);
                 auth_clock_reads := S (auth_clock_reads s) |} in
            match create_access_token
                    [("sub"%string, PStr (pretty (acc_id user)))] None s1 with
            | (Some token, s2) =>
                (RedirectResponse "/" 302
                   [ {| cookie_key := "access_token"; cookie_value := token;
                        httponly := true; secure := negb debug |} ],
                 s2)
            | (None, s2) => (login_page [("error"%string, PStr "Login failed")], s2)
            end
        end
  end.

End Auth.

(** No space in a string. *)
Fixpoint no_space (s : string) : bool :=
  match s with
  | EmptyString => true
  | String c s' => negb (Ascii.eqb c " ") && no_space s'
  end.

(** The columns that [login] has no business with. *)
Definition same_credentials (a a' : Account) : Prop :=
  acc_id a' = acc_id a ∧ username a' = username a ∧ role a' = role a
  ∧ is_active a' = is_active a ∧ password_hash a' = password_hash a
  ∧ two_fa_secret a' = two_fa_secret a ∧ two_fa_enabled a' = two_fa_enabled a
  ∧ locked_until a' = locked_until a.

(** The answer of the backup endpoint. *)
Definition backup_started : pyval * list BackgroundTask :=
  (PDict [("status"%string, PStr "Backup started")], [Task_create_backup]).

(** ** [bot/utils.py]: text *)

(** [s.replace(old, new)] for an [old] of one ASCII character. *)
Fixpoint replace_char (old : ascii) (new : string) (s : string) : string :=
  match s with
  | EmptyString => EmptyString
  | String c s' =>
      if Ascii.eqb c old then new +:+ replace_char old new s'
      else String c (replace_char old new s')
  end.

(** [escape_html]; a value that is not a string has no [replace], and the
    handler answers with its [str]. *)
Definition escape_html `{TX : Text} (text : pyval) : string :=
  match text with
  | PStr s =>
      replace_char "'" "&#x27;"
        (replace_char "034" "&quot;"
           (replace_char ">" "&gt;"
              (replace_char "<" "&lt;"
                 (replace_char "&" "&amp;" s))))
  | _ => py_str text
  end.

(** A byte of the UTF-8 form of a string that continues a character. *)
Definition is_continuation (c : ascii) : bool :=
  let n := nat_of_ascii c in Nat.leb 128 n && Nat.ltb n 192.

(** [len(s)]: the number of characters. *)
Fixpoint str_len (s : string) : nat :=
  match s with
  | EmptyString => 0
  | String c s' => if is_continuation c then str_len s' else S (str_len s')
  end.

(** The first [k] characters of [s]. *)
Fixpoint str_take (k : nat) (s : string) : string :=
  match s with
  | EmptyString => EmptyString
  | String c s' =>
      if is_continuation c then String c (str_take k s')
      else match k with
           | O => EmptyString
           | S k' => String c (str_take k' s')
           end
  end.

(** [s[:stop]]: a negative [stop] counts from the end. *)
Definition slice_to (s : string) (stop : Z) : string :=
  if Z.ltb stop 0 then str_take (Z.to_nat (Z.of_nat (str_len s) + stop)) s
  else str_take (Z.to_nat stop) s.

Definition truncate_text (text : string) (max_length : Z) : string :=
  if Z.leb (Z.of_nat (str_len text)) max_length then text
  else slice_to text (max_length - 3) +:+ "...".

(** [sep.join(parts)] *)
Fixpoint join (sep : string) (parts : list string) : string :=
  match parts with
  | [] => EmptyString
  | [p] => p
  | p :: ps => p +:+ sep +:+ join sep ps
  end.

(** [parse_callback_data]; nothing in its [try] raises on a string. *)
Definition parse_callback_data (callback_data : string) : pyval :=
  let parts := split_on "_" callback_data in
  if Nat.leb 2 (length parts) then
    PDict [ ("action"%string, PStr (default EmptyString (parts !! 0%nat)));
            ("type"%string, PStr (default EmptyString (parts !! 1%nat)));
            ("params"%string,
             if Nat.ltb 2 (length parts) then PList (map PStr (drop 2 parts))
             else PList []) ]
  else
    PDict [ ("action"%string, PStr callback_data);
            ("type"%string, PStr EmptyString);
            ("params"%string, PList []) ].

(** The characters that make markup in a Telegram HTML message. *)
Definition markup_char (c : ascii) : bool :=
  Ascii.eqb c "<" || Ascii.eqb c ">" || Ascii.eqb c "034" || Ascii.eqb c "'".

Fixpoint string_forall (f : ascii → bool) (s : string) : bool :=
  match s with
  | EmptyString => true
  | String c s' => f c && string_forall f s'
  end.

(** What the five replacements of [escape_html] make of one character
    (used to reason about [escape_html], which is defined above). *)
Definition escape_char (c : ascii) : string :=
  if Ascii.eqb c "&" then "&amp;"
  else if Ascii.eqb c "<" then "&lt;"
  else if Ascii.eqb c ">" then "&gt;"
  else if Ascii.eqb c "034" then "&quot;"
  else if Ascii.eqb c "'" then "&#x27;"
  else String c EmptyString.

(** ** [bot/utils.py]: discount and shipping *)

Definition float_mul (x y : float) : float := SFmul prec emax x y.
Definition float_div (x y : float) : float := SFdiv prec emax x y.

(** [0.0], and the truth value of a float. *)
Definition float_zero : float := S754_zero false.

Definition float_truthy (x : float) : bool :=
  match x with
  | S754_zero _ => false
  | _ => true
  end.

(** [min(a, b)] on two floats: [b] when [b < a], else [a]. *)
Definition float_min (a b : float) : float := if SFltb b a then b else a.

(** A [datetime]: an instant, and whether it knows its time zone (what a
    [DateTime(timezone=True)] column gives back depends on the database). *)
Record Stamp := {
  instant : Z;
  aware : bool;
}.

(** [a < b] on two datetimes; a naive and an aware one cannot be compared
    ([None] stands for the [TypeError]). *)
Definition datetime_lt (a b : Stamp) : option bool :=
  if Bool.eqb (aware a) (aware b) then Some (Z.ltb (instant a) (instant b)) else None.

Module DiscountCode.
Record t := {
  code : string;
  type : string;
  value : float;
  minimum_amount : option float;
  maximum_amount : option float;
  usage_limit : option Z;
  current_usage : option Z;
  is_active : option bool;
  valid_from : option Stamp;
  valid_until : option Stamp;
}.
End DiscountCode.

Section Discount.
Context `{RT : Runtime} `{TX : Text}.

(** [calculate_discount], on the table of discount codes and with the
    clock read [k] times so far.  In the body an exception is [None]; the
    handler answers every exception with [0.0]. *)
Definition calculate_discount (codes : list DiscountCode.t) (k : nat)
    (subtotal : float) (discount_code : string) : float :=
  let body : option float :=
    match find (λ d, String.eqb (DiscountCode.code d) (str_upper discount_code)
                     && column_true (DiscountCode.is_active d)) codes with
    | None => Some float_zero
    | Some discount =>
        let now := {| instant := utcnow k; aware := true |} in
        early ← match DiscountCode.valid_from discount with
                | Some vf => datetime_lt now vf
                | None => Some false
                end;
        if (early : bool) then Some float_zero else
        late ← match DiscountCode.valid_until discount with
               | Some vu => datetime_lt vu now
               | None => Some false
               end;
        if (late : bool) then Some float_zero else
        if match DiscountCode.minimum_amount discount with
           | Some m => float_truthy m && SFltb subtotal m
           | None => false
           end
        then Some float_zero else
        used_up ← match DiscountCode.usage_limit discount with
                  | Some limit =>
                      if Z.eqb limit 0 then Some false
                      else match DiscountCode.current_usage discount with
                           | Some used => Some (Z.leb limit used)
                           | None => None
                           end
                  | None => Some false
                  end;
        if (used_up : bool) then Some float_zero else
        if String.eqb (DiscountCode.type discount) "percentage" then
          let discount_amount :=
            float_mul subtotal (float_div (DiscountCode.value discount) (float_of_Z 100)) in
          let discount_amount :=
            match DiscountCode.maximum_amount discount with
            | Some m => if float_truthy m then float_min discount_amount m
                        else discount_amount
            | None => discount_amount
            end in
          Some (float_min discount_amount subtotal)
        else if String.eqb (DiscountCode.type discount) "fixed_amount" then
          let discount_amount := DiscountCode.value discount in
          let discount_amount :=
            match DiscountCode.maximum_amount discount with
            | Some m => if float_truthy m then float_min discount_amount m
                        else discount_amount
            | None => discount_amount
            end in
          Some (float_min discount_amount subtotal)
        else Some float_zero
    end in
  default float_zero body.

End Discount.

(** A number: an [int] (a [bool] counts as one) or a [float]. *)
Inductive number :=
| Int (n : Z)
| Float (x : float).

Definition as_number (v : pyval) : option number :=
  match v with
  | PInt n => Some (Int n)
  | PBool b => Some (Int (if b then 1 else 0))
  | PFloat x => Some (Float x)
  | _ => None
  end.

(** The float of an [int] in arithmetic with a float; [None] stands for the
    [OverflowError] of an [int] too large. *)
Definition float_of_int (n : Z) : option float :=
  match float_of_Z n with
  | S754_infinity _ => None
  | x => Some x
  end.

Definition num_mul (a b : number) : option number :=
  match a, b with
  | Int x, Int y => Some (Int (x * y))
  | Int x, Float y => x' ← float_of_int x; Some (Float (float_mul x' y))
  | Float x, Int y => y' ← float_of_int y; Some (Float (float_mul x y'))
  | Float x, Float y => Some (Float (float_mul x y))
  end.

Definition num_add (a b : number) : option number :=
  match a, b with
  | Int x, Int y => Some (Int (x + y))
  | Int x, Float y => x' ← float_of_int x; Some (Float (float_add x' y))
  | Float x, Int y => y' ← float_of_int y; Some (Float (float_add x y'))
  | Float x, Float y => Some (Float (float_add x y))
  end.

(** [a <= c] for one of the small integers the code compares with. *)
Definition num_le (a : number) (c : Z) : bool :=
  match a with
  | Int x => Z.leb x c
  | Float x => SFleb x (float_of_Z c)
  end.

(** [d[k]]; [None] stands for the [KeyError], or for the [TypeError] of a
    value that is not a dict. *)
Definition py_getitem (d : pyval) (k : string) : option pyval :=
  match d with
  | PDict l => assoc_get k l
  | _ => None
  end.

(** [item.get("weight", 0) * item["quantity"]].  A factor that is not a
    number is an exception here: the product is an exception already, or a
    repeated string or list, which cannot be added to the running sum. *)
Definition shipping_term (item : pyval) : option number :=
  match py_get item "weight" (PInt 0) with
  | Raise _ => None
  | Ok weight =>
      quantity ← py_getitem item "quantity";
      weight ← as_number weight;
      quantity ← as_number quantity;
      num_mul weight quantity
  end.

(** [sum(...)] from the running sum [acc] on. *)
Fixpoint sum_terms (acc : number) (items : list pyval) : option number :=
  match items with
  | [] => Some acc
  | item :: rest =>
      term ← shipping_term item;
      acc ← num_add acc term;
      sum_terms acc rest
  end.

Definition calculate_shipping (items : list pyval) : float :=
  match sum_terms (Int 0) items with
  | None => float_zero
  | Some total_weight =>
      if num_le total_weight 0 then float_zero
      else if num_le total_weight 1 then float_of_Z 5
      else if num_le total_weight 5 then float_of_Z 10
      else float_of_Z 15
  end.

(** ** [bot/utils.py] and [bot/bot.py]: translation, users and the cart *)

(** The dictionary of translations, as the source has it. *)
Definition TRANSLATIONS : list (string * list (string * string)) :=
  [ ("en",
    [ ("🛍️ Browse Products",
       "🛍️ Browse Products");
      ("🛒 My Cart",
       "🛒 My Cart");
      ("📦 My Orders",
       "📦 My Orders");
      ("👤 Profile",
       "👤 Profile");
      ("🎁 Referrals",
       "🎁 Referrals");
      ("🎯 Promotions",
       "🎯 Promotions");
      ("💡 Support",
       "💡 Support");
      ("🌐 Language",
       "🌐 Language");
      ("ℹ️ Help",
       "ℹ️ Help");
      ("« Back to Menu",
       "« Back to Menu");
      ("« Back to Category",
       "« Back to Category");
      ("➕ Add 1 to Cart",
       "➕ Add 1 to Cart");
      ("🛒 Add 3 to Cart",
       "🛒 Add 3 to Cart");
      ("🛒 Add 5 to Cart",
       "🛒 Add 5 to Cart");
      ("❌ Out of Stock",
       "❌ Out of Stock");
      ("📝 Reviews",
       "📝 Reviews");
      ("📤 Share",
       "📤 Share");
      ("💳 Checkout",
       "💳 Checkout");
      ("🗑️ Clear Cart",
       "🗑️ Clear Cart");
      ("📝 Edit Items",
       "📝 Edit Items");
      ("🛍️ Continue Shopping",
       "🛍️ Continue Shopping");
      ("₿ Bitcoin (BTC)",
       "₿ Bitcoin (BTC)");
      ("Ξ Ethereum (ETH)",
       "Ξ Ethereum (ETH)");
      ("₮ Tether (USDT)",
       "₮ Tether (USDT)");
      ("🔗 Chainlink (LINK)",
       "🔗 Chainlink (LINK)");
      ("🪙 More Cryptos",
       "🪙 More Cryptos");
      ("« Back to Cart",
       "« Back to Cart");
      ("🔄 Refresh Status",
       "🔄 Refresh Status");
      ("❓ Payment Help",
       "❓ Payment Help");
      ("📞 Contact Support",
       "📞 Contact Support");
      ("Check Payment Status",
       "Check Payment Status");
      ("More Cryptocurrencies",
       "More Cryptocurrencies");
      ("Welcome to our crypto shop! 🛍️

You can browse our products, make purchases with cryptocurrency, and track your orders all from this bot.

Use /menu to see available options or click the button below.",
       "Welcome to our crypto shop! 🛍️

You can browse our products, make purchases with cryptocurrency, and track your orders all from this bot.

Use /menu to see available options or click the button below.") ]);
    ("lt",
    [ ("🛍️ Browse Products",
       "🛍️ Naršyti produktus");
      ("🛒 My Cart",
       "🛒 Mano krepšelis");
      ("📦 My Orders",
       "📦 Mano užsakymai");
      ("👤 Profile",
       "👤 Profilis");
      ("🎁 Referrals",
       "🎁 Referalai");
      ("🎯 Promotions",
       "🎯 Akcijos");
      ("💡 Support",
       "💡 Pagalba");
      ("🌐 Language",
       "🌐 Kalba");
      ("ℹ️ Help",
       "ℹ️ Pagalba");
      ("« Back to Menu",
       "« Grįžti į meniu");
      ("« Back to Category",
       "« Grįžti į kategoriją");
      ("➕ Add 1 to Cart",
       "➕ Pridėti 1 į krepšelį");
      ("🛒 Add 3 to Cart",
       "🛒 Pridėti 3 į krepšelį");
      ("🛒 Add 5 to Cart",
       "🛒 Pridėti 5 į krepšelį");
      ("❌ Out of Stock",
       "❌ Išparduota");
      ("📝 Reviews",
       "📝 Atsiliepimai");
      ("📤 Share",
       "📤 Dalintis");
      ("💳 Checkout",
       "💳 Apmokėti");
      ("🗑️ Clear Cart",
       "🗑️ Išvalyti krepšelį");
      ("📝 Edit Items",
       "📝 Redaguoti prekes");
      ("🛍️ Continue Shopping",
       "🛍️ Tęsti apsipirkimą");
      ("₿ Bitcoin (BTC)",
       "₿ Bitcoin (BTC)");
      ("Ξ Ethereum (ETH)",
       "Ξ Ethereum (ETH)");
      ("₮ Tether (USDT)",
       "₮ Tether (USDT)");
      ("🔗 Chainlink (LINK)",
       "🔗 Chainlink (LINK)");
      ("🪙 More Cryptos",
       "🪙 Daugiau kriptovaliutų");
      ("« Back to Cart",
       "« Grįžti į krepšelį");
      ("🔄 Refresh Status",
       "🔄 Atnaujinti statusą");
      ("❓ Payment Help",
       "❓ Mokėjimo pagalba");
      ("📞 Contact Support",
       "📞 Susisiekti su pagalba");
      ("Check Payment Status",
       "Patikrinti mokėjimo statusą");
      ("More Cryptocurrencies",
       "Daugiau kriptovaliutų");
      ("Welcome to our crypto shop! 🛍️

You can browse our products, make purchases with cryptocurrency, and track your orders all from this bot.

Use /menu to see available options or click the button below.",
       "Sveiki atvykę į mūsų kriptovaliutų parduotuvę! 🛍️

Galite naršyti mūsų produktus, pirkti už kriptovaliutas ir sekti užsakymus šiame bote.

Naudokite /menu norėdami pamatyti galimas parinktis arba spustelėkite mygtuką žemiau.") ]) ]%string.

(** [translate_text]; the language of a user may be [None].  Nothing in its
    [try] raises. *)
Definition translate_text (text : string) (language : option string) : string :=
  match language with
  | Some l =>
      match assoc_get l TRANSLATIONS with
      | Some table =>
          match assoc_get text table with
          | Some translated => translated
          | None => text
          end
      | None => text
      end
  | None => text
  end.

(** The user as Telegram gives it with an update. *)
Module TelegramUser.
Record t := {
  id : Z;
  username : option string;
  first_name : string;
  last_name : option string;
  language_code : option string;
}.
End TelegramUser.

(** The columns of the table [users] that the bot reads and writes. *)
Module BotUser.
Record t := {
  telegram_id : string;
  username : option string;
  first_name : option string;
  last_name : option string;
  language : option string;
  referral_code : option string;
  role : option UserRole.t;
  is_active : option bool;
  updated_at : option Z;
}.
End BotUser.

(** A [User] object that has left its session: with its attributes loaded,
    or expired by a commit, in which case reading an attribute raises. *)
Inductive UserObject :=
| Loaded (row : BotUser.t)
| Expired.

Definition attr {A} (f : BotUser.t → A) (user : UserObject) : option A :=
  match user with
  | Loaded row => Some (f row)
  | Expired => None
  end.

(** What the bot sends: the answer to a callback query. *)
Inductive Message :=
| Answer (text : option string) (show_alert : bool).

(** A dict whose keys are integers and strings: an integer and a string
    are never the same key. *)
Definition key_eqb (a b : pyval) : bool :=
  match a, b with
  | PInt x, PInt y => Z.eqb x y
  | PStr x, PStr y => String.eqb x y
  | _, _ => false
  end.

Fixpoint dict_get {V} (k : pyval) (d : list (pyval * V)) : option V :=
  match d with
  | [] => None
  | (k', v) :: d' => if key_eqb k k' then Some v else dict_get k d'
  end.

Fixpoint dict_set {V} (k : pyval) (v : V) (d : list (pyval * V)) : list (pyval * V) :=
  match d with
  | [] => [(k, v)]
  | (k', v') :: d' => if key_eqb k k' then (k', v) :: d' else (k', v') :: dict_set k v d'
  end.

(** The state of the bot: the carts in memory ([user_carts]: for a key the
    quantity of each product id), the table [users], the clock, what was
    sent, and [elsewhere], which stands for whatever else the code that is
    not embedded here works on (the other tables). *)
Record Bot (T : Type) := {
  user_carts : list (pyval * list (pyval * Z));
  bot_users : list BotUser.t;
  bot_clock_reads : nat;
  sent : list Message;
  elsewhere : T;
}.
Arguments user_carts {T} _.
Arguments bot_users {T} _.
Arguments bot_clock_reads {T} _.
Arguments sent {T} _.
Arguments elsewhere {T} _.

(** What the bot takes from outside the repository: MD5, and the text of
    the [k]-th reading of [datetime.now().timestamp()]. *)
Class BotRuntime := {
  md5_hexdigest : string → string;
  timestamp_str : nat → string;
}.

Section BotModel.
Context `{RT : Runtime} `{TX : Text} `{BR : BotRuntime} {T : Type}.

(** Lines 503 to 560 of [start_checkout], which create the order and show
    the payment options, are not embedded: [create_order] stands for them,
    [None] being an exception. *)
Variable create_order :
  list (pyval * Z) → UserObject → Bot T → option unit * Bot T.

Definition send (m : Message) (b : Bot T) : Bot T :=
  {| user_carts := user_carts b; bot_users := bot_users b;
     bot_clock_reads := bot_clock_reads b; sent := sent b ++ [m];
     elsewhere := elsewhere b |}.

Definition generate_referral_code (telegram_id : Z) (k : nat) : string :=
  let data := pretty telegram_id +:+ "_" +:+ timestamp_str k in
  "REF" +:+ str_upper (str_take 8 (md5_hexdigest data)).

Fixpoint first_user (f : BotUser.t → bool) (i : nat) (l : list BotUser.t)
    : option (nat * BotUser.t) :=
  match l with
  | [] => None
  | r :: l' => if f r then Some (i, r) else first_user f (S i) l'
  end.

(** [get_or_create_user].  The store never fails, so the handler that rolls
    back and raises again has nothing to do.  [SessionLocal] expires its
    objects at a commit (the default of [sessionmaker]) and the session is
    closed before the user is returned: a user whose names are brought up
    to date is committed and so comes back expired; a user found unchanged
    was never committed, and a new user is refreshed after the commit, so
    these come back loaded. *)
Definition get_or_create_user (telegram_user : TelegramUser.t) (b : Bot T)
    : UserObject * Bot T :=
  let key := pretty (TelegramUser.id telegram_user) in
  match first_user (λ r, String.eqb (BotUser.telegram_id r) key) 0 (bot_users b) with
  | Some (i, user) =>
      let changed :=
        negb (bool_decide (BotUser.username user = TelegramUser.username telegram_user))
        || negb (bool_decide (BotUser.first_name user
                              = Some (TelegramUser.first_name telegram_user)))
        || negb (bool_decide (BotUser.last_name user
                              = TelegramUser.last_name telegram_user)) in
      if changed then
        let row :=
          {| BotUser.telegram_id := BotUser.telegram_id user;
             BotUser.username := TelegramUser.username telegram_user;
             BotUser.first_name := Some (TelegramUser.first_name telegram_user);
             BotUser.last_name := TelegramUser.last_name telegram_user;
             BotUser.language := BotUser.language user;
             BotUser.referral_code := BotUser.referral_code user;
             BotUser.role := BotUser.role user;
             BotUser.is_active := BotUser.is_active user;
             BotUser.updated_at := Some (utcnow (bot_clock_reads b)) |} in
        (Expired,
         {| user_carts := user_carts b; bot_users := <[i := row]> (bot_users b);
            bot_clock_reads := S (bot_clock_reads b); sent := sent b;
            elsewhere := elsewhere b |})
      else (Loaded user, b)
  | None =>
      let referral_code :=
        generate_referral_code (TelegramUser.id telegram_user) (bot_clock_reads b) in
      let row :=
        {| BotUser.telegram_id := key;
           BotUser.username := TelegramUser.username telegram_user;
           BotUser.first_name := Some (TelegramUser.first_name telegram_user);
           BotUser.last_name := TelegramUser.last_name telegram_user;
           BotUser.language :=
             Some (if falsy_str (TelegramUser.language_code telegram_user) then "en"%string
                   else default EmptyString (TelegramUser.language_code telegram_user));
           BotUser.referral_code := Some referral_code;
           BotUser.role := Some UserRole.CUSTOMER;
           BotUser.is_active := Some true;
           BotUser.updated_at := None |} in
      (Loaded row,
       {| user_carts := user_carts b; bot_users := bot_users b ++ [row];
          bot_clock_reads := S (bot_clock_reads b); sent := sent b;
          elsewhere := elsewhere b |})
  end.

(** [start_checkout]: its first lines, and the handler of its [try]. *)
Definition start_checkout (telegram_user : UserObject) (b : Bot T) : Bot T :=
  let failed := send (Answer (Some "Checkout failed. Please try again."%string) true) in
  match attr BotUser.telegram_id telegram_user with
  | None => failed b
  | Some key =>
      let cart := default [] (dict_get (PStr key) (user_carts b)) in
      match cart with
      | [] =>
          match attr BotUser.language telegram_user with
          | None => failed b
          | Some language =>
              send (Answer (Some (translate_text
                                    "Your cart is empty. Add some products first!"
                                    language)) true) b
          end
      | _ =>
          match create_order cart telegram_user b with
          | (Some _, b') => b'
          | (None, b') => failed b'
          end
      end
  end.

(** [handle_cart_action] for a callback query with data [data] from the
    Telegram user [user]. *)
Definition handle_cart_action (data : string) (user : TelegramUser.t) (b : Bot T)
    : Bot T :=
  let failed := send (Answer (Some "Sorry, an error occurred."%string) true) in
  let b := send (Answer None false) b in
  let action_data := split_on "_" data in
  match action_data !! 1%nat with
  | None => failed b
  | Some action =>
      let (telegram_user, b) := get_or_create_user user b in
      if String.eqb action "add" then
        match action_data !! 2%nat ≫= int_of_str with
        | None => failed b
        | Some product_id =>
            match (if Nat.ltb 3 (length action_data)
                   then action_data !! 3%nat ≫= int_of_str else Some 1) with
            | None => failed b
            | Some quantity =>
                let key := PInt (TelegramUser.id user) in
                let carts :=
                  match dict_get key (user_carts b) with
                  | Some _ => user_carts b
                  | None => dict_set key [] (user_carts b)
                  end in
                let cart := default [] (dict_get key carts) in
                let cart :=
                  dict_set (PInt product_id)
                    (default 0 (dict_get (PInt product_id) cart) + quantity) cart in
                let b :=
                  {| user_carts := dict_set key cart carts; bot_users := bot_users b;
                     bot_clock_reads := bot_clock_reads b; sent := sent b;
                     elsewhere := elsewhere b |} in
                match attr BotUser.language telegram_user with
                | None => failed b
                | Some language =>
                    send (Answer (Some (translate_text
                                          ("✅ Product added to cart! Quantity: "
                                           +:+ pretty quantity) language)) true) b
                end
            end
        end
      else if String.eqb action "checkout" then start_checkout telegram_user b
      else b
  end.

(** The bot handling one cart callback after the other. *)
Fixpoint handle_cart_actions (updates : list (string * TelegramUser.t)) (b : Bot T)
    : Bot T :=
  match updates with
  | [] => b
  | (data, user) :: rest => handle_cart_actions rest (handle_cart_action data user b)
  end.

End BotModel.

(** The keys of the carts are integers. *)
Definition int_keys {V} (d : list (pyval * V)) : Prop :=
  Forall (λ kv, ∃ n, fst kv = PInt n) d.

(** ** Sample data for the rest of the code *)

Module Samples.

(** Notifications for the payment of the scenario with a field the code
    cannot read. *)
Definition null_amount : pyval :=
  PDict [("payment_id"%string, PStr "np_123"); ("payment_status"%string, PStr "finished");
         ("actually_paid"%string, PNone)].

(** Formatting and parsing: nothing but ASCII text and integers is
    formatted below, and only the texts of 1 and 2 are read as integers. *)
Definition tx : Text := {|
  unicode_upper := λ s, s;
  unicode_lower := λ s, s;
  float_repr := λ _, "nan";
  container_str := λ _, "[]";
  int_of_str := λ s,
    if String.eqb s "1" then Some 1 else if String.eqb s "2" then Some 2 else None;
|}.

(** What the gateway answers to [create_payment]. *)
Definition payment_data : pyval :=
  PDict [("payment_id"%string, PStr "np_123"); ("pay_address"%string, PStr "bc1qexample");
         ("pay_amount"%string, PStr "0.0015"); ("pay_currency"%string, PStr "Btc")].

(** Authentication: one token, which stands for the user with id 1. *)
Definition ar : AuthRuntime := {|
  debug := false;
  access_token_expire_minutes := 30;
  jwt_encode := λ claims,
    match assoc_get "sub" claims with
    | Some (PStr sub) => if String.eqb sub "1" then Some "tok1"%string else None
    | _ => None
    end;
  jwt_decode := λ k token,
    if String.eqb token "tok1" then Some (PDict [("sub"%string, PStr "1")]) else None;
  pwd_verify := λ password hash,
    match hash with
    | Some h => Some (String.eqb ("hash-of-" +:+ password) h)
    | None => None
    end;
  totp_verify := λ k secret code, Some (String.eqb code "123456");
  cookie_parser := λ c,
    if String.eqb c "access_token=tok1" then [("access_token"%string, "tok1"%string)]
    else [];
|}.

Definition root : Account :=
  {| acc_id := 1; username := Some "root"%string; role := Some UserRole.ADMIN;
     is_active := Some true; password_hash := Some "hash-of-secret"%string;
     two_fa_secret := None; two_fa_enabled := Some false; last_login := None;
     login_attempts := Some 3; locked_until := None |}.

Definition customer : Account :=
  {| acc_id := 2; username := Some "carol"%string; role := Some UserRole.CUSTOMER;
     is_active := Some true; password_hash := None;
     two_fa_secret := None; two_fa_enabled := None; last_login := None;
     login_attempts := Some 0; locked_until := None |}.

Definition s0 : AuthState := {| accounts := [customer; root]; auth_clock_reads := 0 |}.

Definition with_cookie : Request :=
  {| headers := [("cookie"%string, "access_token=tok1"%string);
                 ("authorization"%string, "Bearer other"%string)];
     body := EmptyString |}.

Definition with_bearer : Request :=
  {| headers := [("authorization"%string, "Bearer tok1"%string)]; body := EmptyString |}.

(** A payment whose id at the gateway is a number, stored as its text, and
    the notification that gives the id as a JSON number. *)
Definition w_numeric : World :=
  Scenario.world_of
    (Scenario.db_with
       {| pay_order_id := Some 7; payment_id := Some "5077125051"%string;
          payment_status := PaymentStatus.WAITING; actually_paid := Scenario.zero;
          actually_paid_currency := PNone; txn_id := PNone; network := PNone;
          updated_at := None |}).

Definition numeric_id : pyval :=
  PDict [("payment_id"%string, PInt 5077125051);
         ("payment_status"%string, PStr "finished")].

(** An order whose second item names a product that is gone. *)
Definition w_gone : World :=
  Scenario.world_of
    {| payments := []; orders := <[7 := Scenario.order7]> ∅; users := ∅;
       order_items := [Scenario.item_of 7 1; Scenario.item_of 7 4; Scenario.item_of 7 1];
       products := <[1 := Scenario.ebook]> ∅; loyalty_transactions := [] |}.

(** An order of two e-books. *)
Definition w_ebooks : World :=
  Scenario.world_of
    {| payments := []; orders := <[7 := Scenario.order7]> ∅; users := ∅;
       order_items := [Scenario.item_of 7 1; Scenario.item_of 7 1];
       products := <[1 := Scenario.ebook]> ∅; loyalty_transactions := [] |}.

(** A code for ten times the order. *)
Definition generous : DiscountCode.t :=
  {| DiscountCode.code := "GENEROUS"; DiscountCode.type := "percentage";
     DiscountCode.value := float_of_Z 1000; DiscountCode.minimum_amount := None;
     DiscountCode.maximum_amount := None; DiscountCode.usage_limit := None;
     DiscountCode.current_usage := Some 0; DiscountCode.is_active := Some true;
     DiscountCode.valid_from := None; DiscountCode.valid_until := None |}.

(** Two items, the second without quantity. *)
Definition parcel : list pyval :=
  [PDict [("weight"%string, PInt 2); ("quantity"%string, PInt 1)];
   PDict [("weight"%string, PInt 3)]].

(** The bot before its first update, a Telegram user, and two ways for
    the rest of the checkout to go. *)
Definition br : BotRuntime := {|
  md5_hexdigest := λ _, "d41d8cd98f00b204e9800998ecf8427e"%string;
  timestamp_str := λ k, "1704067200." +:+ pretty k;
|}.

Definition bot0 : Bot unit :=
  {| user_carts := []; bot_users := []; bot_clock_reads := 0; sent := [];
     elsewhere := tt |}.

Definition carol : TelegramUser.t :=
  {| TelegramUser.id := 42; TelegramUser.username := Some "carol"%string;
     TelegramUser.first_name := "Carol"; TelegramUser.last_name := None;
     TelegramUser.language_code := Some "lt"%string |}.

Definition order_created (cart : list (pyval * Z)) (user : UserObject) (b : Bot unit)
    : option unit * Bot unit :=
  (Some tt, {| user_carts := []; bot_users := bot_users b;
               bot_clock_reads := bot_clock_reads b; sent := sent b;
               elsewhere := tt |}).

Definition order_failed (cart : list (pyval * Z)) (user : UserObject) (b : Bot unit)
    : option unit * Bot unit :=
  (None, b).

End Samples.

(** * Verification *)

Arguments py_get : simpl never.
Arguments py_float : simpl never.
Arguments map_payment_status : simpl never.
Arguments first_from : simpl never.
Arguments truthy : simpl never.
Arguments int_of_float : simpl never.
Arguments float_add : simpl never.
Arguments flush_accepted : simpl never.
Arguments text_accepted : simpl never.
Arguments integer_accepted : simpl never.
Arguments same_value : simpl never.
Arguments timedelta_days : simpl never.
Arguments datetime_add : simpl never.

(** Symbolic execution: unfold the monad and the session primitives, leave
    the handlers and the pure helpers folded. *)
Ltac run :=
  cbv [bind ret raise try_except try_finally lift get_world modify called load
       Session_open Session_commit Session_close
       get_payment update_payment get_order update_order get_user update_user
       get_item update_item payment_order order_user order_items_of
       item_product now uuid4 second_session_add_commit second_session_commit
       set_store set_session set_clock_reads set_uuid_draws set_calls
       store session clock_reads uuid_draws calls];
  cbn [payments orders users order_items products loyalty_transactions
       set_payments set_orders set_users set_order_items set_loyalty_transactions
       fmap option_fmap option_map negb orb andb].

(** Case analysis on the innermost test the execution is stuck on. *)
Ltac crunch :=
  repeat (run;
          match goal with
          | |- context [match ?x with _ => _ end] =>
              lazymatch x with
              | context [match _ with _ => _ end] => fail
              | _ => destruct x eqn:?
              end
          end).

(** Run, using the equations at hand for the tests met on the way. *)
Ltac exec :=
  run;
  repeat (match goal with
          | H : ?l = _ |- context [?l] => rewrite H
          end; simpl; run).

(** Split on the outcome of a step; a step that makes the application fail
    contradicts its success. *)
Ltac failing := simpl; run; try (intros ?; discriminate).

Section Verification.
Context `{RT : Runtime}.

(** ** Rows and lookups *)

Lemma list_alter_alter {A} (f g : A → A) (i : nat) (l : list A) :
  alter f i (alter g i l) = alter (λ x, f (g x)) i l.
Proof.
  revert i. induction l as [|x l IH]; intros [|i]; try done.
  simpl. f_equal. apply IH.
Qed.


Lemma map_alter_alter {A} (f g : A → A) (i : Z) (m : gmap Z A) :
  alter f i (alter g i m) = alter (λ x, f (g x)) i m.
Proof.
  apply map_eq. intros k. destruct (decide (k = i)) as [->|Hne].
  - rewrite !lookup_alter_eq. by destruct (m !! i).
  - by rewrite !lookup_alter_ne.
Qed.

Lemma alter_lookup_Some {A} (f : A → A) (i : Z) (m : gmap Z A) (x : A) :
  m !! i = Some x → alter f i m = <[i := f x]> m.
Proof.
  intros H. apply map_eq. intros k. destruct (decide (k = i)) as [->|Hne].
  - by rewrite lookup_alter_eq, lookup_insert_eq, H.
  - by rewrite lookup_alter_ne, lookup_insert_ne.
Qed.

Lemma first_from_None key i l :
  (∀ p, p ∈ l → payment_id_matches key p = false) → first_from key i l = None.
Proof.
  revert i. induction l as [|p l IH]; intros i H;
    unfold first_from; fold first_from; [done|].
  rewrite (H p) by left. apply IH. intros q Hq. apply H. by right.
Qed.

Lemma first_from_Some key j l i :
  first_from key j l = Some i →
  (j ≤ i)%nat ∧ ∃ p, l !! (i - j)%nat = Some p ∧ payment_id_matches key p = true.
Proof.
  revert j. induction l as [|q l IH]; intros j; unfold first_from; fold first_from.
  - discriminate.
  - destruct (payment_id_matches key q) eqn:Hq.
    + intros [= <-]. split; [lia|]. exists q. by rewrite Nat.sub_diag.
    + intros H. apply IH in H as (Hle & p & Hp & Hm). split; [lia|].
      exists p. split; [|done].
      replace (i - j)%nat with (S (i - S j)) by lia. done.
Qed.


Lemma written_alter new paid cur txid net t i (st : DB) :
  set_payments (alter (set_updated_at (Some t)) i)
    (set_payments (alter (set_network net) i)
       (set_payments (alter (set_txn_id txid) i)
          (set_payments (alter (set_actually_paid_currency cur) i)
             (set_payments (alter (set_actually_paid paid) i)
                (set_payments (alter (set_payment_status new) i) st)))))
  = set_payments (alter (written new paid cur txid net t) i) st.
Proof.
  unfold set_payments; simpl. f_equal.
  rewrite !list_alter_alter. reflexivity.
Qed.


Lemma paid_at_alter t order (d : DB) :
  set_orders (alter (set_order_updated_at (Some t)) order)
    (set_orders (alter (set_status OrderStatus.PAID) order)
       (set_orders (alter (set_order_payment_status PaymentStatus.FINISHED) order) d))
  = set_orders (alter (paid_at t) order) d.
Proof.
  unfold set_orders; simpl. f_equal.
  rewrite !map_alter_alter. reflexivity.
Qed.

Lemma trigger_false new (p : Payment) :
  ¬ (new = PaymentStatus.FINISHED ∧ payment_status p ≠ PaymentStatus.FINISHED) →
  bool_decide (new = PaymentStatus.FINISHED)
  && negb (bool_decide (payment_status p = PaymentStatus.FINISHED)) = false.
Proof.
  intros H. apply andb_false_iff.
  destruct (decide (new = PaymentStatus.FINISHED)) as [Hn|Hn].
  - right. apply negb_false_iff, bool_decide_eq_true.
    destruct (decide (payment_status p = PaymentStatus.FINISHED)); [done|]. tauto.
  - left. by apply bool_decide_eq_false.
Qed.

Lemma trigger_true new (p : Payment) :
  new = PaymentStatus.FINISHED → payment_status p ≠ PaymentStatus.FINISHED →
  bool_decide (new = PaymentStatus.FINISHED)
  && negb (bool_decide (payment_status p = PaymentStatus.FINISHED)) = true.
Proof.
  intros H1 H2. apply andb_true_iff. split.
  - by apply bool_decide_eq_true.
  - by apply negb_true_iff, bool_decide_eq_false.
Qed.

(** ** What the database takes *)

Lemma same_value_refl (v : pyval) : same_value v v = true.
Proof.
  revert v. fix IH 1. intros [|b|n|x|s|l|l|d]; cbn [same_value].
  - done.
  - by destruct b.
  - apply Z.eqb_refl.
  - by apply bool_decide_eq_true.
  - apply String.eqb_refl.
  - induction l as [|x l IHl]; [done|].
    change (same_value x x && same_value (PList l) (PList l) = true).
    by rewrite IH, IHl.
  - induction l as [|x l IHl]; [done|].
    change (same_value x x && same_value (PTuple l) (PTuple l) = true).
    by rewrite IH, IHl.
  - induction d as [|[k x] d IHd]; [done|].
    change (String.eqb k k && same_value x x && same_value (PDict d) (PDict d) = true).
    by rewrite String.eqb_refl, IH, IHd.
Qed.

Lemma text_accepted_refl (v : pyval) : text_accepted v v = true.
Proof. unfold text_accepted. by rewrite same_value_refl. Qed.

Lemma payment_accepted_refl (p : Payment) : payment_accepted p p = true.
Proof. unfold payment_accepted. by rewrite !text_accepted_refl. Qed.

Lemma user_accepted_refl (u : User) : user_accepted u u = true.
Proof. unfold user_accepted, integer_accepted. by rewrite !Z.eqb_refl. Qed.

Lemma payment_accepted_written p new paid cur txid net t :
  payment_accepted p (written new paid cur txid net t p) = accepts p cur txid net.
Proof. reflexivity. Qed.

Lemma forallb_zip_same {A} (g : A * A → bool) (l : list A) :
  (∀ y, g (y, y) = true) → forallb g (zip l l) = true.
Proof. intros Hg. induction l as [|y l IH]; [done|]. simpl. by rewrite Hg, IH. Qed.

Lemma forallb_zip_alter {A} (g : A * A → bool) (f : A → A) (i : nat) (l : list A) (x : A) :
  (∀ y, g (y, y) = true) → l !! i = Some x →
  forallb g (zip l (alter f i l)) = g (x, f x).
Proof.
  intros Hg. revert i. induction l as [|y l IH]; intros [|i] Hx; simplify_eq/=.
  - by rewrite forallb_zip_same, andb_true_r.
  - by rewrite Hg, (IH i).
Qed.

Lemma forallb_elem_of {A} (g : A → bool) (l : list A) :
  forallb g l = true ↔ ∀ x, x ∈ l → g x = true.
Proof.
  rewrite forallb_forall. split; intros H x Hx; apply H; by apply list_elem_of_In.
Qed.

(** The users of a view that holds the stored rows, but for the row of
    [u]. *)
Lemma users_accepted_insert (us : gmap Z User) (u : Z) (row row' : User) :
  us !! u = Some row →
  forallb (λ '(k, new), match us !! k with
                         | Some old => user_accepted old new
                         | None => true
                         end) (map_to_list (<[u := row']> us))
  = user_accepted row row'.
Proof.
  intros Hu. apply eq_true_iff_eq. rewrite forallb_elem_of. split.
  - intros H. specialize (H (u, row')). simpl in H. rewrite Hu in H. apply H.
    apply elem_of_map_to_list. by rewrite lookup_insert_eq.
  - intros H [k new] Hk. apply elem_of_map_to_list in Hk.
    destruct (decide (k = u)) as [->|Hne].
    + rewrite lookup_insert_eq in Hk. injection Hk as <-. by rewrite Hu.
    + rewrite lookup_insert_ne in Hk by done. rewrite Hk. apply user_accepted_refl.
Qed.

Lemma users_accepted_same (us : gmap Z User) :
  forallb (λ '(k, new), match us !! k with
                         | Some old => user_accepted old new
                         | None => true
                         end) (map_to_list us) = true.
Proof.
  apply forallb_elem_of. intros [k new] Hk. apply elem_of_map_to_list in Hk.
  rewrite Hk. apply user_accepted_refl.
Qed.

(** A view that has changed nothing but one payment row. *)
Lemma flush_accepted_payment (st se : DB) (f : Payment → Payment) (i : nat) (p : Payment) :
  payments st !! i = Some p →
  payments se = alter f i (payments st) → users se = users st →
  flush_accepted st se = payment_accepted p (f p).
Proof.
  intros Hp Hpay Hus. unfold flush_accepted. rewrite Hpay, Hus.
  rewrite (forallb_zip_alter _ f i _ p), users_accepted_same, ?andb_true_r; try done.
  intros y. apply payment_accepted_refl.
Qed.

(** A view that has changed nothing but one payment row and one user
    row. *)
Lemma flush_accepted_payment_user (st se : DB) (f : Payment → Payment) (i : nat)
    (p : Payment) (u : Z) (row row' : User) :
  payments st !! i = Some p → users st !! u = Some row →
  payments se = alter f i (payments st) → users se = <[u := row']> (users st) →
  flush_accepted st se = payment_accepted p (f p) && user_accepted row row'.
Proof.
  intros Hp Hu Hpay Hus. unfold flush_accepted. rewrite Hpay, Hus.
  rewrite (forallb_zip_alter _ f i _ p), (users_accepted_insert _ u row); try done.
  intros y. apply payment_accepted_refl.
Qed.

(** A view that has changed nothing is taken. *)
Lemma flush_accepted_same (st se : DB) :
  payments se = payments st → users se = users st → flush_accepted st se = true.
Proof.
  intros Hpay Hus. unfold flush_accepted. rewrite Hpay, Hus.
  rewrite forallb_zip_same, users_accepted_same; [done|].
  intros y. apply payment_accepted_refl.
Qed.

(** ** The loyalty award *)

(** [int] truncates and the specification takes the floor: the two differ
    only on negative amounts, where neither awards anything. *)
Lemma int_of_float_floor x q p :
  int_of_float x = Ok q → floor_amount x = Some p →
  (q ≤ 0 ↔ p ≤ 0) ∧ (0 < p → q = p).
Proof.
  destruct x as [s|s| |s m e]; unfold int_of_float, floor_amount; try discriminate.
  - intros [= <-] [= <-]. lia.
  - intros [= <-] [= <-]. destruct (Z.leb 0 e) eqn:He; [lia|].
    apply Z.leb_gt in He.
    assert (Hd : 0 < 2 ^ (- e)) by (apply Z.pow_pos_nonneg; lia).
    destruct s; unfold cond_Zopp.
    + assert (Z.quot (Z.opp (Z.pos m)) (2 ^ (- e)) ≤ 0).
      { rewrite Z.quot_opp_l by lia.
        pose proof (Z.quot_pos (Z.pos m) (2 ^ (- e))). lia. }
      assert (Z.opp (Z.pos m) / 2 ^ (- e) < 0).
      { apply Z.div_lt_upper_bound; lia. }
      lia.
    + rewrite Z.quot_div_nonneg by lia. lia.
Qed.

Lemma set_loyalty_transactions_nil (d : DB) :
  set_loyalty_transactions (λ l, l ++ []) d = d.
Proof. destruct d. unfold set_loyalty_transactions; simpl. by rewrite app_nil_r. Qed.

Lemma awarded_paid_at order t o u q :
  awarded order (paid_at t o) u q = awarded order o u q.
Proof. reflexivity. Qed.

Lemma award_of_paid_at order t o us :
  award_of order (paid_at t o) us = award_of order o us.
Proof. reflexivity. Qed.

(** What the award handler does for an order that exists: [award_of]
    tells. *)
Lemma award_loyalty_points_spec (order : Z) (w : World) (o : Order) :
  orders (session w) !! order = Some o →
  _award_loyalty_points order w =
    (Ok tt,
     match award_of order o (users (session w)) with
     | None => set_calls (λ l, l ++ [Called_award_loyalty_points order]) w
     | Some (u, row', rows) =>
         {| store := set_loyalty_transactions (λ l, l ++ rows) (store w);
            session :=
              set_loyalty_transactions (λ l, l ++ rows)
                (set_users <[u := row']> (session w));
            clock_reads := clock_reads w;
            uuid_draws := uuid_draws w;
            calls := calls w ++ [Called_award_loyalty_points order] |}
     end).
Proof.
  intros Ho. destruct w as [st se cr ud cl]; simpl in *.
  unfold _award_loyalty_points, award_of. run. rewrite Ho. simpl. run.
  destruct (int_of_float (total_amount o)) as [q|e] eqn:Hq; simpl; run; [|done].
  destruct (Z.leb q 0) eqn:Hle; simpl; run; [done|].
  rewrite Ho. simpl. run.
  destruct (user_id o) as [u|] eqn:Hu; simpl; run; [|done].
  destruct (users se !! u) as [row|] eqn:Hrow; simpl; run; [|done].
  repeat (progress (rewrite ?Ho, ?Hu, ?Hrow, ?lookup_alter_eq); simpl; run).
  assert (alter (set_total_orders (total_orders row + 1)) u
            (alter (set_total_spent (float_add (total_spent row) (total_amount o))) u
               (alter (set_loyalty_points (loyalty_points row + q)) u (users se)))
          = <[u := {| loyalty_points := loyalty_points row + q;
                      total_spent := float_add (total_spent row) (total_amount o);
                      total_orders := total_orders row + 1 |}]> (users se)) as Hus.
  { apply map_eq. intros k. destruct (decide (k = u)) as [->|Hne].
    - by rewrite !lookup_alter_eq, lookup_insert_eq, Hrow.
    - by rewrite !lookup_alter_ne, lookup_insert_ne. }
  cbn [points]. destruct (db_integer q); simpl; run.
  - unfold awarded, set_users; simpl. by rewrite Hus.
  - rewrite !set_loyalty_transactions_nil. unfold set_users; simpl. by rewrite Hus.
Qed.

(** The handler on an order whose [int(total)] is not positive: nothing but
    the call is recorded. *)
Lemma award_loyalty_points_skip (order : Z) (w : World) (o : Order) (q : Z) :
  orders (session w) !! order = Some o →
  int_of_float (total_amount o) = Ok q → q ≤ 0 →
  _award_loyalty_points order w
  = (Ok tt, set_calls (λ l, l ++ [Called_award_loyalty_points order]) w).
Proof.
  intros Ho Hq Hle. apply Z.leb_le in Hle.
  rewrite (award_loyalty_points_spec order w o Ho). unfold award_of.
  by rewrite Hq, Hle.
Qed.

(** The handler on an order whose [int(total)] is [q > 0] and whose owner
    exists: the counters of the owner move in the request session, and the
    ledger row is stored if the database takes [q]. *)
Lemma award_loyalty_points_earn (order : Z) (w : World) (o : Order) (u : Z)
    (row : User) (q : Z) :
  orders (session w) !! order = Some o →
  user_id o = Some u →
  users (session w) !! u = Some row →
  int_of_float (total_amount o) = Ok q → 0 < q →
  _award_loyalty_points order w
  = (Ok tt,
     let rows := if db_integer q then [awarded order o u q] else [] in
     {| store := set_loyalty_transactions (λ l, l ++ rows) (store w);
        session :=
          set_loyalty_transactions (λ l, l ++ rows)
            (set_users
               <[u := {| loyalty_points := loyalty_points row + q;
                         total_spent := float_add (total_spent row) (total_amount o);
                         total_orders := total_orders row + 1 |}]>
               (session w));
        clock_reads := clock_reads w;
        uuid_draws := uuid_draws w;
        calls := calls w ++ [Called_award_loyalty_points order] |}).
Proof.
  intros Ho Hu Hrow Hq Hpos. apply Z.leb_gt in Hpos.
  rewrite (award_loyalty_points_spec order w o Ho). unfold award_of.
  rewrite Hq, Hpos, Hu. simpl. by rewrite Hrow.
Qed.

(** C6, as amended.  The award handler on an order that exists returns
    normally.  It changes nothing when the total of the order is not a
    finite number, when the floor of the total is not positive, and when
    the order has no owner or the row of the owner is missing.  On an order
    whose total has a positive floor [p] and whose owner exists it adds [p]
    to the owner's points, the order total to the owner's spend and one to
    the owner's order count (in the request session, which the caller
    commits); and it appends exactly one ledger row carrying [p] points and
    the reference of the order (stored at once) if the database takes [p]
    for the points of the row; if it does not, the counters have moved and
    no ledger row is stored. *)
Theorem award_loyalty_points_floor (order : Z) (w : World) (o : Order) :
  orders (session w) !! order = Some o →
  ∃ w', _award_loyalty_points order w = (Ok tt, w')
    ∧ calls w' = calls w ++ [Called_award_loyalty_points order]
    ∧ clock_reads w' = clock_reads w ∧ uuid_draws w' = uuid_draws w
    ∧ (floor_amount (total_amount o) = None
       ∨ (∃ p, floor_amount (total_amount o) = Some p ∧ p ≤ 0)
       ∨ user_id o = None
       ∨ (∃ u, user_id o = Some u ∧ users (session w) !! u = None) →
       store w' = store w ∧ session w' = session w)
    ∧ (∀ p u row,
         floor_amount (total_amount o) = Some p → 0 < p →
         user_id o = Some u → users (session w) !! u = Some row →
         (db_integer p = true →
          session w' =
            set_loyalty_transactions (λ l, l ++ [awarded order o u p])
              (set_users
                 <[u := {| loyalty_points := loyalty_points row + p;
                           total_spent := float_add (total_spent row) (total_amount o);
                           total_orders := total_orders row + 1 |}]>
                 (session w))
          ∧ store w' =
              set_loyalty_transactions (λ l, l ++ [awarded order o u p]) (store w))
         ∧ (db_integer p = false →
            session w' =
              set_users
                <[u := {| loyalty_points := loyalty_points row + p;
                          total_spent := float_add (total_spent row) (total_amount o);
                          total_orders := total_orders row + 1 |}]>
                (session w)
            ∧ store w' = store w)).
Proof.
  intros Ho. eexists. split; [apply (award_loyalty_points_spec order w o Ho)|].
  assert (Hfin : ∀ e, int_of_float (total_amount o) = Raise e →
                      floor_amount (total_amount o) = None).
  { intros e. by destruct (total_amount o). }
  assert (Hnan : floor_amount (total_amount o) = None →
                 ∃ e, int_of_float (total_amount o) = Raise e).
  { destruct (total_amount o); try done; intros _; by eexists. }
  destruct (award_of order o (users (session w))) as [[[u0 row'] rows]|] eqn:Ha.
  - unfold award_of in Ha.
    destruct (int_of_float (total_amount o)) as [q|e] eqn:Hq; [|done].
    destruct (Z.leb q 0) eqn:Hle; [done|]. apply Z.leb_gt in Hle.
    destruct (user_id o) as [u1|] eqn:Hu; [|done]. simpl in Ha.
    destruct (users (session w) !! u1) as [row1|] eqn:Hrow; [|done]. simpl in Ha.
    injection Ha as <- <- <-. simpl.
    split; [done|]. split; [done|]. split; [done|]. split.
    + intros [Hn|[(p & Hp & Hp0)|[?|(u & ? & ?)]]].
      * by destruct (Hnan Hn).
      * destruct (int_of_float_floor _ _ _ Hq Hp). lia.
      * done.
      * simplify_eq.
    + intros p u row Hp Hpos Hu' Hrow'. simplify_eq.
      destruct (int_of_float_floor _ _ _ Hq Hp) as [_ Heq]. rewrite (Heq Hpos).
      split; intros Hdb; rewrite Hdb; [done|].
      by rewrite !set_loyalty_transactions_nil.
  - destruct w as [st se cr ud cl]; simpl in *.
    split; [done|]. split; [done|]. split; [done|]. split; [done|].
    intros p u row Hp Hpos Hu Hrow. exfalso.
    unfold award_of in Ha.
    destruct (int_of_float (total_amount o)) as [q|e] eqn:Hq.
    + destruct (int_of_float_floor _ _ _ Hq Hp) as [_ Heq]. rewrite (Heq Hpos) in Ha.
      rewrite (proj2 (Z.leb_gt p 0)) in Ha by lia.
      rewrite Hu in Ha. simpl in Ha. rewrite Hrow in Ha. done.
    + rewrite (Hfin e) in Hp; done.
Qed.

(** The award handler never raises, and touches nothing but the owner's row
    and the ledger. *)
Lemma award_loyalty_points_frame (order : Z) (w : World) :
  ∃ w', _award_loyalty_points order w = (Ok tt, w')
    ∧ calls w' = calls w ++ [Called_award_loyalty_points order]
    ∧ frame_award w w'.
Proof.
  destruct w as [st se cr ud cl]. unfold _award_loyalty_points, frame_award.
  crunch; eexists; (split; [reflexivity|]); simpl; done.
Qed.

(** ** The digital delivery *)

Lemma process_item_frame (j : nat) (w : World) :
  frame_delivery w (snd (process_item j w)).
Proof.
  destruct w as [st se cr ud cl]. unfold process_item.
  crunch; unfold frame_delivery; simpl; rewrite ?length_alter;
    repeat split; try done; lia.
Qed.

Lemma frame_delivery_refl w : frame_delivery w w.
Proof. unfold frame_delivery. repeat split; done. Qed.

Lemma frame_delivery_trans w1 w2 w3 :
  frame_delivery w1 w2 → frame_delivery w2 w3 → frame_delivery w1 w3.
Proof.
  unfold frame_delivery. intros (?&?&?&?&?&?&?&?&?) (?&?&?&?&?&?&?&?&?).
  repeat split; try congruence; lia.
Qed.

Lemma for_each_process_item_frame (l : list nat) (w : World) :
  frame_delivery w (snd (for_each l process_item w)).
Proof.
  revert w. induction l as [|j l IH]; intros w; simpl.
  - apply frame_delivery_refl.
  - unfold bind. pose proof (process_item_frame j w) as Hj.
    destruct (process_item j w) as [[[]|e] w1]; simpl in *; [|done].
    eapply frame_delivery_trans; [exact Hj|apply IH].
Qed.

(** The delivery handler never raises, and touches nothing but the line
    items of the request session. *)
Lemma process_digital_delivery_frame (order : Z) (w : World) :
  ∃ w', _process_digital_delivery order w = (Ok tt, w')
    ∧ frame_delivery
        (set_calls (λ l, l ++ [Called_process_digital_delivery order]) w) w'.
Proof.
  unfold _process_digital_delivery.
  set (w0 := set_calls _ w).
  assert (called (Called_process_digital_delivery order) w = (Ok tt, w0)) as Hc by done.
  unfold bind at 1. rewrite Hc. unfold try_except, bind at 1, order_items_of, bind at 1.
  cbn [get_world ret].
  pose proof (for_each_process_item_frame
                (items_from order 0 (order_items (session w0))) w0) as Hf.
  unfold bind.
  destruct (for_each _ process_item w0) as [[[]|e] w1]; simpl in *; eauto.
Qed.

(** An expiry that [datetime] can hold is the time plus the days. *)
Lemma expiry_date_Ok (t : Z) (product : Product) (e : Z) :
  expiry_date t product = Ok e →
  e = t + 86400 * or_default (download_expiry_days product) 30
  ∧ timedelta_days (or_default (download_expiry_days product) 30)
    = Ok (86400 * or_default (download_expiry_days product) 30)
  ∧ datetime_add t (86400 * or_default (download_expiry_days product) 30) = Ok e.
Proof.
  unfold expiry_date. intros H.
  destruct (timedelta_days _) as [delta|] eqn:Htd; [|done].
  assert (delta = 86400 * or_default (download_expiry_days product) 30) as ->.
  { unfold timedelta_days in Htd. destruct (_ && _); congruence. }
  split; [|done]. unfold datetime_add in H. destruct (_ && _); congruence.
Qed.

Lemma expiry_date_Raise (t : Z) (product : Product) (e : Exn) :
  expiry_date t product = Raise e → e = OverflowError.
Proof.
  unfold expiry_date, timedelta_days, datetime_add.
  destruct (_ && _); [|by intros [= <-]]. destruct (_ && _); [done|by intros [= <-]].
Qed.

Lemma expiry_date_in_range (t : Z) (product : Product) :
  -999999999 ≤ or_default (download_expiry_days product) 30 ≤ 999999999 →
  datetime_min ≤ t + 86400 * or_default (download_expiry_days product) 30 ≤ datetime_max →
  expiry_date t product = Ok (t + 86400 * or_default (download_expiry_days product) 30).
Proof.
  intros Hd Ht. unfold expiry_date, timedelta_days, datetime_add.
  rewrite (proj2 (Z.leb_le _ _)), (proj2 (Z.leb_le _ _)) by lia. cbn [andb].
  by rewrite (proj2 (Z.leb_le _ _)), (proj2 (Z.leb_le _ _)) by lia.
Qed.

Lemma expiry_date_beyond (t : Z) (product : Product) :
  datetime_max < t + 86400 * or_default (download_expiry_days product) 30 →
  expiry_date t product = Raise OverflowError.
Proof.
  intros Ht. unfold expiry_date, timedelta_days, datetime_add.
  destruct (_ && _); [|done].
  rewrite (proj2 (Z.leb_gt _ datetime_max)) by lia. by rewrite andb_false_r.
Qed.

Lemma process_item_digital j w it product e :
  order_items (session w) !! j = Some it →
  product_of (session w) it = Some product →
  product_type product = ProductType.DIGITAL →
  expiry_date (utcnow (clock_reads w)) product = Ok e →
  process_item j w =
    (Ok tt,
     {| store := store w;
        session :=
          set_order_items
            (alter (delivered (utcnow (clock_reads w)) (uuid4_hex (uuid_draws w)) product) j)
            (session w);
        clock_reads := S (clock_reads w);
        uuid_draws := if has_file product then S (uuid_draws w) else uuid_draws w;
        calls := calls w |}).
Proof.
  intros Hit Hprod Hd (-> & Htd & Hadd)%expiry_date_Ok.
  destruct w as [st se cr ud cl]; simpl in *.
  unfold product_of in Hprod. unfold process_item, has_file, delivered.
  assert (bool_decide (product_type product = ProductType.DIGITAL) = true) as Hb
    by by apply bool_decide_eq_true.
  destruct (product_id it) as [pid|] eqn:Hpid; [|done].
  destruct (digital_file_url product) as [u|] eqn:Hu.
  - destruct (negb (String.eqb u EmptyString)) eqn:Hne; exec;
      unfold set_order_items; simpl; by rewrite list_alter_alter.
  - exec. unfold set_order_items; simpl. by rewrite list_alter_alter.
Qed.

(** A digital item whose expiry [datetime] cannot hold: the clock has been
    read, and the loop is left. *)
Lemma process_item_overflow j w it product e :
  order_items (session w) !! j = Some it →
  product_of (session w) it = Some product →
  product_type product = ProductType.DIGITAL →
  expiry_date (utcnow (clock_reads w)) product = Raise e →
  process_item j w = (Raise OverflowError, set_clock_reads S w).
Proof.
  intros Hit Hprod Hd He. destruct w as [st se cr ud cl]; simpl in *.
  unfold product_of in Hprod. unfold process_item.
  assert (bool_decide (product_type product = ProductType.DIGITAL) = true) as Hb
    by by apply bool_decide_eq_true.
  destruct (product_id it) as [pid|] eqn:Hpid; [|done].
  unfold expiry_date in He.
  destruct (timedelta_days _) as [delta|e'] eqn:Htd.
  - destruct (datetime_add (utcnow cr) delta) as [?|e''] eqn:Hadd; [done|].
    assert (e'' = OverflowError) as ->.
    { unfold datetime_add in Hadd. destruct (_ && _); congruence. }
    by exec.
  - assert (e' = OverflowError) as ->.
    { unfold timedelta_days in Htd. destruct (_ && _); congruence. }
    by exec.
Qed.

Lemma process_item_physical j w it product :
  order_items (session w) !! j = Some it →
  product_of (session w) it = Some product →
  product_type product ≠ ProductType.DIGITAL →
  process_item j w = (Ok tt, w).
Proof.
  intros Hit Hprod Hd. destruct w as [st se cr ud cl]; simpl in *.
  unfold product_of in Hprod. unfold process_item.
  assert (bool_decide (product_type product = ProductType.DIGITAL) = false) as Hb
    by by apply bool_decide_eq_false.
  destruct (product_id it) as [pid|] eqn:Hpid; [|done].
  by exec.
Qed.

Lemma elem_of_items_from order j0 l j :
  j ∈ items_from order j0 l ↔
  (j0 ≤ j)%nat ∧ ∃ it, l !! (j - j0)%nat = Some it ∧ item_order_id it = Some order.
Proof.
  revert j0. induction l as [|x l IH]; intros j0; simpl.
  - split; [by intros ?%elem_of_nil|]. by intros (_ & it & ? & _).
  - assert (Hrest : j ∈ items_from order (S j0) l ↔
              (j0 < j)%nat ∧ ∃ it, (x :: l) !! (j - j0)%nat = Some it
                                   ∧ item_order_id it = Some order).
    { rewrite IH. split.
      - intros (Hle & it & Hit & Ho). split; [lia|]. exists it. split; [|done].
        replace (j - j0)%nat with (S (j - S j0)) by lia. done.
      - intros (Hlt & it & Hit & Ho). split; [lia|]. exists it. split; [|done].
        replace (j - j0)%nat with (S (j - S j0)) in Hit by lia. done. }
    destruct (decide (item_order_id x = Some order)) as [Hx|Hx].
    + rewrite elem_of_cons, Hrest. split.
      * intros [->|(Hlt & it & Hit & Ho)].
        -- split; [lia|]. exists x. by rewrite Nat.sub_diag.
        -- split; [lia|]. eauto.
      * intros (Hle & it & Hit & Ho).
        destruct (decide (j = j0)) as [->|Hne]; [by left|].
        right. split; [lia|]. eauto.
    + rewrite Hrest. split.
      * intros (Hlt & it & Hit & Ho). split; [lia|]. eauto.
      * intros (Hle & it & Hit & Ho).
        destruct (decide (j = j0)) as [->|Hne].
        -- rewrite Nat.sub_diag in Hit. simpl in Hit. congruence.
        -- split; [lia|]. eauto.
Qed.

Lemma NoDup_items_from order j0 l : NoDup (items_from order j0 l).
Proof.
  revert j0. induction l as [|x l IH]; intros j0; simpl; [constructor|].
  destruct (decide (item_order_id x = Some order)); [|done].
  constructor; [|done]. rewrite elem_of_items_from. lia.
Qed.

(** The loop, on line items that all have a product and, when it is
    digital, an expiry that [datetime] can hold at the time the item is
    reached: by induction on the items still to visit.  An item already
    visited is not visited again, and an item not yet visited is as it
    was. *)
Lemma for_each_process_item_spec (idxs : list nat) (w : World) :
  NoDup idxs →
  (∀ j, j ∈ idxs → ∃ it product,
      order_items (session w) !! j = Some it
      ∧ product_of (session w) it = Some product
      ∧ (product_type product = ProductType.DIGITAL →
         ∀ k, (clock_reads w ≤ k < clock_reads w + length idxs)%nat →
              ∃ e, expiry_date (utcnow k) product = Ok e)) →
  ∃ w', for_each idxs process_item w = (Ok tt, w')
    ∧ frame_delivery w w'
    ∧ (clock_reads w' ≤ clock_reads w + length idxs)%nat
    ∧ ∀ j it, order_items (session w) !! j = Some it →
        (j ∉ idxs → order_items (session w') !! j = Some it)
        ∧ (j ∈ idxs → ∀ product, product_of (session w) it = Some product →
             item_outcome w w' j it product).
Proof.
  revert w. induction idxs as [|j0 rest IH]; intros w Hnd Hall.
  - exists w. split; [done|]. split; [apply frame_delivery_refl|]. split; [simpl; lia|].
    intros j it Hit. split; [done|]. by intros ?%elem_of_nil.
  - apply NoDup_cons in Hnd as [Hj0 Hnd].
    destruct (Hall j0) as (it0 & prod0 & Hit0 & Hprod0 & Hexp0); [by left|].
    pose proof (process_item_frame j0 w) as Hfr.
    assert (∃ w1, process_item j0 w = (Ok tt, w1)
              ∧ products (session w1) = products (session w)
              ∧ (∀ j, j ≠ j0 → order_items (session w1) !! j = order_items (session w) !! j)
              ∧ (if bool_decide (product_type prod0 = ProductType.DIGITAL) then
                   order_items (session w1) !! j0
                   = Some (delivered (utcnow (clock_reads w)) (uuid4_hex (uuid_draws w))
                             prod0 it0)
                   ∧ clock_reads w1 = S (clock_reads w)
                 else w1 = w)) as (w1 & Hrun & Hprods & Hother & Hj0').
    { destruct (decide (product_type prod0 = ProductType.DIGITAL)) as [Hd|Hd].
      - destruct (Hexp0 Hd (clock_reads w)) as [e He]; [simpl; lia|].
        eexists. split; [by eapply process_item_digital|]. simpl.
        split; [done|]. split.
        + intros j Hne. by rewrite list_lookup_alter_ne.
        + rewrite bool_decide_eq_true_2 by done.
          by rewrite list_lookup_alter_eq, Hit0.
      - exists w. split; [by eapply process_item_physical|].
        split; [done|]. split; [done|]. by rewrite bool_decide_eq_false_2. }
    rewrite Hrun in Hfr. simpl in Hfr.
    assert (Hclk1 : (clock_reads w ≤ clock_reads w1 ≤ S (clock_reads w))%nat).
    { destruct (bool_decide (product_type prod0 = ProductType.DIGITAL)).
      - destruct Hj0' as [_ ->]. lia.
      - subst w1. lia. }
    destruct (IH w1 Hnd) as (w' & Hloop & Hfr' & Hclk' & Hspec).
    { intros j Hj. destruct (Hall j) as (it & product & Hit & Hprod & Hexp); [by right|].
      exists it, product. rewrite Hother by (intros ->; done). split; [done|].
      split; [unfold product_of in *; by rewrite Hprods|].
      intros Hd k Hk. apply (Hexp Hd). simpl. lia. }
    exists w'. split; [simpl; unfold bind; by rewrite Hrun|].
    split; [by eapply frame_delivery_trans|]. split; [simpl; lia|].
    assert (Hclk : (clock_reads w ≤ clock_reads w1 ≤ clock_reads w')%nat).
    { destruct Hfr as (_&_&_&_&_&_&_&_&?), Hfr' as (_&_&_&_&_&_&_&_&?). lia. }
    intros j it Hit. split.
    + intros Hnot. apply not_elem_of_cons in Hnot as [Hne Hnot].
      apply Hspec; [|done]. by rewrite Hother.
    + intros Hin product Hprod. apply elem_of_cons in Hin as [->|Hin].
      * assert (it = it0) as -> by congruence.
        assert (product = prod0) as -> by congruence.
        unfold item_outcome.
        destruct (bool_decide (product_type prod0 = ProductType.DIGITAL)) eqn:Hb.
        -- destruct Hj0' as [Hj0' Hc]. exists (clock_reads w), (uuid_draws w).
           split; [lia|]. by apply Hspec.
        -- subst w1. by apply Hspec.
      * assert (j ≠ j0) as Hne by (intros ->; done).
        destruct (Hspec j it) as [_ Hin']; [by rewrite Hother|].
        specialize (Hin' Hin product).
        unfold product_of in *. rewrite Hprods in Hin'. specialize (Hin' Hprod).
        unfold item_outcome in *.
        destruct (bool_decide (product_type product = ProductType.DIGITAL)); [|done].
        destruct Hin' as (k & n & Hk & Hres). exists k, n. split; [lia|done].
Qed.

Lemma length_items_from order j l : (length (items_from order j l) ≤ length l)%nat.
Proof.
  revert j. induction l as [|x l IH]; intros j; simpl; [done|].
  destruct (decide _); simpl; specialize (IH (S j)); lia.
Qed.

(** C7, as amended.  On an order all of whose line items have a product,
    and whose digital products have an expiry that [datetime] can hold
    (the configured days, or 30, after any of the readings of the clock
    the handler can make), the delivery handler gives every line item of a
    digital product the expiry: time of processing plus the configured
    days (30 when none or 0 is configured); and a list of links that holds
    one token, with that expiry and the configured limit (5 when none or 0
    is configured), when the product has a file, and no token when it has
    none; it leaves the line items of physical products, and those of
    other orders, as they were.  The changes are made in the request
    session. *)
Theorem process_digital_delivery_items (order : Z) (w : World) :
  (∀ j it, order_items (session w) !! j = Some it →
           item_order_id it = Some order → is_Some (product_of (session w) it)) →
  (∀ j it product k,
      order_items (session w) !! j = Some it → item_order_id it = Some order →
      product_of (session w) it = Some product →
      product_type product = ProductType.DIGITAL →
      (clock_reads w ≤ k < clock_reads w + length (order_items (session w)))%nat →
      ∃ e, expiry_date (utcnow k) product = Ok e) →
  ∃ w', _process_digital_delivery order w = (Ok tt, w')
    ∧ store w' = store w
    ∧ calls w' = calls w ++ [Called_process_digital_delivery order]
    ∧ ∀ j it, order_items (session w) !! j = Some it →
        (item_order_id it ≠ Some order → order_items (session w') !! j = Some it)
        ∧ (item_order_id it = Some order →
           ∀ product, product_of (session w) it = Some product →
             item_outcome w w' j it product).
Proof.
  intros Hall Hrange. unfold _process_digital_delivery.
  set (w0 := set_calls (λ l, l ++ [Called_process_digital_delivery order]) w).
  assert (called (Called_process_digital_delivery order) w = (Ok tt, w0)) as Hc by done.
  assert (Hin : ∀ j, j ∈ items_from order 0 (order_items (session w0)) ↔
                 ∃ it, order_items (session w) !! j = Some it
                       ∧ item_order_id it = Some order).
  { intros j. rewrite elem_of_items_from, Nat.sub_0_r. destruct w; simpl.
    split; [by intros [_ H]|]. intros H. split; [lia|done]. }
  destruct (for_each_process_item_spec
              (items_from order 0 (order_items (session w0))) w0)
    as (w' & Hloop & Hfr & _ & Hspec).
  { apply NoDup_items_from. }
  { intros j (it & Hit & Ho)%Hin. destruct (Hall j it Hit Ho) as [product Hp].
    exists it, product. split; [by destruct w|]. split; [by destruct w|].
    intros Hd k Hk. apply (Hrange j it product k Hit Ho Hp Hd).
    pose proof (length_items_from order 0 (order_items (session w0))).
    destruct w; simpl in *. lia. }
  exists w'. split.
  { unfold bind at 1. rewrite Hc. unfold try_except, bind at 1, order_items_of, bind at 1.
    cbn [get_world ret]. unfold bind. rewrite Hloop. done. }
  destruct Hfr as (Hst & _ & _ & _ & _ & _ & _ & Hcalls & _).
  split; [by destruct w|]. split; [by destruct w|].
  intros j it Hit. destruct (Hspec j it) as [Hout Hinn]; [by destruct w|]. split.
  - intros Hne. apply Hout. rewrite Hin. intros (it' & Hit' & Ho'). congruence.
  - intros Ho product Hp.
    assert (item_outcome w0 w' j it product) as Hres.
    { apply Hinn; [apply Hin; eauto|by destruct w]. }
    unfold item_outcome in *. by destruct w.
Qed.

(** ** The paths through [process_ipn_callback] *)

(** [process_ipn_callback] never raises. *)
Lemma process_ipn_callback_returns (ipn_data : pyval) (w : World) :
  ∃ b w', process_ipn_callback ipn_data w = (Ok b, w').
Proof.
  unfold process_ipn_callback, bind at 1, called, modify, try_except.
  match goal with |- context [match ?m with _ => _ end] => destruct m as [[b|e] w'] end;
    eauto.
Qed.

(** The lookup of the payment: the statement raises only for a key the
    database refuses, which matches no row. *)
Lemma query_payment_first_cases (key : pyval) (w : World) :
  query_payment_first key w = (Ok (first_from key 0 (payments (session w))), w)
  ∨ (query_payment_first key w = (Raise DatabaseError, w)
     ∧ ∀ j l, first_from key j l = None).
Proof.
  unfold query_payment_first.
  destruct key; [by left|..];
    match goal with |- context [db_text ?k] => destruct (db_text k) as [tx|] eqn:Hx end;
    [by left| |by left| |by left| |by left| |by left| |by left| |by left|].
  all: right; (split; [done|]); intros j ps; revert j;
    induction ps as [|p ps IH]; intros j; [done|];
    unfold first_from; fold first_from; unfold payment_id_matches;
    rewrite Hx; apply IH.
Qed.

Lemma query_payment_first_found (key : pyval) (i : nat) (w : World) :
  first_from key 0 (payments (session w)) = Some i →
  query_payment_first key w = (Ok (Some i), w).
Proof.
  intros Hi. destruct (query_payment_first_cases key w) as [->|[_ Hnone]].
  - by rewrite Hi.
  - by rewrite Hnone in Hi.
Qed.

(** A notification that does not trigger Fulfillment reaches its commit
    with the payment row rewritten. *)
Lemma process_ipn_callback_plain ipn_data w key new paid cur txid net i p :
  reads ipn_data key new paid cur txid net →
  first_from key 0 (payments (store w)) = Some i →
  payments (store w) !! i = Some p →
  ¬ (new = PaymentStatus.FINISHED ∧ payment_status p ≠ PaymentStatus.FINISHED) →
  process_ipn_callback ipn_data w =
    commit_and_close
      (before_commit i (written new paid cur txid net (utcnow (clock_reads w))) w).
Proof.
  intros (Hk & Htk & (stv & Hs & Hts & Hm) & (v & Hv & Hf) & Hc & (oc & Ho & Htx & Hn))
    Hi Hp Hnt.
  destruct w as [st se cr ud cl]; simpl in *. unfold process_ipn_callback.
  pose proof (trigger_false _ _ Hnt) as Ht.
  run. rewrite Hk, Hs. simpl. run. rewrite Htk, Hts. simpl. run.
  rewrite (query_payment_first_found key i) by done.
  exec. rewrite written_alter.
  unfold commit_and_close, before_commit, committed, Session_close; simpl.
  by destruct (flush_accepted _ _).
Qed.

(** A notification that triggers Fulfillment, for a payment whose order
    exists, reaches its commit after the handlers. *)
Lemma process_ipn_callback_trigger ipn_data w key new paid cur txid net i p order o :
  reads ipn_data key new paid cur txid net →
  first_from key 0 (payments (store w)) = Some i →
  payments (store w) !! i = Some p →
  new = PaymentStatus.FINISHED → payment_status p ≠ PaymentStatus.FINISHED →
  pay_order_id p = Some order → orders (store w) !! order = Some o →
  process_ipn_callback ipn_data w =
    commit_and_close
      (fulfill order
         (before_fulfillment i (written new paid cur txid net (utcnow (clock_reads w)))
            order w)).
Proof.
  intros (Hk & Htk & (stv & Hs & Hts & Hm) & (v & Hv & Hf) & Hc & (oc & Ho & Htx & Hn))
    Hi Hp Hnew Hold Hord Hrow.
  pose proof (trigger_true _ _ Hnew Hold) as Ht.
  destruct w as [st se cr ud cl]; simpl in *. unfold process_ipn_callback.
  run. rewrite Hk, Hs. simpl. run. rewrite Htk, Hts. simpl. run.
  rewrite (query_payment_first_found key i) by done.
  run.
  repeat (progress (rewrite ?Hk, ?Hs, ?Htk, ?Hts, ?Hi, ?Hp, ?Hm, ?Hv, ?Hf, ?Hc, ?Ho,
                      ?Htx, ?Hn, ?Ht, ?list_lookup_alter_eq, ?Hord, ?Hrow); simpl; run).
  rewrite written_alter, paid_at_alter.
  unfold fulfill, before_fulfillment; simpl.
  destruct (award_loyalty_points_frame order
    {| store := st;
       session := set_orders (alter (paid_at (utcnow (S cr))) order)
           (set_payments (alter (written new paid cur txid net (utcnow cr)) i) st);
       clock_reads := S (S cr); uuid_draws := ud;
       calls := cl ++ [Called_process_ipn_callback] |}) as (wa & Ha & _).
  rewrite Ha. simpl. destruct wa as [sta sea cra uda cla]. run.
  destruct (items_from order 0 (order_items sea)) as [|j js].
  - unfold commit_and_close, committed, Session_close; simpl.
    by destruct (flush_accepted _ _).
  - destruct (process_digital_delivery_frame order
                {| store := sta; session := sea; clock_reads := cra;
                   uuid_draws := uda; calls := cla |}) as (wd & Hd & _).
    rewrite Hd. simpl. destruct wd.
    unfold commit_and_close, committed, Session_close; simpl.
    by destruct (flush_accepted _ _).
Qed.

(** So a notification that can be read and names a stored payment gets as
    far as its commit. *)
Lemma process_ipn_callback_applies ipn_data w key new paid cur txid net i p :
  applies_to ipn_data (store w) key new paid cur txid net i p →
  process_ipn_callback ipn_data w = commit_and_close (commit_world new paid cur txid net i p w).
Proof.
  intros (Hreads & Hi & Hp & Hord). unfold commit_world.
  destruct (decide (new = PaymentStatus.FINISHED
                    ∧ payment_status p ≠ PaymentStatus.FINISHED)) as [[Hnew Hold]|Hnt].
  - rewrite bool_decide_eq_true_2 by done.
    destruct (Hord Hnew Hold) as (order & o & Hpo & Hrow). rewrite Hpo.
    by apply (process_ipn_callback_trigger _ _ key _ _ _ _ _ _ p _ o).
  - rewrite bool_decide_eq_false_2 by done.
    by apply (process_ipn_callback_plain _ _ key _ _ _ _ _ _ p).
Qed.

Lemma applies_to_unique ipn_data d key new paid cur txid net i p
    key' new' paid' cur' txid' net' i' p' :
  applies_to ipn_data d key new paid cur txid net i p →
  applies_to ipn_data d key' new' paid' cur' txid' net' i' p' →
  key' = key ∧ new' = new ∧ paid' = paid ∧ cur' = cur ∧ txid' = txid ∧ net' = net
  ∧ i' = i ∧ p' = p.
Proof.
  intros ((Hk & _ & (st & Hs & _ & Hm) & (v & Hv & Hf) & Hc & (oc & Ho & Htx & Hn))
          & Hi & Hp & _)
         ((Hk' & _ & (st' & Hs' & _ & Hm') & (v' & Hv' & Hf') & Hc' & (oc' & Ho' & Htx' & Hn'))
          & Hi' & Hp' & _).
  assert (key' = key) as -> by congruence.
  assert (st' = st) as -> by congruence.
  assert (v' = v) as -> by congruence.
  assert (oc' = oc) as -> by congruence.
  assert (i' = i) as -> by congruence.
  repeat split; congruence.
Qed.

(** An application that stops before its commit: the premise that would
    bring it there fails, and the stored rows are as they were. *)
Ltac refuse :=
  right; split;
  [ intros ???????? ((Hk' & Htk' & (st' & Hs' & Hts' & Hm') & (v' & Hv' & Hf') & Hc'
                     & (oc' & Ho' & Htx' & Hn')) & Hi' & Hp' & Hord'); simpl in *;
    repeat match goal with
           | H : ?l = _, H' : ?l = _ |- _ => rewrite H in H'; simplify_eq
           end;
    try congruence
  | eexists; split; [reflexivity|done] ].

(** Every application either gets as far as its commit, or is refused
    before: then nothing is stored and no handler is reached. *)
Lemma process_ipn_callback_cases (ipn_data : pyval) (w : World) :
  (∃ key new paid cur txid net i p,
      applies_to ipn_data (store w) key new paid cur txid net i p)
  ∨ ((∀ key new paid cur txid net i p,
        ¬ applies_to ipn_data (store w) key new paid cur txid net i p)
     ∧ ∃ w1, process_ipn_callback ipn_data w = (Ok false, w1)
         ∧ store w1 = store w
         ∧ calls w1 = calls w ++ [Called_process_ipn_callback]).
Proof.
  destruct w as [st se cr ud cl]; simpl. unfold process_ipn_callback. run.
  destruct (py_get ipn_data "payment_id" PNone) as [key|] eqn:Hk; simpl; run; [|refuse].
  destruct (py_get ipn_data "payment_status" PNone) as [stv|] eqn:Hs; simpl; run; [|refuse].
  destruct (truthy key) eqn:Htk; simpl; run; [|refuse].
  destruct (truthy stv) eqn:Hts; simpl; run; [|refuse].
  destruct (query_payment_first_cases key
              {| store := st; session := st; clock_reads := cr; uuid_draws := ud;
                 calls := cl ++ [Called_process_ipn_callback] |}) as [Hq|[Hq Hnone]];
    rewrite Hq; simpl; run.
  2:{ refuse; by rewrite Hnone in Hi'. }
  destruct (first_from key 0 (payments st)) as [i|] eqn:Hi; simpl; run; [|refuse].
  destruct (payments st !! i) as [p|] eqn:Hp; simpl; run; [|refuse].
  destruct (map_payment_status stv) as [new|] eqn:Hm; simpl; run; [|refuse].
  destruct (py_get ipn_data "actually_paid" (PInt 0)) as [v|] eqn:Hv; simpl; run; [|refuse].
  destruct (py_float v) as [paid|] eqn:Hf; simpl; run; [|refuse].
  destruct (py_get ipn_data "actually_paid_currency" PNone) as [cur|] eqn:Hc; simpl; run;
    [|refuse].
  destruct (py_get ipn_data "outcome" (PDict [])) as [oc|] eqn:Ho; simpl; run; [|refuse].
  destruct (py_get oc "txid" PNone) as [txid|] eqn:Htx; simpl; run; [|refuse].
  destruct (py_get oc "network" PNone) as [net|] eqn:Hn; simpl; run; [|refuse].
  assert (reads ipn_data key new paid cur txid net) as Hreads.
  { unfold reads. repeat split; eauto 10. }
  destruct (decide (new = PaymentStatus.FINISHED
                    ∧ payment_status p ≠ PaymentStatus.FINISHED)) as [[Hnew Hold]|Hnt].
  - rewrite (trigger_true _ _ Hnew Hold). run.
    repeat (progress (rewrite ?list_lookup_alter_eq, ?Hp); simpl; run).
    destruct (pay_order_id p) as [order|] eqn:Hord; simpl; run.
    2:{ refuse; destruct Hord' as (? & ? & ? & ?); [done..|]; congruence. }
    destruct (orders st !! order) as [o|] eqn:Hrow; simpl; run.
    2:{ refuse; destruct Hord' as (? & ? & ? & ?); [done..|]; congruence. }
    left. exists key, new, paid, cur, txid, net, i, p. unfold applies_to. eauto 10.
  - left. exists key, new, paid, cur, txid, net, i, p. unfold applies_to.
    split; [done|]. split; [done|]. split; [done|]. intros H1 H2. tauto.
Qed.

Lemma items_from_ext order j l l' :
  l' = l → items_from order j l' = items_from order j l.
Proof. by intros ->. Qed.

(** What the two handlers leave behind, for an order that exists. *)
Lemma fulfill_spec (order : Z) (wb : World) (o : Order) :
  orders (session wb) !! order = Some o →
  store (fulfill order wb)
  = set_loyalty_transactions (λ l, l ++ award_rows order o (users (session wb))) (store wb)
  ∧ payments (session (fulfill order wb)) = payments (session wb)
  ∧ orders (session (fulfill order wb)) = orders (session wb)
  ∧ products (session (fulfill order wb)) = products (session wb)
  ∧ users (session (fulfill order wb)) = award_users order o (users (session wb))
  ∧ loyalty_transactions (session (fulfill order wb))
    = loyalty_transactions (session wb) ++ award_rows order o (users (session wb))
  ∧ calls (fulfill order wb) = calls wb ++ fulfillment_calls order (session wb).
Proof.
  intros Ho. unfold fulfill, fulfillment_calls, award_rows, award_users.
  rewrite (award_loyalty_points_spec order wb o Ho).
  set (wa := match award_of order o (users (session wb)) with
             | Some _ => _ | None => _ end).
  assert (Hwa : store wa
                = set_loyalty_transactions
                    (λ l, l ++ match award_of order o (users (session wb)) with
                               | Some (_, _, rows) => rows | None => [] end) (store wb)
              ∧ payments (session wa) = payments (session wb)
              ∧ orders (session wa) = orders (session wb)
              ∧ products (session wa) = products (session wb)
              ∧ order_items (session wa) = order_items (session wb)
              ∧ users (session wa)
                = match award_of order o (users (session wb)) with
                  | Some (u, row', _) => <[u := row']> (users (session wb))
                  | None => users (session wb) end
              ∧ loyalty_transactions (session wa)
                = loyalty_transactions (session wb)
                  ++ match award_of order o (users (session wb)) with
                     | Some (_, _, rows) => rows | None => [] end
              ∧ calls wa = calls wb ++ [Called_award_loyalty_points order]).
  { subst wa. destruct (award_of order o (users (session wb))) as [[[u row'] rows]|];
      destruct wb as [st se cr ud cl]; simpl;
      rewrite ?set_loyalty_transactions_nil, ?app_nil_r; done. }
  destruct Hwa as (Hst & Hpay & Hor & Hpr & Hit & Hus & Hled & Hcalls).
  cbn [snd]. rewrite Hit.
  destruct (items_from order 0 (order_items (session wb))) as [|j js].
  - rewrite Hcalls. done.
  - destruct (process_digital_delivery_frame order wa)
      as (wd & Hd & (Hst' & Hp' & Ho' & Hus' & Hpr' & Hled' & _ & Hc' & _)).
    rewrite Hd. cbn [snd]. destruct wa; simpl in *.
    rewrite Hst', Hp', Ho', Hus', Hpr', Hled', Hc', Hcalls, <- app_assoc. done.
Qed.

(** The world at the commit, in terms of the stored rows. *)
Lemma commit_world_spec ipn_data w key new paid cur txid net i p :
  applies_to ipn_data (store w) key new paid cur txid net i p →
  let wc := commit_world new paid cur txid net i p w in
  store wc = set_loyalty_transactions (λ l, l ++ commit_rows (store w) new p) (store w)
  ∧ payments (session wc)
    = alter (written new paid cur txid net (utcnow (clock_reads w))) i (payments (store w))
  ∧ products (session wc) = products (store w)
  ∧ loyalty_transactions (session wc)
    = loyalty_transactions (store w) ++ commit_rows (store w) new p
  ∧ flush_accepted (store wc) (session wc) = commit_accepted (store w) new cur txid net p
  ∧ (new = PaymentStatus.FINISHED ∧ payment_status p ≠ PaymentStatus.FINISHED →
     ∃ order o, pay_order_id p = Some order ∧ orders (store w) !! order = Some o
       ∧ orders (session wc)
         = alter (paid_at (utcnow (S (clock_reads w)))) order (orders (store w))
       ∧ users (session wc) = award_users order o (users (store w))
       ∧ calls wc = calls w ++ Called_process_ipn_callback
                                :: fulfillment_calls order (store w))
  ∧ (¬ (new = PaymentStatus.FINISHED ∧ payment_status p ≠ PaymentStatus.FINISHED) →
     wc = before_commit i (written new paid cur txid net (utcnow (clock_reads w))) w).
Proof.
  intros (Hreads & Hi & Hp & Hord). unfold commit_world, commit_rows, commit_accepted.
  destruct (decide (new = PaymentStatus.FINISHED
                    ∧ payment_status p ≠ PaymentStatus.FINISHED)) as [[Hnew Hold]|Hnt].
  - rewrite !bool_decide_eq_true_2 by done.
    destruct (Hord Hnew Hold) as (order & o & Hpo & Hrow). rewrite Hpo, Hrow.
    set (f := written new paid cur txid net (utcnow (clock_reads w))).
    set (t := utcnow (S (clock_reads w))).
    set (wb := before_fulfillment i f order w).
    assert (Hob : orders (session wb) !! order = Some (paid_at t o)).
    { subst wb. simpl. by rewrite lookup_alter_eq, Hrow. }
    destruct (fulfill_spec order wb (paid_at t o) Hob)
      as (Hst & Hpay & Hor & Hpr & Hus & Hled & Hcalls).
    assert (Hwb : store wb = store w ∧ payments (session wb) = alter f i (payments (store w))
                  ∧ orders (session wb) = alter (paid_at t) order (orders (store w))
                  ∧ users (session wb) = users (store w)
                  ∧ products (session wb) = products (store w)
                  ∧ order_items (session wb) = order_items (store w)
                  ∧ loyalty_transactions (session wb) = loyalty_transactions (store w)
                  ∧ calls wb = calls w ++ [Called_process_ipn_callback]) by done.
    destruct Hwb as (Hb1 & Hb2 & Hb3 & Hb4 & Hb5 & Hb6 & Hb7 & Hb8).
    cbn zeta. rewrite Hst, Hpay, Hpr, Hled, Hb1, Hb2, Hb4, Hb5, Hb7.
    unfold award_rows. rewrite award_of_paid_at. fold (award_rows order o (users (store w))).
    split; [done|]. split; [done|]. split; [done|]. split; [done|]. split.
    + unfold award_accepted, award_users in *. rewrite award_of_paid_at, Hb4 in Hus.
      destruct (award_of order o (users (store w))) as [[[u row'] rows]|] eqn:Haw.
      * assert (∃ row, users (store w) !! u = Some row) as [row Hrowu].
        { unfold award_of in Haw. destruct (int_of_float _); [|done].
          destruct (Z.leb _ 0); [done|]. destruct (user_id o) as [u'|]; [|done].
          simpl in Haw. destruct (users (store w) !! u') eqn:E; [|done].
          simpl in Haw. simplify_eq. eauto. }
        rewrite Hrowu.
        by rewrite (flush_accepted_payment_user _ _ f i p u row row').
      * rewrite andb_true_r.
        by rewrite (flush_accepted_payment _ _ f i p).
    + split; [|intros Hnt; exfalso; by apply Hnt].
      intros _. exists order, o. rewrite Hor, Hus, Hcalls, Hb3, Hb4, Hb8, <- app_assoc.
      unfold award_users. rewrite award_of_paid_at.
      unfold fulfillment_calls. rewrite Hb6. done.
  - rewrite !bool_decide_eq_false_2 by done. cbn zeta. simpl.
    rewrite set_loyalty_transactions_nil, app_nil_r, andb_true_r.
    split; [done|]. split; [done|]. split; [done|]. split; [done|]. split.
    + by rewrite (flush_accepted_payment _ _
                    (written new paid cur txid net (utcnow (clock_reads w))) i p).
    + split; [intros Ht; exfalso; by apply Hnt|done].
Qed.

(** A notification that succeeds was well formed and named a stored
    payment; if it triggered Fulfillment, the order of the payment exists. *)
Lemma process_ipn_callback_true_inv ipn_data w w1 :
  process_ipn_callback ipn_data w = (Ok true, w1) →
  ∃ key new paid cur txid net i p,
    reads ipn_data key new paid cur txid net
    ∧ first_from key 0 (payments (store w)) = Some i
    ∧ payments (store w) !! i = Some p
    ∧ (new = PaymentStatus.FINISHED → payment_status p ≠ PaymentStatus.FINISHED →
       ∃ order o, pay_order_id p = Some order ∧ orders (store w) !! order = Some o).
Proof.
  intros Hrun.
  destruct (process_ipn_callback_cases ipn_data w)
    as [(key & new & paid & cur & txid & net & i & p & H)|[_ (w' & H' & _)]].
  - exists key, new, paid, cur, txid, net, i, p. exact H.
  - congruence.
Qed.

(** The outcome of an application that gets as far as its commit. *)
Lemma process_ipn_callback_commit ipn_data w key new paid cur txid net i p :
  applies_to ipn_data (store w) key new paid cur txid net i p →
  process_ipn_callback ipn_data w
  = if commit_accepted (store w) new cur txid net p
    then (Ok true, committed (commit_world new paid cur txid net i p w))
    else (Ok false, Session_close (commit_world new paid cur txid net i p w)).
Proof.
  intros H. rewrite (process_ipn_callback_applies _ _ _ _ _ _ _ _ _ _ H).
  destruct (commit_world_spec _ _ _ _ _ _ _ _ _ _ H) as (_ & _ & _ & _ & Hfl & _).
  unfold commit_and_close. by rewrite Hfl.
Qed.

Lemma applies_to_intro ipn_data w w1 key new paid cur txid net i p :
  process_ipn_callback ipn_data w = (Ok true, w1) →
  reads ipn_data key new paid cur txid net →
  first_from key 0 (payments (store w)) = Some i →
  payments (store w) !! i = Some p →
  applies_to ipn_data (store w) key new paid cur txid net i p.
Proof.
  intros Hrun Hreads Hi Hp.
  destruct (process_ipn_callback_true_inv _ _ _ Hrun)
    as (key' & new' & paid' & cur' & txid' & net' & i' & p' & Hreads' & Hi' & Hp' & Hord).
  assert (key' = key ∧ new' = new) as [-> ->].
  { destruct Hreads as (Hk & _ & (st & Hs & _ & Hm) & _),
             Hreads' as (Hk' & _ & (st' & Hs' & _ & Hm') & _).
    split; congruence. }
  assert (i' = i) as -> by congruence. assert (p' = p) as -> by congruence.
  done.
Qed.

(** What a successful application has stored and called. *)
Lemma process_ipn_callback_true ipn_data w w1 key new paid cur txid net i p :
  process_ipn_callback ipn_data w = (Ok true, w1) →
  reads ipn_data key new paid cur txid net →
  first_from key 0 (payments (store w)) = Some i →
  payments (store w) !! i = Some p →
  payments (store w1)
    = alter (written new paid cur txid net (utcnow (clock_reads w))) i (payments (store w))
  ∧ products (store w1) = products (store w)
  ∧ session w1 = store w1
  ∧ commit_accepted (store w) new cur txid net p = true
  ∧ loyalty_transactions (store w1)
    = loyalty_transactions (store w) ++ commit_rows (store w) new p
  ∧ (new = PaymentStatus.FINISHED ∧ payment_status p ≠ PaymentStatus.FINISHED →
     ∃ order o, pay_order_id p = Some order ∧ orders (store w) !! order = Some o
       ∧ orders (store w1)
         = alter (paid_at (utcnow (S (clock_reads w)))) order (orders (store w))
       ∧ users (store w1) = award_users order o (users (store w))
       ∧ calls w1 = calls w ++ Called_process_ipn_callback
                                :: fulfillment_calls order (store w))
  ∧ (¬ (new = PaymentStatus.FINISHED ∧ payment_status p ≠ PaymentStatus.FINISHED) →
     w1 = applied_plain i (written new paid cur txid net (utcnow (clock_reads w))) w).
Proof.
  intros Hrun Hreads Hi Hp.
  pose proof (applies_to_intro _ _ _ _ _ _ _ _ _ _ _ Hrun Hreads Hi Hp) as Happ.
  rewrite (process_ipn_callback_commit _ _ _ _ _ _ _ _ _ _ Happ) in Hrun.
  destruct (commit_accepted (store w) new cur txid net p); [|done].
  injection Hrun as <-.
  destruct (commit_world_spec _ _ _ _ _ _ _ _ _ _ Happ)
    as (Hst & Hpay & Hpr & Hled & _ & Htrig & Hplain).
  cbn zeta in *. unfold committed; simpl.
  repeat split; try done.
  intros Hnt. by rewrite (Hplain Hnt).
Qed.

(** An application that is refused leaves the stored payments, orders,
    users, line items and products as they were.  Either it has stopped
    before any handler, or it has got as far as its commit, which the
    database has refused: then the ledger rows of the award, committed on
    their own, are stored. *)
Lemma process_ipn_callback_false ipn_data w w1 :
  process_ipn_callback ipn_data w = (Ok false, w1) →
  (store w1 = store w ∧ calls w1 = calls w ++ [Called_process_ipn_callback]
   ∧ ∀ key new paid cur txid net i p,
       ¬ applies_to ipn_data (store w) key new paid cur txid net i p)
  ∨ (∃ key new paid cur txid net i p,
        applies_to ipn_data (store w) key new paid cur txid net i p
        ∧ commit_accepted (store w) new cur txid net p = false
        ∧ w1 = Session_close (commit_world new paid cur txid net i p w)
        ∧ store w1
          = set_loyalty_transactions (λ l, l ++ commit_rows (store w) new p) (store w)).
Proof.
  intros Hrun.
  destruct (process_ipn_callback_cases ipn_data w)
    as [(key & new & paid & cur & txid & net & i & p & H)|[Hno (w' & H' & Hst & Hc)]].
  - right. exists key, new, paid, cur, txid, net, i, p. split; [done|].
    rewrite (process_ipn_callback_commit _ _ _ _ _ _ _ _ _ _ H) in Hrun.
    destruct (commit_accepted (store w) new cur txid net p); [done|].
    injection Hrun as <-. split; [done|]. split; [done|].
    by destruct (commit_world_spec _ _ _ _ _ _ _ _ _ _ H) as (Hst & _).
  - left. rewrite H' in Hrun. injection Hrun as <-. done.
Qed.

Lemma process_ipn_callback_false_frame ipn_data w w1 :
  process_ipn_callback ipn_data w = (Ok false, w1) →
  payments (store w1) = payments (store w)
  ∧ orders (store w1) = orders (store w)
  ∧ users (store w1) = users (store w)
  ∧ order_items (store w1) = order_items (store w)
  ∧ products (store w1) = products (store w).
Proof.
  intros [(-> & _)|(key & new & paid & cur & txid & net & i & p & _ & _ & _ & ->)]
    %process_ipn_callback_false; done.
Qed.

(** A notification that would trigger Fulfillment for a payment whose order
    row does not exist is refused. *)
Lemma process_ipn_callback_trigger_without_order ipn_data w key new paid cur txid net
    i p :
  reads ipn_data key new paid cur txid net →
  first_from key 0 (payments (store w)) = Some i →
  payments (store w) !! i = Some p →
  new = PaymentStatus.FINISHED → payment_status p ≠ PaymentStatus.FINISHED →
  (∀ order, pay_order_id p = Some order → orders (store w) !! order = None) →
  ∃ w1, process_ipn_callback ipn_data w = (Ok false, w1) ∧ store w1 = store w.
Proof.
  intros Hreads Hi Hp Hnew Hold Hnone.
  destruct (process_ipn_callback_cases ipn_data w)
    as [(key' & new' & paid' & cur' & txid' & net' & i' & p' & Hreads' & Hi' & Hp' & Hord)
       |[_ (w1 & H1 & Hst & _)]]; [exfalso|eauto].
  assert (key' = key ∧ new' = new) as [-> ->].
  { destruct Hreads as (Hk & _ & (st & Hs & _ & Hm) & _),
             Hreads' as (Hk' & _ & (st' & Hs' & _ & Hm') & _).
    split; congruence. }
  assert (i' = i) as -> by congruence. assert (p' = p) as -> by congruence.
  destruct (Hord Hnew Hold) as (order & o & Hpo & Hrow).
  rewrite (Hnone order Hpo) in Hrow. discriminate.
Qed.

Lemma fulfillment_runs_app l l' :
  fulfillment_runs (l ++ l') = (fulfillment_runs l + fulfillment_runs l')%nat.
Proof.
  induction l as [|c l IH]; [done|]. destruct c; simpl; rewrite IH; done.
Qed.

Lemma fulfillment_runs_calls order d :
  fulfillment_runs (Called_process_ipn_callback :: fulfillment_calls order d) = 1%nat.
Proof. unfold fulfillment_calls. by destruct (items_from _ _ _). Qed.

Lemma length_award_rows order o us : (length (award_rows order o us) ≤ 1)%nat.
Proof.
  unfold award_rows, award_of. destruct (int_of_float _); [|simpl; lia].
  destruct (Z.leb _ 0); [simpl; lia|]. destruct (user_id o) as [u|]; [|simpl; lia].
  simpl. destruct (us !! u); [|simpl; lia]. simpl. destruct (db_integer _); simpl; lia.
Qed.

(** End to end: a notification that triggers Fulfillment for an order whose
    total has floor [pts > 0] and whose owner exists, and that is applied,
    stores the owner's new counters and, if the database takes [pts] for
    the points of a ledger row, exactly one more ledger row. *)
Lemma process_ipn_callback_awards ipn_data w w1 key new paid cur txid net i p
    order o u row pts :
  process_ipn_callback ipn_data w = (Ok true, w1) →
  reads ipn_data key new paid cur txid net →
  first_from key 0 (payments (store w)) = Some i →
  payments (store w) !! i = Some p →
  new = PaymentStatus.FINISHED → payment_status p ≠ PaymentStatus.FINISHED →
  pay_order_id p = Some order → orders (store w) !! order = Some o →
  user_id o = Some u → users (store w) !! u = Some row →
  floor_amount (total_amount o) = Some pts → 0 < pts →
  users (store w1)
    = <[u := {| loyalty_points := loyalty_points row + pts;
                total_spent := float_add (total_spent row) (total_amount o);
                total_orders := total_orders row + 1 |}]> (users (store w))
  ∧ loyalty_transactions (store w1)
    = loyalty_transactions (store w)
      ++ if db_integer pts then [awarded order o u pts] else [].
Proof.
  intros Hrun Hreads Hi Hp Hnew Hold Hpo Hrow Hu Huser Hfloor Hpos.
  destruct (process_ipn_callback_true _ _ _ _ _ _ _ _ _ _ _ Hrun Hreads Hi Hp)
    as (_ & _ & _ & _ & Hled & Htrig & _).
  destruct (Htrig (conj Hnew Hold)) as (order' & o' & Hpo' & Hrow' & _ & Hus & _).
  assert (order' = order) as -> by congruence. assert (o' = o) as -> by congruence.
  destruct (int_of_float (total_amount o)) as [q|e] eqn:Hq.
  2:{ destruct (total_amount o); discriminate. }
  destruct (int_of_float_floor _ _ _ Hq Hfloor) as [_ Heq].
  assert (q = pts) as -> by auto.
  assert (award_of order o (users (store w))
          = Some (u, {| loyalty_points := loyalty_points row + pts;
                        total_spent := float_add (total_spent row) (total_amount o);
                        total_orders := total_orders row + 1 |},
                  if db_integer pts then [awarded order o u pts] else [])) as Haw.
  { unfold award_of. rewrite Hq. apply Z.leb_gt in Hpos. rewrite Hpos, Hu. simpl.
    by rewrite Huser. }
  rewrite Hus, Hled. unfold award_users, commit_rows, award_rows.
  rewrite bool_decide_eq_true_2 by done. by rewrite Hpo, Hrow, Haw.
Qed.

(** ** What [process_ipn_callback] guarantees *)

(** C8.  A notification whose payment id matches the external identifier
    of no stored payment is refused: [process_ipn_callback] returns
    [False], no row of any table changes and no handler is called.  The
    match is the one the database makes: a key that is not a string is
    compared as the text the database makes of it. *)
Theorem process_ipn_callback_unknown_payment (ipn_data : pyval) (w : World) :
  (∀ key p, py_get ipn_data "payment_id" PNone = Ok key →
            p ∈ payments (store w) → payment_id_matches key p = false) →
  ∃ w', process_ipn_callback ipn_data w = (Ok false, w')
        ∧ store w' = store w
        ∧ calls w' = calls w ++ [Called_process_ipn_callback].
Proof.
  intros H.
  destruct (process_ipn_callback_cases ipn_data w)
    as [(key & new & paid & cur & txid & net & i & p & Hreads & Hi & Hp & _)|[_ Hw]];
    [exfalso|done].
  apply first_from_Some in Hi as (_ & q & Hq & Hm).
  rewrite (H key q) in Hm; [done|by destruct Hreads|by eapply list_elem_of_lookup_2].
Qed.

(** C1, as amended.  For a notification that is applied to a stored payment,
    with [new] the status it maps to and [p] the payment row before: if
    [new] is FINISHED and the stored status was not, the order of the
    payment gets status PAID and payment status FINISHED, the loyalty-award
    handler is called, and the digital-delivery handler is called when the
    order has at least one line item; for every other pair of statuses no
    order, user, line item or ledger row changes and no handler is
    called. *)
Theorem process_ipn_callback_fulfillment_trigger ipn_data w w1 key new paid cur txid net i p :
  process_ipn_callback ipn_data w = (Ok true, w1) →
  reads ipn_data key new paid cur txid net →
  first_from key 0 (payments (store w)) = Some i →
  payments (store w) !! i = Some p →
  (new = PaymentStatus.FINISHED ∧ payment_status p ≠ PaymentStatus.FINISHED →
     ∃ order o o1,
       pay_order_id p = Some order
       ∧ orders (store w) !! order = Some o
       ∧ orders (store w1) !! order = Some o1
       ∧ status o1 = OrderStatus.PAID
       ∧ order_payment_status o1 = PaymentStatus.FINISHED
       ∧ calls w1 = calls w ++ Called_process_ipn_callback
                              :: Called_award_loyalty_points order
                              :: match items_from order 0 (order_items (store w)) with
                                 | [] => []
                                 | _ => [Called_process_digital_delivery order]
                                 end)
  ∧ (¬ (new = PaymentStatus.FINISHED ∧ payment_status p ≠ PaymentStatus.FINISHED) →
       orders (store w1) = orders (store w)
       ∧ users (store w1) = users (store w)
       ∧ order_items (store w1) = order_items (store w)
       ∧ loyalty_transactions (store w1) = loyalty_transactions (store w)
       ∧ calls w1 = calls w ++ [Called_process_ipn_callback]).
Proof.
  intros Hrun Hreads Hi Hp.
  destruct (process_ipn_callback_true _ _ _ _ _ _ _ _ _ _ _ Hrun Hreads Hi Hp)
    as (_ & _ & _ & _ & _ & Htrig & Hplain).
  split.
  - intros Ht. destruct (Htrig Ht) as (order & o & Hpo & Hrow & Horders & _ & Hcalls).
    exists order, o, (paid_at (utcnow (S (clock_reads w))) o).
    rewrite Horders, lookup_alter_eq, Hrow. done.
  - intros Hnt. rewrite (Hplain Hnt). by destruct w.
Qed.

(** C3, as amended.  A notification applied to a payment whose stored
    status is terminal replaces that status by the status it maps to.  It
    does not trigger Fulfillment when the stored status is FINISHED; it
    does when the stored status is another terminal one and the
    notification maps to FINISHED. *)
Theorem terminal_status_is_overwritten ipn_data w w1 key new paid cur txid net i p :
  terminal (payment_status p) = true →
  process_ipn_callback ipn_data w = (Ok true, w1) →
  reads ipn_data key new paid cur txid net →
  first_from key 0 (payments (store w)) = Some i →
  payments (store w) !! i = Some p →
  ∃ p1, payments (store w1) !! i = Some p1
    ∧ payment_status p1 = new
    ∧ (payment_status p = PaymentStatus.FINISHED →
       fulfillment_runs (calls w1) = fulfillment_runs (calls w))
    ∧ (payment_status p ≠ PaymentStatus.FINISHED → new = PaymentStatus.FINISHED →
       fulfillment_runs (calls w1) = S (fulfillment_runs (calls w))).
Proof.
  intros _ Hrun Hreads Hi Hp.
  destruct (process_ipn_callback_true _ _ _ _ _ _ _ _ _ _ _ Hrun Hreads Hi Hp)
    as (Hpay & _ & _ & _ & _ & Htrig & Hplain).
  eexists. split; [by rewrite Hpay, list_lookup_alter_eq, Hp|]. split; [done|]. split.
  - intros Hfin. rewrite Hplain by (intros [_ ?]; done). simpl.
    rewrite fulfillment_runs_app. simpl. lia.
  - intros Hold Hnew.
    destruct (Htrig (conj Hnew Hold)) as (order & o & _ & _ & _ & _ & Hcalls).
    rewrite Hcalls, fulfillment_runs_app, fulfillment_runs_calls. lia.
Qed.

(** C10, as amended.  A non-empty status string that is none of the nine
    gateway statuses, whatever its case, maps to PENDING.  A notification
    that carries it, can be read and names a stored payment is applied
    exactly when the database takes its currency, transaction id and
    network: then the stored status becomes PENDING, whatever it was (a
    terminal status included); if not, the notification is refused and the
    stored payments are as they were.  And whatever else a notification
    with this status carries: if it is applied, the payment it names ends
    with status PENDING, and if it is refused, the stored payments are as
    they were. *)
Theorem unrecognized_status_becomes_pending (s : string) ipn_data w key new paid cur
    txid net i p :
  s ≠ EmptyString → recognized s = false →
  map_payment_status (PStr s) = Ok PaymentStatus.PENDING
  ∧ (py_get ipn_data "payment_status" PNone = Ok (PStr s) →
     reads ipn_data key new paid cur txid net →
     first_from key 0 (payments (store w)) = Some i →
     payments (store w) !! i = Some p →
     ∃ w1, process_ipn_callback ipn_data w = (Ok (accepts p cur txid net), w1)
       ∧ (accepts p cur txid net = true →
          ∃ p1, payments (store w1) !! i = Some p1
                ∧ payment_status p1 = PaymentStatus.PENDING)
       ∧ (accepts p cur txid net = false → payments (store w1) = payments (store w)))
  ∧ (∀ (b : bool) w1,
       py_get ipn_data "payment_status" PNone = Ok (PStr s) →
       process_ipn_callback ipn_data w = (Ok b, w1) →
       if b then
         ∃ key0 i0 p0 p1,
           py_get ipn_data "payment_id" PNone = Ok key0
           ∧ first_from key0 0 (payments (store w)) = Some i0
           ∧ payments (store w) !! i0 = Some p0
           ∧ payments (store w1) !! i0 = Some p1
           ∧ payment_status p1 = PaymentStatus.PENDING
       else payments (store w1) = payments (store w)).
Proof.
  intros _ Hrec.
  assert (Hmap : map_payment_status (PStr s) = Ok PaymentStatus.PENDING).
  { unfold map_payment_status, recognized in *.
    by destruct (assoc_get (lower s) status_mapping). }
  split; [done|]. split.
  2:{ intros [] w1 Hs Hrun.
      - destruct (process_ipn_callback_true_inv _ _ _ Hrun)
          as (key0 & new0 & paid0 & cur0 & txid0 & net0 & i0 & p0 & Hreads & Hi0 & Hp0 & _).
        destruct (process_ipn_callback_true _ _ _ _ _ _ _ _ _ _ _ Hrun Hreads Hi0 Hp0)
          as (Hpay & _).
        assert (new0 = PaymentStatus.PENDING) as ->.
        { destruct Hreads as (_ & _ & (st & Hs' & _ & Hm) & _). congruence. }
        eexists key0, i0, p0, _. split; [by destruct Hreads|]. split; [done|].
        split; [done|]. split; [by rewrite Hpay, list_lookup_alter_eq, Hp0|done].
      - by destruct (process_ipn_callback_false_frame _ _ _ Hrun) as (? & _). }
  intros Hs Hreads Hi Hp.
  assert (new = PaymentStatus.PENDING) as ->.
  { destruct Hreads as (_ & _ & (st & Hs' & _ & Hm) & _). congruence. }
  assert (applies_to ipn_data (store w) key PaymentStatus.PENDING paid cur txid net i p)
    as Happ by (unfold applies_to; done).
  rewrite (process_ipn_callback_commit _ _ _ _ _ _ _ _ _ _ Happ).
  destruct (commit_world_spec _ _ _ _ _ _ _ _ _ _ Happ)
    as (Hst & Hpay & _ & _ & _ & _ & _).
  assert (commit_accepted (store w) PaymentStatus.PENDING cur txid net p
          = accepts p cur txid net) as ->.
  { unfold commit_accepted. rewrite bool_decide_eq_false_2 by (by intros [? _]).
    apply andb_true_r. }
  cbn zeta in *. destruct (accepts p cur txid net); eexists; (split; [done|]); split;
    try done; intros _; unfold committed, Session_close, set_session; cbn [store];
    first [by rewrite Hst | rewrite Hpay, list_lookup_alter_eq, Hp; eauto].
Qed.


(** What an application depends on: the stored payments, orders and
    users. *)
Lemma applies_to_ext ipn_data d d' key new paid cur txid net i p :
  payments d' = payments d → orders d' = orders d →
  applies_to ipn_data d key new paid cur txid net i p →
  applies_to ipn_data d' key new paid cur txid net i p.
Proof. unfold applies_to. by intros -> ->. Qed.


Lemma commit_rows_ext d d' new p :
  orders d' = orders d → users d' = users d →
  commit_rows d' new p = commit_rows d new p.
Proof. unfold commit_rows. by intros -> ->. Qed.

Lemma length_commit_rows d new p :
  (length (commit_rows d new p)
   ≤ if bool_decide (new = PaymentStatus.FINISHED
                     ∧ payment_status p ≠ PaymentStatus.FINISHED) then 1 else 0)%nat.
Proof.
  unfold commit_rows. destruct (bool_decide _); [|done].
  destruct (pay_order_id p) as [order|]; [|simpl; lia].
  destruct (orders d !! order) as [o|]; [|simpl; lia]. apply length_award_rows.
Qed.

(** The calls of an application that has got as far as its commit. *)
Lemma commit_world_runs ipn_data w key new paid cur txid net i p :
  applies_to ipn_data (store w) key new paid cur txid net i p →
  fulfillment_runs (calls (commit_world new paid cur txid net i p w))
  = (fulfillment_runs (calls w)
     + if bool_decide (new = PaymentStatus.FINISHED
                       ∧ payment_status p ≠ PaymentStatus.FINISHED) then 1 else 0)%nat.
Proof.
  intros Happ.
  destruct (commit_world_spec _ _ _ _ _ _ _ _ _ _ Happ) as (_ & _ & _ & _ & _ & Htrig & Hpl).
  cbn zeta in *.
  destruct (decide (new = PaymentStatus.FINISHED
                    ∧ payment_status p ≠ PaymentStatus.FINISHED)) as [Ht|Ht].
  - rewrite bool_decide_eq_true_2 by done.
    destruct (Htrig Ht) as (order & o & _ & _ & _ & _ & ->).
    by rewrite fulfillment_runs_app, fulfillment_runs_calls.
  - rewrite bool_decide_eq_false_2 by done. rewrite (Hpl Ht). simpl.
    rewrite fulfillment_runs_app. simpl. lia.
Qed.



(** Two callers.  The first has reached its commit (line 210), in the world
    [commit_world ...]; the store holds what it held when the first looked
    the payment up, and the ledger rows of the award.  A second caller for
    the same notification that starts now finds the status the first found
    and goes the same way: Fulfillment runs once more and the ledger rows of
    the award are stored once more.  Nothing in [process_ipn_callback] makes
    the second wait for the commit of the first, or notice it. *)
Lemma second_caller_before_commit ipn_data w key new paid cur txid net i p :
  applies_to ipn_data (store w) key new paid cur txid net i p →
  ∃ b w',
    process_ipn_callback ipn_data (commit_world new paid cur txid net i p w) = (Ok b, w')
    ∧ loyalty_transactions (store w')
      = loyalty_transactions (store w)
        ++ commit_rows (store w) new p ++ commit_rows (store w) new p
    ∧ fulfillment_runs (calls w')
      = (fulfillment_runs (calls w)
         + 2 * if bool_decide (new = PaymentStatus.FINISHED
                               ∧ payment_status p ≠ PaymentStatus.FINISHED)
               then 1 else 0)%nat.
Proof.
  intros Happ.
  destruct (commit_world_spec _ _ _ _ _ _ _ _ _ _ Happ) as (Hst & _).
  cbn zeta in Hst. set (first := commit_world new paid cur txid net i p w) in *.
  assert (orders (store first) = orders (store w)) as Hor by (by rewrite Hst).
  assert (users (store first) = users (store w)) as Hus by (by rewrite Hst).
  assert (applies_to ipn_data (store first) key new paid cur txid net i p) as Happ1.
  { apply (applies_to_ext _ (store w)); [by rewrite Hst|done|done]. }
  rewrite (process_ipn_callback_commit _ _ _ _ _ _ _ _ _ _ Happ1).
  destruct (commit_world_spec _ _ _ _ _ _ _ _ _ _ Happ1) as (Hst1 & _ & _ & Hled1 & _).
  cbn zeta in Hst1, Hled1. rewrite (commit_rows_ext _ _ _ _ Hor Hus) in Hst1, Hled1.
  pose proof (commit_world_runs _ _ _ _ _ _ _ _ _ _ Happ) as Hr.
  pose proof (commit_world_runs _ _ _ _ _ _ _ _ _ _ Happ1) as Hr1.
  fold first in Hr.
  destruct (commit_accepted _ _ _ _ _ _); eexists _, _; (split; [done|]); split.
  - unfold committed; cbn [store]. rewrite Hled1, Hst. simpl. by rewrite <- app_assoc.
  - unfold committed; cbn [calls]. rewrite Hr1, Hr. lia.
  - unfold Session_close, set_session; cbn [store]. rewrite Hst1, Hst. simpl.
    by rewrite <- app_assoc.
  - unfold Session_close, set_session; cbn [calls]. rewrite Hr1, Hr. lia.
Qed.

(** ** The webhook endpoint *)

(** C4.  A request without signature header, or whose signature is not the
    hex digest of the raw body under the IPN secret, is answered with the
    error value of the endpoint and leaves the world as it was: no row is
    touched and [process_ipn_callback], which would have recorded its call,
    is not called. *)
Theorem payment_ipn_rejects_bad_signature (request : Request) (w : World) :
  (assoc_get "x-nowpayments-sig" (headers request) = None
   ∨ ∃ signature, assoc_get "x-nowpayments-sig" (headers request) = Some signature
       ∧ signature ≠ hmac_sha512_hexdigest (nowpayments_ipn_secret settings)
                        (body request)) →
  ∃ e, payment_ipn request w = (Ok (error_500 (exn_str e)), w).
Proof.
  intros H. destruct w as [st se cr ud cl]. unfold payment_ipn, error_500.
  destruct H as [Hnone|(sig & Hsig & Hne)].
  - exists (HTTPException 400 "Invalid signature"). by exec.
  - destruct (String.eqb sig EmptyString) eqn:Hempty.
    { exists (HTTPException 400 "Invalid signature"). by exec. }
    unfold bytes_decode, verify_ipn_signature, compare_digest.
    destruct (utf8_valid (body request)) eqn:Hutf.
    2:{ exists UnicodeDecodeError. by exec. }
    exists (HTTPException 400 "Invalid signature").
    apply String.eqb_neq in Hne. rewrite String.eqb_sym in Hne.
    destruct (is_ascii (hmac_sha512_hexdigest (nowpayments_ipn_secret settings)
                          (body request)) && is_ascii sig) eqn:Hascii; by exec.
Qed.

(** The endpoint catches every exception, the one it raises for a bad
    signature included. *)
Lemma payment_ipn_returns (request : Request) (w : World) :
  ∃ v w', payment_ipn request w = (Ok v, w').
Proof.
  unfold payment_ipn, try_except.
  match goal with |- context [match ?m with _ => _ end] => destruct m as [[v|e] w'] end;
    eauto.
Qed.

(** So every answer of the endpoint itself has status 200: the pairs
    [(body, 400)] and [(body, 500)] it returns are sent as JSON arrays. *)
Lemma payment_ipn_always_answers_200 (request : Request) (w : World) :
  status_code (fst (serve_payment_ipn Let_through request w)) = 200.
Proof.
  unfold serve_payment_ipn.
  destruct (payment_ipn_returns request w) as (v & w' & ->). done.
Qed.

(** A request that is answered in front of the endpoint does not reach
    it. *)
Lemma answered_in_front_changes_nothing (answer : HTTPResponse) (request : Request)
    (w : World) :
  serve_payment_ipn (Answered_in_front answer) request w = (answer, w).
Proof. reflexivity. Qed.

End Verification.

(** * More of the code: verification *)

Section Coverage.
Context `{RT : Runtime}.

(** ** [process_ipn_callback]: when a notification is applied *)

(** X1.  [process_ipn_callback] applies a notification (returns [True])
    exactly when the payload is well formed (an object with a non-empty
    payment id, a status string, an amount [float] accepts and, if present,
    an [outcome] object), the payment id matches a stored payment as the
    database compares it, the order of the payment exists if the
    notification moves the payment to FINISHED from another status, and the
    database takes the commit: the currency, transaction id and network of
    the payload and, if points were awarded, the new points and order count
    of the owner. *)
Theorem process_ipn_callback_applies_iff (ipn_data : pyval) (w : World) :
  (∃ w1, process_ipn_callback ipn_data w = (Ok true, w1))
  ↔ ∃ key new paid cur txid net i p,
      reads ipn_data key new paid cur txid net
      ∧ first_from key 0 (payments (store w)) = Some i
      ∧ payments (store w) !! i = Some p
      ∧ (new = PaymentStatus.FINISHED → payment_status p ≠ PaymentStatus.FINISHED →
         ∃ order o, pay_order_id p = Some order ∧ orders (store w) !! order = Some o)
      ∧ commit_accepted (store w) new cur txid net p = true.
Proof.
  split.
  - intros [w1 H].
    destruct (process_ipn_callback_true_inv _ _ _ H)
      as (key & new & paid & cur & txid & net & i & p & Hreads & Hi & Hp & Hord).
    exists key, new, paid, cur, txid, net, i, p. repeat (split; [done|]).
    by destruct (process_ipn_callback_true _ _ _ _ _ _ _ _ _ _ _ H Hreads Hi Hp)
      as (_ & _ & _ & Hacc & _).
  - intros (key & new & paid & cur & txid & net & i & p & Hreads & Hi & Hp & Hord & Hacc).
    assert (applies_to ipn_data (store w) key new paid cur txid net i p) as Happ
      by (unfold applies_to; done).
    eexists. rewrite (process_ipn_callback_commit _ _ _ _ _ _ _ _ _ _ Happ), Hacc. done.
Qed.

(** X2.  A notification one of whose fields the code cannot read is
    refused, with nothing stored and no handler called, even when it names a
    stored payment: a [payment_status] that is not a string, an
    [actually_paid] that [float] does not accept (a null, say), or an
    [outcome] that is present and is not an object. *)
Theorem process_ipn_callback_refuses_unreadable_fields (ipn_data : pyval) (w : World) :
  ((∃ st, py_get ipn_data "payment_status" PNone = Ok st ∧ ∀ s, st ≠ PStr s)
   ∨ (∃ v e, py_get ipn_data "actually_paid" (PInt 0) = Ok v ∧ py_float v = Raise e)
   ∨ (∃ oc, py_get ipn_data "outcome" (PDict []) = Ok oc ∧ ∀ d, oc ≠ PDict d)) →
  ∃ w1, process_ipn_callback ipn_data w = (Ok false, w1)
    ∧ store w1 = store w
    ∧ calls w1 = calls w ++ [Called_process_ipn_callback].
Proof.
  intros Hbad.
  destruct (process_ipn_callback_returns ipn_data w) as ([] & w1 & H1).
  - exfalso.
    destruct (process_ipn_callback_true_inv _ _ _ H1)
      as (key & new & paid & cur & txid & net & i & p & Hreads & _).
    destruct Hreads as (_ & _ & (st & Hs & _ & Hm) & (v & Hv & Hf) & _ & (oc & Ho & Htx & _)).
    destruct Hbad as [(st' & Hs' & Hno)|[(v' & e & Hv' & He)|(oc' & Ho' & Hno)]].
    + assert (st' = st) as -> by congruence.
      destruct st; try discriminate. by apply (Hno s).
    + assert (v' = v) as -> by congruence. congruence.
    + assert (oc' = oc) as -> by congruence.
      destruct oc; try discriminate. by apply (Hno d).
  - exists w1. split; [done|].
    destruct (process_ipn_callback_false _ _ _ H1)
      as [(Hst & Hc & _)
         |(key & new & paid & cur & txid & net & i & p & (Hreads & _) & _)]; [done|].
    exfalso.
    destruct Hreads as (_ & _ & (st & Hs & _ & Hm) & (v & Hv & Hf) & _ & (oc & Ho & Htx & _)).
    destruct Hbad as [(st' & Hs' & Hno)|[(v' & e & Hv' & He)|(oc' & Ho' & Hno)]].
    + assert (st' = st) as -> by congruence.
      destruct st; try discriminate. by apply (Hno s).
    + assert (v' = v) as -> by congruence. congruence.
    + assert (oc' = oc) as -> by congruence.
      destruct oc; try discriminate. by apply (Hno d).
Qed.

(** ** The loyalty award: failures and the ledger *)

(** What the award handler can do: nothing but record its call, or the
    award of [award_loyalty_points_earn]. *)
Lemma award_loyalty_points_cases (order : Z) (w : World) :
  _award_loyalty_points order w
    = (Ok tt, set_calls (λ l, l ++ [Called_award_loyalty_points order]) w)
  ∨ ∃ o u row q,
      orders (session w) !! order = Some o ∧ user_id o = Some u
      ∧ users (session w) !! u = Some row
      ∧ int_of_float (total_amount o) = Ok q ∧ 0 < q.
Proof.
  destruct (orders (session w) !! order) as [o|] eqn:Ho.
  2:{ left. destruct w as [st se cr ud cl]; simpl in *.
      unfold _award_loyalty_points. by exec. }
  destruct (int_of_float (total_amount o)) as [q|e] eqn:Hq.
  2:{ left. destruct w as [st se cr ud cl]; simpl in *.
      unfold _award_loyalty_points. by exec. }
  destruct (Z.leb q 0) eqn:Hle.
  { left. apply Z.leb_le in Hle. by apply (award_loyalty_points_skip order w o q). }
  apply Z.leb_gt in Hle.
  destruct (user_id o) as [u|] eqn:Hu.
  2:{ left. apply Z.leb_gt in Hle. destruct w as [st se cr ud cl]; simpl in *.
      unfold _award_loyalty_points. by exec. }
  destruct (users (session w) !! u) as [row|] eqn:Hrow.
  2:{ left. apply Z.leb_gt in Hle. destruct w as [st se cr ud cl]; simpl in *.
      unfold _award_loyalty_points. by exec. }
  right. exists o, u, row, q. repeat split; try done; lia.
Qed.

(** X3.  The award handler swallows its own failures: when the order row
    is missing, when the order total is a NaN or an infinity, when the order
    has no owner or the owner's row is missing, it returns normally and
    changes nothing (only its call is on record): no points, no ledger
    row. *)
Theorem award_loyalty_points_swallows_failures (order : Z) (w : World) :
  (orders (session w) !! order = None
   ∨ ∃ o, orders (session w) !! order = Some o
       ∧ (float_is_finite (total_amount o) = false
          ∨ user_id o = None
          ∨ ∃ u, user_id o = Some u ∧ users (session w) !! u = None)) →
  _award_loyalty_points order w
  = (Ok tt, set_calls (λ l, l ++ [Called_award_loyalty_points order]) w).
Proof.
  intros H.
  destruct (award_loyalty_points_cases order w)
    as [Hnone|(o & u & row & q & Ho & Hu & Hrow & Hq & Hpos)]; [done|].
  exfalso. destruct H as [H|(o' & Ho' & H)]; [congruence|].
  assert (o' = o) as -> by congruence.
  destruct H as [H|[H|(u' & Hu' & H)]].
  - destruct (total_amount o); simpl in *; discriminate.
  - congruence.
  - congruence.
Qed.

Lemma ledger_points_app (u : Z) (l l' : list LoyaltyTransaction) :
  ledger_points u (l ++ l') = ledger_points u l + ledger_points u l'.
Proof. induction l as [|r l IH]; simpl; [done|]. rewrite IH. lia. Qed.

(** What an award moves: the points of the owner by the points of its
    ledger row, if there is one, and no points of anyone else. *)
Lemma award_of_points (order : Z) (o : Order) (us : gmap Z User) (u : Z) (row : User) :
  us !! u = Some row →
  ∃ row1, award_users order o us !! u = Some row1
    ∧ loyalty_points row ≤ loyalty_points row1
    ∧ 0 ≤ ledger_points u (award_rows order o us)
    ∧ (award_rows order o us ≠ [] →
       loyalty_points row1 - loyalty_points row
       = ledger_points u (award_rows order o us)).
Proof.
  intros Hu. unfold award_users, award_rows, award_of.
  destruct (int_of_float (total_amount o)) as [q|e]; [|exists row; simpl; done].
  destruct (Z.leb q 0) eqn:Hq; [exists row; simpl; done|]. apply Z.leb_gt in Hq.
  destruct (user_id o) as [u'|]; [|exists row; simpl; done]. simpl.
  destruct (us !! u') as [row'|] eqn:Hu'; [|exists row; simpl; done]. simpl.
  destruct (decide (u = u')) as [->|Hne].
  - rewrite lookup_insert_eq. assert (row' = row) as -> by congruence.
    eexists. split; [done|]. simpl.
    destruct (db_integer q); simpl; rewrite ?decide_True by done;
      repeat split; try done; lia.
  - rewrite lookup_insert_ne by done. exists row. split; [done|].
    destruct (db_integer q); simpl; rewrite ?decide_False by congruence;
      repeat split; try done; lia.
Qed.

(** X4.  The points balance and the ledger.  No call of
    [process_ipn_callback] lowers a stored balance or stores more than one
    ledger row.  A call that answers [True] and has stored a ledger row has
    raised the balance of every user by exactly the points of the rows
    stored for that user.  A call that answers [False] leaves every stored
    balance as it was, also when it has stored a ledger row: the award
    handler commits its row on a session of its own, before the commit of
    the request, which the database can refuse. *)
Theorem process_ipn_callback_ledger_and_balance (ipn_data : pyval) (w w1 : World)
    (b : bool) (u : Z) (row : User) :
  process_ipn_callback ipn_data w = (Ok b, w1) →
  users (store w) !! u = Some row →
  ∃ row1 rows,
    users (store w1) !! u = Some row1
    ∧ loyalty_transactions (store w1) = loyalty_transactions (store w) ++ rows
    ∧ (length rows ≤ 1)%nat
    ∧ loyalty_points row ≤ loyalty_points row1
    ∧ 0 ≤ ledger_points u rows
    ∧ (b = true → rows ≠ [] →
       loyalty_points row1 - loyalty_points row = ledger_points u rows)
    ∧ (b = false → row1 = row).
Proof.
  intros Hrun Hu. destruct b.
  - destruct (process_ipn_callback_true_inv _ _ _ Hrun)
      as (key & new & paid & cur & txid & net & i & p & Hreads & Hi & Hp & Hord).
    destruct (process_ipn_callback_true _ _ _ _ _ _ _ _ _ _ _ Hrun Hreads Hi Hp)
      as (_ & _ & _ & _ & Hled & Htrig & Hplain).
    destruct (decide (new = PaymentStatus.FINISHED
                      ∧ payment_status p ≠ PaymentStatus.FINISHED)) as [Ht|Hnt].
    + destruct (Htrig Ht) as (order & o & Hpo & Hrow & _ & Hus & _).
      destruct (award_of_points order o (users (store w)) u row Hu)
        as (row1 & Hrow1 & Hle & Hpos & Heq).
      exists row1, (award_rows order o (users (store w))).
      rewrite Hus, Hled. unfold commit_rows.
      rewrite bool_decide_eq_true_2, Hpo, Hrow by done.
      repeat split; try done. apply length_award_rows.
    + rewrite (Hplain Hnt). simpl. exists row, []. rewrite app_nil_r.
      repeat split; try done; simpl; lia.
  - destruct (process_ipn_callback_false _ _ _ Hrun)
      as [(Hst & _)
         |(key & new & paid & cur & txid & net & i & p & Happ & _ & _ & Hst)].
    + exists row, []. rewrite Hst, app_nil_r. repeat split; try done; simpl; lia.
    + exists row, (commit_rows (store w) new p). rewrite Hst. simpl.
      split; [done|]. split; [done|].
      split.
      { pose proof (length_commit_rows (store w) new p). destruct (bool_decide _); lia. }
      split; [lia|]. split; [|done].
      unfold commit_rows. destruct (bool_decide _); [|done].
      destruct (pay_order_id p) as [order|]; [|done].
      destruct (orders (store w) !! order) as [o|]; [|done].
      by destruct (award_of_points order o (users (store w)) u row Hu) as (? & _ & _ & ? & _).
Qed.

(** ** [map_payment_status] and the values of the enumeration *)

(** X5.  [map_payment_status] inverts [PaymentStatus.<member>.value], in
    any letter case: a string is mapped to a status exactly when its lower
    case is the value of that status, or, for PENDING, when it is none of
    the nine gateway statuses. *)
Theorem map_payment_status_inverts_value (s : string) (st : PaymentStatus.t) :
  map_payment_status (PStr s) = Ok st
  ↔ lower s = payment_status_value st
    ∨ (st = PaymentStatus.PENDING ∧ recognized s = false).
Proof.
  unfold map_payment_status, recognized. generalize (lower s) as t. intros t. split.
  - unfold status_mapping, assoc_get.
    repeat (match goal with
            | |- context [String.eqb t ?k] =>
                destruct (String.eqb_spec t k) as [->|?]
            end; [intros [= <-]; by left|]).
    intros [= <-]. by right.
  - intros [->|[-> H]].
    + by destruct st.
    + by destruct (assoc_get t status_mapping).
Qed.

(** ** The webhook endpoint: what it answers *)

(** X6.  The endpoint answers [{"status": "ok"}] exactly when the request
    carries a non-empty signature header that is the hex digest of the
    body under the IPN secret, the body is valid UTF-8 and parses as JSON,
    and [process_ipn_callback] applies the parsed notification; the world
    is then the one [process_ipn_callback] leaves. *)
Theorem payment_ipn_ok_iff (request : Request) (w w1 : World) :
  payment_ipn request w = (Ok body_ok, w1)
  ↔ ∃ signature data,
      assoc_get "x-nowpayments-sig" (headers request) = Some signature
      ∧ signature ≠ EmptyString
      ∧ utf8_valid (body request) = true
      ∧ is_ascii signature = true
      ∧ signature = hmac_sha512_hexdigest (nowpayments_ipn_secret settings) (body request)
      ∧ json_loads (body request) = Some data
      ∧ process_ipn_callback data w = (Ok true, w1).
Proof.
  unfold body_ok. split.
  - destruct w as [st se cr ud cl]. unfold payment_ipn. run.
    destruct (assoc_get _ (headers request)) as [sig|] eqn:Hsig; failing.
    destruct (String.eqb_spec sig EmptyString) as [->|Hne]; failing.
    unfold bytes_decode, verify_ipn_signature, compare_digest, py_json_loads.
    destruct (utf8_valid (body request)) eqn:Hutf; failing.
    destruct (is_ascii (hmac_sha512_hexdigest _ _)) eqn:Ha1; failing.
    destruct (is_ascii sig) eqn:Ha2; failing.
    destruct (String.eqb_spec (hmac_sha512_hexdigest (nowpayments_ipn_secret settings)
                                 (body request)) sig) as [Heq|Hneq]; failing.
    destruct (json_loads (body request)) as [data|] eqn:Hj; failing.
    destruct (process_ipn_callback data _) as [[[]|e] w'] eqn:Hp; failing.
    intros [= <-]. exists sig, data. repeat split; try done.
  - intros (sig & data & Hsig & Hne & Hutf & Ha & Heq & Hj & Hp).
    apply String.eqb_neq in Hne.
    destruct w as [st se cr ud cl]. unfold payment_ipn. run. rewrite Hsig, Hne.
    unfold bytes_decode, verify_ipn_signature, compare_digest, py_json_loads.
    rewrite Hutf. run. rewrite <- Heq, Ha, String.eqb_refl, Hj. run. by rewrite Hp.
Qed.

(** X7.  [payment_ipn] never raises, and returns one of three values:
    [{"status": "ok"}]; the pair of the error object and 400, when
    [process_ipn_callback] has refused the notification, and then the
    stored payments, orders, users and line items are as they were; or the
    pair of an error object with the text of an exception and 500, for an
    exception raised before [process_ipn_callback] is called (the one for
    a bad signature, a body that cannot be decoded or parsed), and then
    nothing has changed at all. *)
Theorem payment_ipn_answers (request : Request) (w : World) :
  ∃ v w1, payment_ipn request w = (Ok v, w1)
    ∧ (v = body_ok
       ∨ (v = body_refused
          ∧ payments (store w1) = payments (store w)
          ∧ orders (store w1) = orders (store w)
          ∧ users (store w1) = users (store w)
          ∧ order_items (store w1) = order_items (store w))
       ∨ (∃ e, v = error_500 (exn_str e)) ∧ w1 = w).
Proof.
  unfold body_ok, body_refused, error_500.
  destruct w as [st se cr ud cl]. unfold payment_ipn. run.
  destruct (assoc_get _ (headers request)) as [sig|] eqn:Hsig; simpl; run; [|eauto 10].
  destruct (String.eqb sig EmptyString); simpl; run; [eauto 10|].
  unfold bytes_decode, verify_ipn_signature, compare_digest, py_json_loads.
  destruct (utf8_valid (body request)); simpl; run; [|eauto 10].
  destruct (is_ascii (hmac_sha512_hexdigest _ _) && is_ascii sig); simpl; run.
  2:{ eauto 10. }
  destruct (String.eqb _ sig); simpl; run; [|eauto 10].
  destruct (json_loads (body request)) as [data|]; simpl; run; [|eauto 10].
  destruct (process_ipn_callback_returns data (Build_World st se cr ud cl))
    as ([] & w1 & Hp); rewrite Hp; simpl; eexists _, _; (split; [reflexivity|]).
  - by left.
  - right. left. split; [done|].
    by destruct (process_ipn_callback_false_frame _ _ _ Hp) as (? & ? & ? & ? & _).
Qed.

End Coverage.

(** ** The data of the QR code *)

Section QRVerification.
Context `{TX : Text}.

Lemma string_app_assoc (s1 s2 s3 : string) : (s1 +:+ s2) +:+ s3 = s1 +:+ (s2 +:+ s3).
Proof.
  induction s1 as [|c s1 IH]; [done|].
  change (String c ((s1 +:+ s2) +:+ s3) = String c (s1 +:+ (s2 +:+ s3))).
  by rewrite IH.
Qed.

Lemma lower_upper_ascii (c : ascii) : lower_ascii (upper_ascii c) = lower_ascii c.
Proof. by destruct c as [[] [] [] [] [] [] [] []]. Qed.

Lemma is_ascii_upper_ascii (c : ascii) :
  Nat.ltb (nat_of_ascii (upper_ascii c)) 128 = Nat.ltb (nat_of_ascii c) 128.
Proof. by destruct c as [[] [] [] [] [] [] [] []]. Qed.

Lemma lower_upper (s : string) : lower (upper s) = lower s.
Proof. induction s as [|c s IH]; simpl; [done|]. by rewrite lower_upper_ascii, IH. Qed.

Lemma is_ascii_upper (s : string) : is_ascii (upper s) = is_ascii s.
Proof.
  induction s as [|c s IH]; [done|].
  cbn [upper is_ascii]. by rewrite is_ascii_upper_ascii, IH.
Qed.

(** X8.  [create_qr_payment_data] never raises and changes nothing; it
    returns the empty dict exactly when the payload is not an object, has no
    address or no amount (absent, null, empty, zero), or carries a currency
    that is not a string. *)
Theorem create_qr_payment_data_empty_iff (payment_data : pyval) (w : World) :
  ∃ v, create_qr_payment_data payment_data w = (Ok v, w)
    ∧ (v = PDict []
       ↔ ¬ ∃ address amount currency, qr_ready payment_data address amount currency).
Proof.
  destruct w as [st se cr ud cl]. unfold create_qr_payment_data, qr_ready. run.
  destruct (py_get payment_data "pay_address" PNone) as [a|] eqn:Ha; simpl; run.
  2:{ eexists. split; [done|]. split; [|done]. intros _ (?&?&?&?&_). done. }
  destruct (py_get payment_data "pay_amount" PNone) as [m|] eqn:Hm; simpl; run.
  2:{ eexists. split; [done|]. split; [|done]. intros _ (?&?&?&_&_&?&_). done. }
  destruct (py_get payment_data "pay_currency" (PStr EmptyString)) as [c|] eqn:Hc;
    simpl; run.
  2:{ eexists. split; [done|]. split; [|done]. intros _ (?&?&?&_&_&_&_&?). done. }
  destruct (py_upper c) as [cu|] eqn:Hcu; simpl; run.
  2:{ eexists. split; [done|]. split; [|done].
      intros _ (?&?&?&_&_&_&_&[= ->]). done. }
  destruct c; try discriminate.
  destruct (truthy a) eqn:Hta; simpl.
  2:{ eexists. split; [done|]. split; [|done].
      intros _ (?&?&?&[= <-]&?&_). congruence. }
  destruct (truthy m) eqn:Htm; simpl.
  2:{ eexists. split; [done|]. split; [|done].
      intros _ (?&?&?&_&_&[= <-]&?&_). congruence. }
  eexists. split; [done|]. split; [done|].
  intros H. exfalso. apply H. exists a, m, s. done.
Qed.

(** X9.  From a payload with an address, an amount and an ASCII currency
    (or none), [create_qr_payment_data] makes a payment URI whose scheme is
    the currency in lower case, whatever its case in the payload, followed
    by the address and always by the amount; [qr_data] is that same URI,
    and [pay_currency] is the currency in upper case. *)
Theorem create_qr_payment_data_uri (payment_data address amount : pyval)
    (currency : string) (w : World) :
  qr_ready payment_data address amount currency →
  is_ascii currency = true →
  let uri := lower currency +:+ ":" +:+ py_str address +:+ "?amount=" +:+ py_str amount in
  create_qr_payment_data payment_data w
  = (Ok (PDict [ ("payment_uri"%string, PStr uri);
                 ("pay_address"%string, address);
                 ("pay_amount"%string, PStr (py_str amount));
                 ("pay_currency"%string, PStr (upper currency));
                 ("qr_data"%string, PStr uri) ]), w).
Proof.
  intros (Ha & Hta & Hm & Htm & Hc) Hascii uri. subst uri.
  destruct w as [st se cr ud cl]. unfold create_qr_payment_data. run.
  rewrite Ha, Hm, Hc. simpl. run. rewrite Hta, Htm. simpl.
  unfold str_upper, str_lower. rewrite Hascii, is_ascii_upper, Hascii, lower_upper.
  by rewrite !string_app_assoc.
Qed.

End QRVerification.

(** ** Authentication and the endpoints that use it *)

Section AuthVerification.
Context `{RT : Runtime} `{TX : Text} `{AR : AuthRuntime}.

Lemma split_on_cons (sep : ascii) (s : string) :
  ∃ p ps, split_on sep s = p :: ps.
Proof.
  induction s as [|c s (p & ps & IH)]; simpl; [eauto|].
  destruct (Ascii.eqb c sep); [eauto|]. rewrite IH. eauto.
Qed.

(** After [startswith("Bearer ")], the lookup [split(" ")[1]] finds a
    part. *)
Lemma split_bearer (h : string) :
  String.prefix "Bearer " h = true → is_Some (split_on " " h !! 1%nat).
Proof.
  intros H.
  repeat (destruct h as [|? h]; simpl in H; [discriminate|];
          match type of H with
          | context [match ?d with left _ => _ | right _ => _ end] =>
              destruct d as [<-|]; [|discriminate]
          end).
  destruct (split_on_cons " " h) as (p & ps & Hp).
  simpl. rewrite Hp. simpl. eauto.
Qed.

Lemma no_space_split (t : string) : no_space t = true → split_on " " t = [t].
Proof.
  induction t as [|c t IH]; simpl; [done|].
  intros [Hc Ht]%andb_true_iff. apply negb_true_iff in Hc. rewrite Hc, IH; done.
Qed.

Lemma pretty_N_go_nonempty (x : N) (s : string) :
  s ≠ EmptyString → pretty_N_go x s ≠ EmptyString.
Proof.
  revert s. induction (N.lt_wf_0 x) as [x _ IH]. intros s Hs.
  destruct (decide (x = 0%N)) as [->|Hx]; [by rewrite pretty_N_go_0|].
  rewrite pretty_N_go_step by lia. apply IH; [|done].
  apply N.div_lt; lia.
Qed.

(** The decimal text of an integer is not empty. *)
Lemma pretty_Z_nonempty (n : Z) : pretty n ≠ EmptyString.
Proof.
  assert (Hp : ∀ p : positive, pretty p ≠ EmptyString).
  { intros p. unfold pretty, pretty_positive, pretty, pretty_N.
    rewrite decide_False by done.
    rewrite pretty_N_go_step by lia. by apply pretty_N_go_nonempty. }
  destruct n as [|p|p]; [done|apply Hp|].
  unfold pretty, pretty_Z. done.
Qed.

(** A user [get_user_from_token] finds is a stored row. *)
Lemma get_user_from_token_stored (token : string) (s : AuthState) (user : Account) :
  get_user_from_token token s = Some user → user ∈ accounts s.
Proof.
  unfold get_user_from_token. intros Hu.
  destruct (verify_token _ s) as [payload|]; [|done].
  destruct (negb (truthy payload)); [done|].
  destruct (py_get payload "sub" PNone) as [uid|]; [|done].
  destruct (negb (truthy uid)); [done|].
  destruct (py_int uid) as [k|]; [|done].
  unfold query_user_by_id in Hu. apply find_some in Hu as [Hin _].
  by apply list_elem_of_In.
Qed.

Lemma authenticate_cases (token : string) (s : AuthState) :
  (∃ user, authenticate token s = Ok user
     ∧ user ∈ accounts s ∧ is_active user = Some true)
  ∨ authenticate token s
    = Raise (HTTPException 401 "Invalid authentication credentials")
  ∨ authenticate token s = Raise (HTTPException 400 "Inactive user").
Proof.
  unfold authenticate.
  destruct (get_user_from_token token s) as [user|] eqn:Hu; [|by right; left].
  destruct (is_active user) as [[]|] eqn:Ha; simpl; [|by right; right..].
  left. exists user. split; [done|]. split; [|done].
  by apply (get_user_from_token_stored token).
Qed.

Lemma get_current_user_cases (request : Request) (s : AuthState) :
  (∃ user, get_current_user request s = Ok user
     ∧ user ∈ accounts s ∧ is_active user = Some true)
  ∨ (∃ detail, get_current_user request s = Raise (HTTPException 401 detail))
  ∨ get_current_user request s = Raise (HTTPException 400 "Inactive user").
Proof.
  unfold get_current_user.
  assert (∃ token, request_token request = Ok token) as [token ->].
  { unfold request_token. destruct (falsy_str _); [|eauto].
    destruct (negb _ && String.prefix _ _) eqn:Hb; [|eauto].
    apply andb_true_iff in Hb as [_ Hp].
    destruct (split_bearer _ Hp) as [t ->]. eauto. }
  destruct (falsy_str token); [right; left; eauto|].
  destruct (authenticate_cases (default EmptyString token) s) as [H|[-> | ->]]; eauto.
Qed.

(** X10.  [get_current_user] returns a user only if that user is a stored
    row whose [is_active] is true; otherwise it raises an [HTTPException],
    with status 401, or with status 400 for a user that is not active.  No
    other exception leaves it. *)
Theorem get_current_user_outcomes (request : Request) (s : AuthState) :
  (∃ user, get_current_user request s = Ok user
     ∧ user ∈ accounts s ∧ is_active user = Some true)
  ∨ (∃ detail, get_current_user request s = Raise (HTTPException 401 detail))
  ∨ get_current_user request s = Raise (HTTPException 400 "Inactive user").
Proof. apply get_current_user_cases. Qed.

Lemma get_current_user_prefers_cookie_aux (request : Request) (s : AuthState)
    (t : string) :
  assoc_get "access_token" (request_cookies request) = Some t →
  t ≠ EmptyString →
  get_current_user request s = authenticate t s.
Proof.
  intros Hc Hne. apply String.eqb_neq in Hne.
  unfold get_current_user, request_token. rewrite Hc. simpl. rewrite Hne. simpl.
  by rewrite Hne.
Qed.

(** X11.  A request with a non-empty cookie [access_token] is judged on
    that cookie alone: the header [Authorization] is not looked at, even
    when the cookie is rejected and the header carries a token that would
    be accepted. *)
Theorem get_current_user_prefers_cookie (request : Request) (s : AuthState)
    (t : string) :
  assoc_get "access_token" (request_cookies request) = Some t →
  t ≠ EmptyString →
  get_current_user request s = authenticate t s.
Proof. apply get_current_user_prefers_cookie_aux. Qed.

(** X12.  Without such a cookie, a header [Authorization: Bearer t] whose
    [t] has no space is judged on [t]; an empty [t] is answered with 401
    and no token looked up. *)
Theorem get_current_user_bearer (request : Request) (s : AuthState) (t : string) :
  falsy_str (assoc_get "access_token" (request_cookies request)) = true →
  assoc_get "authorization" (headers request) = Some ("Bearer " +:+ t) →
  no_space t = true →
  get_current_user request s
  = if String.eqb t EmptyString then Raise (HTTPException 401 "Not authenticated")
    else authenticate t s.
Proof.
  intros Hc Hh Hns.
  unfold get_current_user, request_token. rewrite Hc, Hh.
  change ("Bearer " +:+ t) with
    (String "B" (String "e" (String "a" (String "r" (String "e" (String "r"
       (String " " t))))))).
  cbn -[split_on String.prefix]. 
  assert (String.prefix "Bearer "
            (String "B" (String "e" (String "a" (String "r" (String "e" (String "r"
               (String " " t))))))) = true) as ->.
  { simpl. repeat (match goal with
                   | |- context [match ?d with left _ => _ | right _ => _ end] =>
                       destruct d; [|done]
                   end). by destruct t. }
  simpl. rewrite (no_space_split t Hns). simpl. done.
Qed.

(** X13.  The two role checks and the two [RoleChecker] dependencies agree:
    [require_admin] passes exactly the roles ADMIN and MODERATOR,
    [require_super_admin] exactly ADMIN, each dependency passes exactly
    when its check does, whoever passes [require_super_admin] passes
    [require_admin], and each of the four, when it does not pass, fails
    with status 403. *)
Theorem role_checks_agree (user : Account) :
  (require_admin user = Ok tt
   ↔ role user = Some UserRole.ADMIN ∨ role user = Some UserRole.MODERATOR)
  ∧ (require_super_admin user = Ok tt ↔ role user = Some UserRole.ADMIN)
  ∧ (require_admin user = Ok tt ↔ require_admin_role user = Ok user)
  ∧ (require_super_admin user = Ok tt ↔ require_super_admin_role user = Ok user)
  ∧ (require_super_admin user = Ok tt → require_admin user = Ok tt)
  ∧ (require_admin user ≠ Ok tt →
     ∃ detail, require_admin user = Raise (HTTPException 403 detail))
  ∧ (require_super_admin user ≠ Ok tt →
     ∃ detail, require_super_admin user = Raise (HTTPException 403 detail))
  ∧ (require_admin_role user ≠ Ok user →
     ∃ detail, require_admin_role user = Raise (HTTPException 403 detail))
  ∧ (require_super_admin_role user ≠ Ok user →
     ∃ detail, require_super_admin_role user = Raise (HTTPException 403 detail)).
Proof.
  unfold require_admin, require_super_admin, require_admin_role,
    require_super_admin_role, RoleChecker, role_in.
  destruct (role user) as [[]|]; cbn; repeat split; try done;
    try (intros [|]; discriminate); try (intros; discriminate); eauto.
  all: intros H; exfalso; by apply H.
Qed.

(** X14.  [POST /admin/backup] starts a backup only for a request whose
    token resolves to a stored, active user with role ADMIN or MODERATOR;
    every other request is answered with status 401, 400 or 403 and starts
    nothing. *)
Theorem serve_create_backup_access (request : Request) (s : AuthState) :
  (∃ user, get_current_user request s = Ok user
     ∧ user ∈ accounts s ∧ is_active user = Some true
     ∧ (role user = Some UserRole.ADMIN ∨ role user = Some UserRole.MODERATOR)
     ∧ serve_create_backup request s = Ok backup_started)
  ∨ (∃ code detail, serve_create_backup request s = Raise (HTTPException code detail)
       ∧ (code = 401 ∨ code = 400 ∨ code = 403)).
Proof.
  unfold serve_create_backup.
  destruct (get_current_user_cases request s)
    as [(user & -> & Hin & Ha)|[(d & ->) | ->]]; [|right; eauto 10..].
  unfold create_backup_endpoint, require_admin, role_in.
  destruct (role user) as [[]|] eqn:Hr; simpl; [right; eauto 10| | |right; eauto 10].
  - left. exists user. rewrite Hr. eauto 10.
  - left. exists user. rewrite Hr. eauto 10.
Qed.

(** *** The login *)

Lemma first_account_Some (f : Account → bool) (j : nat) (l : list Account)
    (i : nat) (a : Account) :
  first_account f j l = Some (i, a) →
  (j ≤ i)%nat ∧ l !! (i - j)%nat = Some a ∧ f a = true.
Proof.
  revert j. induction l as [|x l IH]; intros j; simpl; [done|].
  destruct (f x) eqn:Hx.
  - intros [= <- <-]. rewrite Nat.sub_diag. done.
  - intros (Hle & Hl & Hf)%IH. split; [lia|]. split; [|done].
    replace (i - j)%nat with (S (i - S j)) by lia. done.
Qed.

(** The paths through [login]. *)
Lemma login_cases (username' password : string) (totp_code : option string)
    (s : AuthState) :
  (∃ context, login username' password totp_code s = (login_page context, s)
     ∧ assoc_get "error" context ≠ Some (PStr "Login failed"))
  ∨ ∃ i user,
      first_account (login_candidate username') 0 (accounts s) = Some (i, user)
      ∧ pwd_verify password (password_hash user) = Some true
      ∧ (two_fa_enabled user = Some true →
         ∃ c, totp_code = Some c ∧ c ≠ EmptyString
           ∧ totp_verify (auth_clock_reads s) (two_fa_secret user) c = Some true)
      ∧ let s1 :=
          {| accounts :=
               alter (λ a, set_login_attempts (Some 0)
                             (set_last_login (Some (utcnow (auth_clock_reads s))) a))
                 i (accounts s);
             auth_clock_reads := S (auth_clock_reads s) |} in
        login username' password totp_code s
        = match create_access_token
                  [("sub"%string, PStr (pretty (acc_id user)))] None s1 with
          | (Some token, s2) =>
              (RedirectResponse "/" 302
                 [ {| cookie_key := "access_token"; cookie_value := token;
                      httponly := true; secure := negb debug |} ], s2)
          | (None, s2) => (login_page [("error"%string, PStr "Login failed")], s2)
          end.
Proof.
  unfold login.
  destruct (first_account _ 0 (accounts s)) as [[i user]|] eqn:Hf.
  2:{ left. eexists. split; [done|]. simpl. discriminate. }
  unfold verify_password.
  destruct (pwd_verify password (password_hash user)) as [[]|] eqn:Hp; simpl.
  2,3: left; eexists; (split; [done|]); simpl; discriminate.
  destruct (two_fa_enabled user) as [[]|] eqn:H2; simpl.
  2,3: right; exists i, user; (split; [done|]); (split; [done|]);
       (split; [intros ?; congruence|]); done.
  destruct totp_code as [c|]; simpl.
  2:{ left. eexists. split; [done|]. simpl. discriminate. }
  destruct (String.eqb_spec c EmptyString) as [->|Hc].
  { left. eexists. split; [done|]. simpl. discriminate. }
  unfold verify_2fa_token.
  destruct (totp_verify (auth_clock_reads s) (two_fa_secret user) c) as [[]|] eqn:Ht;
    simpl.
  2,3: left; eexists; (split; [done|]); simpl; discriminate.
  right. exists i, user. split; [done|]. split; [done|]. split; [eauto|]. done.
Qed.

(** X15.  [login] answers with the redirect that sets the cookie
    [access_token] only if a stored user with that user name and role ADMIN
    or MODERATOR exists, the password verifies against its hash and, when
    its two-factor authentication is enabled, a non-empty code was given
    and verifies; that user's [last_login] is then the time of the login
    and its [login_attempts] is 0, and the cookie is HTTP-only. *)
Theorem login_redirect_requires_credentials (username' password : string)
    (totp_code : option string) (s s' : AuthState) (location : string) (code : Z)
    (cookies : list Cookie) :
  login username' password totp_code s = (RedirectResponse location code cookies, s') →
  ∃ i user token,
    accounts s !! i = Some user
    ∧ username user = Some username'
    ∧ (role user = Some UserRole.ADMIN ∨ role user = Some UserRole.MODERATOR)
    ∧ pwd_verify password (password_hash user) = Some true
    ∧ (two_fa_enabled user = Some true →
       ∃ c, totp_code = Some c ∧ c ≠ EmptyString
         ∧ totp_verify (auth_clock_reads s) (two_fa_secret user) c = Some true)
    ∧ location = "/"%string ∧ code = 302
    ∧ cookies = [ {| cookie_key := "access_token"; cookie_value := token;
                     httponly := true; secure := negb debug |} ]
    ∧ accounts s'
      = alter (λ a, set_login_attempts (Some 0)
                      (set_last_login (Some (utcnow (auth_clock_reads s))) a))
          i (accounts s).
Proof.
  intros H.
  destruct (login_cases username' password totp_code s)
    as [(ctx & Hl & _)|(i & user & Hf & Hp & H2 & Hl)].
  { rewrite Hl in H. discriminate. }
  simpl in Hl. rewrite Hl in H. clear Hl. unfold create_access_token in H.
  destruct (jwt_encode _) as [token|]; [|discriminate]. simpl in H.
  injection H as <- <- <- <-.
  apply first_account_Some in Hf as (_ & Hi & Hc). rewrite Nat.sub_0_r in Hi.
  unfold login_candidate in Hc. apply andb_true_iff in Hc as [Hu Hr].
  exists i, user, token. split; [done|]. split.
  { destruct (username user) as [u|]; [|done]. by apply String.eqb_eq in Hu as ->. }
  split.
  { unfold role_in in Hr. destruct (role user) as [[]|]; try done; eauto. }
  repeat split; done.
Qed.

(** X16.  [login] never counts a failure and never locks an account:
    whatever it is given, it leaves the number of rows, and of every row the
    credentials and [locked_until], as they were, and [login_attempts] as it
    was or at 0; and when it answers with the login page for a reason other
    than a failure after the password check, it has changed nothing. *)
Theorem login_never_counts_failures (username' password : string)
    (totp_code : option string) (s s' : AuthState) (response : Response) :
  login username' password totp_code s = (response, s') →
  length (accounts s') = length (accounts s)
  ∧ (∀ i a, accounts s !! i = Some a →
       ∃ a', accounts s' !! i = Some a' ∧ same_credentials a a'
         ∧ (login_attempts a' = login_attempts a ∨ login_attempts a' = Some 0))
  ∧ (∀ context, response = login_page context →
       assoc_get "error" context ≠ Some (PStr "Login failed") → s' = s).
Proof.
  intros H.
  assert (Hsame : ∀ a, same_credentials a a) by (intros a; by repeat split).
  destruct (login_cases username' password totp_code s)
    as [(ctx & Hl & Hne)|(i & user & Hf & Hp & H2 & Hl)].
  { rewrite Hl in H. injection H as <- <-. split; [done|]. split; [|done].
    intros i a Hi. exists a. eauto. }
  simpl in Hl. rewrite Hl in H. clear Hl. unfold create_access_token in H.
  assert (accounts s'
          = alter (λ a, set_login_attempts (Some 0)
                          (set_last_login (Some (utcnow (auth_clock_reads s))) a))
              i (accounts s)) as Hacc.
  { destruct (jwt_encode _); simpl in H; by injection H as <- <-. }
  rewrite Hacc. split; [by rewrite length_alter|]. split.
  - intros j a Hj. destruct (decide (j = i)) as [->|Hne].
    + rewrite list_lookup_alter_eq, Hj. simpl. eexists. split; [done|].
      split; [by repeat split|]. by right.
    + rewrite list_lookup_alter_ne by done. exists a. eauto.
  - intros ctx -> Hne. exfalso.
    destruct (jwt_encode _); simpl in H; [discriminate|].
    injection H as <- _. apply Hne. done.
Qed.

Lemma find_alter_first (f : Account → Account) (k : Z) (i : nat) (l : list Account)
    (a : Account) :
  l !! i = Some a → acc_id a = k → (∀ x, acc_id (f x) = acc_id x) →
  (∀ j b, l !! j = Some b → acc_id b = k → j = i) →
  find (λ x, Z.eqb (acc_id x) k) (alter f i l) = Some (f a).
Proof.
  intros Hi Hk Hf. revert i Hi. induction l as [|x l IH]; intros i Hi Huniq; [done|].
  destruct i as [|i]; simpl in *.
  - injection Hi as ->. rewrite Hf, Hk, Z.eqb_refl. done.
  - destruct (Z.eqb_spec (acc_id x) k) as [Hx|Hx].
    { by specialize (Huniq 0%nat x eq_refl Hx). }
    apply IH; [done|]. intros j b Hj Hb.
    specialize (Huniq (S j) b Hj Hb). lia.
Qed.

(** X17.  The cookie of a successful login authenticates the user who
    logged in: if ids are unique in the table, [int] reads back the
    decimal text of the ids, and the token decodes (at the time of the next
    request) to claims with the [sub] it was made from, then the next
    request that carries the cookie is answered for that user, now with
    the [last_login] of this login; unless the user is not active, in which
    case it is answered with status 400, although the login succeeded. *)
Theorem login_cookie_authenticates (username' password : string)
    (totp_code : option string) (s s' : AuthState) (location : string) (code : Z)
    (cookie : Cookie) (request : Request) :
  login username' password totp_code s
    = (RedirectResponse location code [cookie], s') →
  (∀ i j a b, accounts s !! i = Some a → accounts s !! j = Some b →
              acc_id a = acc_id b → i = j) →
  (∀ a, a ∈ accounts s → int_of_str (pretty (acc_id a)) = Some (acc_id a)) →
  (∀ claims, jwt_encode claims = Some (cookie_value cookie) →
     ∃ payload, jwt_decode (auth_clock_reads s') (cookie_value cookie) = Some payload
       ∧ truthy payload = true
       ∧ py_get payload "sub" PNone = py_get (PDict claims) "sub" PNone) →
  assoc_get "access_token" (request_cookies request) = Some (cookie_value cookie) →
  cookie_value cookie ≠ EmptyString →
  ∃ user, user ∈ accounts s' ∧ username user = Some username'
    ∧ last_login user = Some (utcnow (auth_clock_reads s))
    ∧ get_current_user request s'
      = if column_true (is_active user) then Ok user
        else Raise (HTTPException 400 "Inactive user").
Proof.
  intros H Huniq Hint Hjwt Hc Hne.
  rewrite (get_current_user_prefers_cookie_aux request s' _ Hc Hne).
  destruct (login_cases username' password totp_code s)
    as [(ctx & Hl & _)|(i & user & Hf & Hp & H2 & Hl)].
  { rewrite Hl in H. discriminate. }
  simpl in Hl. rewrite Hl in H. clear Hl. unfold create_access_token in H.
  destruct (jwt_encode _) as [token|] eqn:He; [|discriminate]. simpl in H.
  injection H as <- <- <- <-. simpl in *.
  apply first_account_Some in Hf as (_ & Hi & Hcand). rewrite Nat.sub_0_r in Hi.
  set (f := λ a, set_login_attempts (Some 0)
                   (set_last_login (Some (utcnow (auth_clock_reads s))) a)).
  exists (f user). split.
  { apply list_elem_of_lookup. exists i. by rewrite list_lookup_alter_eq, Hi. }
  split.
  { unfold login_candidate in Hcand. apply andb_true_iff in Hcand as [Hu _]. simpl.
    destruct (username user) as [u|]; [|done]. by apply String.eqb_eq in Hu as ->. }
  split; [done|].
  unfold authenticate, get_user_from_token, verify_token. simpl.
  destruct (Hjwt _ He) as (payload & -> & -> & ->). simpl.
  unfold dict_update, py_get. simpl.
  pose proof (pretty_Z_nonempty (acc_id user)) as Hpne.
  apply String.eqb_neq in Hpne.
  unfold truthy. rewrite Hpne. simpl.
  rewrite Hint by (apply list_elem_of_lookup; eauto).
  unfold query_user_by_id. simpl.
  rewrite (find_alter_first f (acc_id user) i (accounts s) user); try done.
  - simpl. by destruct (is_active user) as [[]|].
  - intros j b Hj Hb. by apply (Huniq j i b user).
Qed.

End AuthVerification.

(** ** The text helpers of the bot *)

Section TextVerification.
Context `{TX : Text}.

Lemma string_app_cons (c : ascii) (s t : string) :
  String c s +:+ t = String c (s +:+ t).
Proof. done. Qed.

Lemma string_app_nil_l (t : string) : EmptyString +:+ t = t.
Proof. done. Qed.

Lemma replace_char_app (old : ascii) (new a b : string) :
  replace_char old new (a +:+ b) = replace_char old new a +:+ replace_char old new b.
Proof.
  induction a as [|c a IH]; [done|].
  rewrite string_app_cons. cbn [replace_char]. rewrite IH.
  destruct (Ascii.eqb c old); [|done].
  by rewrite string_app_assoc.
Qed.

Lemma escape_html_cons (c : ascii) (s : string) :
  escape_html (PStr (String c s)) = escape_char c +:+ escape_html (PStr s).
Proof.
  unfold escape_html, escape_char. cbn [replace_char].
  destruct (Ascii.eqb_spec c "&") as [->|H1].
  { rewrite !replace_char_app. done. }
  cbn [replace_char].
  destruct (Ascii.eqb_spec c "<") as [->|H2].
  { rewrite !replace_char_app. done. }
  cbn [replace_char].
  destruct (Ascii.eqb_spec c ">") as [->|H3].
  { rewrite !replace_char_app. done. }
  cbn [replace_char].
  destruct (Ascii.eqb_spec c "034") as [->|H4].
  { rewrite !replace_char_app. done. }
  cbn [replace_char].
  destruct (Ascii.eqb_spec c "'") as [->|H5]; done.
Qed.

Lemma string_forall_app (f : ascii → bool) (a b : string) :
  string_forall f (a +:+ b) = string_forall f a && string_forall f b.
Proof.
  induction a as [|c a IH]; [done|].
  rewrite string_app_cons. cbn [string_forall]. rewrite IH. by rewrite andb_assoc.
Qed.

(** X18.  The text [escape_html] makes of a string holds none of the
    characters [<], [>], double quote and apostrophe. *)
Theorem escape_html_no_markup (s : string) :
  string_forall (λ c, negb (markup_char c)) (escape_html (PStr s)) = true.
Proof.
  induction s as [|c s IH]; [done|].
  rewrite escape_html_cons, string_forall_app, IH, andb_true_r.
  unfold escape_char, markup_char.
  destruct (Ascii.eqb_spec c "&") as [->|H1]; [done|].
  destruct (Ascii.eqb_spec c "<") as [->|H2]; [done|].
  destruct (Ascii.eqb_spec c ">") as [->|H3]; [done|].
  destruct (Ascii.eqb_spec c "034") as [->|H4]; [done|].
  destruct (Ascii.eqb_spec c "'") as [->|H5]; [done|].
  cbn [string_forall]. rewrite andb_true_r.
  apply Ascii.eqb_neq in H2, H3, H4, H5. by rewrite H2, H3, H4, H5.
Qed.

Ltac escape_cases c :=
  unfold escape_char;
  destruct (Ascii.eqb_spec c "&") as [->|?];
  [|destruct (Ascii.eqb_spec c "<") as [->|?];
    [|destruct (Ascii.eqb_spec c ">") as [->|?];
      [|destruct (Ascii.eqb_spec c "034") as [->|?];
        [|destruct (Ascii.eqb_spec c "'") as [->|?]]]]].

Lemma escape_html_inj (s1 s2 : string) :
  escape_html (PStr s1) = escape_html (PStr s2) → s1 = s2.
Proof.
  revert s2. induction s1 as [|c1 s1 IH]; intros [|c2 s2]; [done| | |].
  - rewrite escape_html_cons. escape_cases c2; discriminate.
  - rewrite escape_html_cons. escape_cases c1; discriminate.
  - rewrite !escape_html_cons.
    escape_cases c1; escape_cases c2; intros H; cbv [String.append] in H;
      simplify_eq; f_equal; by apply IH.
Qed.

(** X19.  [escape_html] loses nothing: two different strings are escaped
    to two different texts. *)
Theorem escape_html_distinct (s1 s2 : string) :
  s1 ≠ s2 → escape_html (PStr s1) ≠ escape_html (PStr s2).
Proof. intros Hne H. by apply Hne, escape_html_inj. Qed.

(** *** [truncate_text] *)

Lemma str_len_app (a b : string) : str_len (a +:+ b) = (str_len a + str_len b)%nat.
Proof.
  induction a as [|c a IH]; [done|].
  rewrite string_app_cons. cbn [str_len]. rewrite IH. by destruct (is_continuation c).
Qed.

Lemma str_len_take (k : nat) (s : string) :
  str_len (str_take k s) = (k `min` str_len s)%nat.
Proof.
  revert k. induction s as [|c s IH]; intros k; cbn [str_take str_len]; [lia|].
  destruct (is_continuation c) eqn:Hc.
  - cbn [str_len]. by rewrite Hc, IH.
  - destruct k as [|k]; cbn [str_len]; [done|]. rewrite Hc, IH. lia.
Qed.

(** X20.  What [truncate_text] returns is no longer than [max_length]
    exactly when the text was not, or [max_length] is at least 3: for a
    longer text and a [max_length] below 3 the result is longer than asked
    for (the three dots alone are). *)
Theorem truncate_text_length (text : string) (max_length : Z) :
  Z.of_nat (str_len (truncate_text text max_length)) ≤ max_length
  ↔ Z.of_nat (str_len text) ≤ max_length ∨ 3 ≤ max_length.
Proof.
  unfold truncate_text.
  destruct (Z.leb_spec (Z.of_nat (str_len text)) max_length) as [Hle|Hgt].
  { split; [by left|done]. }
  rewrite str_len_app. change (str_len "...") with 3%nat.
  unfold slice_to. destruct (Z.ltb_spec (max_length - 3) 0) as [Hneg|Hpos];
    rewrite str_len_take; lia.
Qed.

(** *** [parse_callback_data] *)

Lemma join_cons (sep p : string) (ps : list string) :
  ps ≠ [] → join sep (p :: ps) = p +:+ sep +:+ join sep ps.
Proof. by destruct ps. Qed.

(** Joining the parts of a split gives the string back. *)
Lemma join_split_on (sep : ascii) (s : string) :
  join (String sep EmptyString) (split_on sep s) = s.
Proof.
  induction s as [|c s IH]; [done|]. cbn [split_on].
  destruct (split_on_cons sep s) as (p & ps & Hp). rewrite Hp in *.
  destruct (Ascii.eqb_spec c sep) as [->|Hne].
  - rewrite join_cons by done. by rewrite IH.
  - destruct ps as [|q ps].
    + simpl in *. by rewrite IH.
    + rewrite join_cons in * by done. rewrite string_app_cons. by rewrite IH.
Qed.

(** No part of a split holds the separator. *)
Lemma split_on_parts (sep : ascii) (s : string) :
  Forall (λ p, string_forall (λ c, negb (Ascii.eqb c sep)) p = true) (split_on sep s).
Proof.
  induction s as [|c s IH]; cbn [split_on]; [by repeat constructor|].
  destruct (split_on_cons sep s) as (p & ps & Hp). rewrite Hp in *.
  apply Forall_cons in IH as [Hp' Hps].
  destruct (Ascii.eqb c sep) eqn:Hc.
  - by repeat constructor.
  - constructor; [|done]. cbn [string_forall]. by rewrite Hc, Hp'.
Qed.

(** X21.  [parse_callback_data] splits at the underscores and loses
    nothing but one distinction: the action, the type and the parameters
    hold no underscore, and joined with underscores they give the callback
    data back, except for data without underscore, which come back as the
    action alone (with an empty type, as for the same data followed by one
    underscore). *)
Theorem parse_callback_data_round_trip (callback_data : string) :
  ∃ action type' params,
    parse_callback_data callback_data
    = PDict [ ("action"%string, PStr action); ("type"%string, PStr type');
              ("params"%string, PList (map PStr params)) ]
    ∧ Forall (λ p, string_forall (λ c, negb (Ascii.eqb c "_")) p = true)
        (action :: type' :: params)
    ∧ (callback_data = join "_" (action :: type' :: params)
       ∨ (callback_data = action ∧ type' = EmptyString ∧ params = [])).
Proof.
  unfold parse_callback_data.
  pose proof (join_split_on "_" callback_data) as Hjoin.
  pose proof (split_on_parts "_" callback_data) as Hparts.
  destruct (split_on "_" callback_data) as [|a [|b rest]] eqn:Hs.
  - destruct (split_on_cons "_" callback_data) as (p & ps & Hp). congruence.
  - simpl in *. subst a. exists callback_data, EmptyString, []. split; [done|].
    split; [|by right]. apply Forall_cons in Hparts as [Ha _]. by repeat constructor.
  - exists a, b, rest. split.
    { cbn [length Nat.leb Nat.ltb]. simpl. by destruct rest. }
    split; [done|]. left. done.
Qed.

End TextVerification.

(** ** More on the digital delivery *)

Section DeliveryVerification.
Context `{RT : Runtime}.

Lemma for_each_app {A} (l1 l2 : list A) (body : A → M unit) (w : World) :
  for_each (l1 ++ l2) body w
  = match for_each l1 body w with
    | (Ok _, w1) => for_each l2 body w1
    | (Raise e, w1) => (Raise e, w1)
    end.
Proof.
  revert w. induction l1 as [|x l1 IH]; intros w; simpl; [by destruct (for_each _ _ _) as [[[]|]]|].
  unfold bind. destruct (body x w) as [[[]|e] w1]; [|done]. apply IH.
Qed.

(** A line item without product stops the loop. *)
Lemma process_item_no_product (j : nat) (w : World) (it : OrderItem) :
  order_items (session w) !! j = Some it →
  product_of (session w) it = None →
  process_item j w = (Raise AttributeError, w).
Proof.
  intros Hit Hprod. destruct w as [st se cr ud cl]; simpl in *.
  unfold product_of in Hprod. unfold process_item.
  destruct (product_id it) as [pid|] eqn:Hpid; by exec.
Qed.

(** X22.  A line item that fails cuts the delivery short.  When the line
    items of the order are, in table order, [pre], then an item [j] that
    has no product, or whose digital product has an expiry that [datetime]
    cannot hold, then [post], the handler still returns normally and
    stores nothing; the items of [pre] are served as usual, and [j] and
    all the items of [post] are left as they were, the digital ones
    included. *)
Theorem process_digital_delivery_stops_at_failing_item (order : Z) (w : World)
    (pre post : list nat) (j : nat) (itj : OrderItem) :
  items_from order 0 (order_items (session w)) = pre ++ j :: post →
  (∀ i, i ∈ pre → ∃ it product,
       order_items (session w) !! i = Some it
       ∧ product_of (session w) it = Some product
       ∧ (product_type product = ProductType.DIGITAL →
          ∀ k, (clock_reads w ≤ k < clock_reads w + length pre)%nat →
               ∃ e, expiry_date (utcnow k) product = Ok e)) →
  order_items (session w) !! j = Some itj →
  (product_of (session w) itj = None
   ∨ ∃ product, product_of (session w) itj = Some product
       ∧ product_type product = ProductType.DIGITAL
       ∧ ∀ k, (clock_reads w ≤ k ≤ clock_reads w + length pre)%nat →
              ∃ e, expiry_date (utcnow k) product = Raise e) →
  ∃ w', _process_digital_delivery order w = (Ok tt, w')
    ∧ store w' = store w
    ∧ (∀ i, i ∈ j :: post →
         order_items (session w') !! i = order_items (session w) !! i)
    ∧ (∀ i it product, i ∈ pre → order_items (session w) !! i = Some it →
         product_of (session w) it = Some product → item_outcome w w' i it product).
Proof.
  intros Hitems Hpre Hj Hfail. unfold _process_digital_delivery.
  set (w0 := set_calls (λ l, l ++ [Called_process_digital_delivery order]) w).
  assert (called (Called_process_digital_delivery order) w = (Ok tt, w0)) as Hc by done.
  assert (session w0 = session w) as Hse by (by destruct w).
  assert (clock_reads w0 = clock_reads w) as Hcl by (by destruct w).
  pose proof (NoDup_items_from order 0 (order_items (session w))) as Hnd.
  rewrite Hitems in Hnd. apply NoDup_app in Hnd as (Hnd1 & Hdisj & Hnd2).
  destruct (for_each_process_item_spec pre w0 Hnd1) as (w1 & Hloop & Hfr & Hclk & Hspec).
  { intros i Hi. rewrite Hse, Hcl. by apply Hpre. }
  assert (Hkeep : ∀ i, i ∈ j :: post →
            order_items (session w1) !! i = order_items (session w) !! i).
  { intros i Hi.
    assert (i ∈ items_from order 0 (order_items (session w))) as Hin.
    { rewrite Hitems. apply elem_of_app. by right. }
    apply elem_of_items_from in Hin as (_ & it & Hit & _). rewrite Nat.sub_0_r in Hit.
    rewrite Hit. apply (Hspec i it); [by rewrite Hse|].
    intros Hip. by apply (Hdisj i). }
  destruct Hfr as (Hst & _ & _ & _ & Hprods & _ & _ & _ & Hmono).
  assert (∃ e wj, process_item j w1 = (Raise e, wj) ∧ store wj = store w1
                  ∧ session wj = session w1
                  ∧ (clock_reads w1 ≤ clock_reads wj)%nat)
    as (e & wj & Hrun & Hstj & Hsej & Hclj).
  { destruct Hfail as [Hnone|(product & Hprod & Hd & Hexp)].
    - exists AttributeError, w1. split; [|by repeat split].
      apply (process_item_no_product j w1 itj).
      + rewrite Hkeep by (by left). done.
      + unfold product_of in *. by rewrite Hprods, Hse.
    - destruct (Hexp (clock_reads w1)) as [e He]; [lia|].
      exists OverflowError, (set_clock_reads S w1).
      split; [|destruct w1; simpl; repeat split; lia].
      apply (process_item_overflow j w1 itj product e); try done.
      + rewrite Hkeep by (by left). done.
      + unfold product_of in *. by rewrite Hprods, Hse. }
  exists wj. split.
  { unfold bind at 1. rewrite Hc. unfold try_except, bind at 1, order_items_of, bind at 1.
    cbn [get_world ret]. rewrite Hse, Hitems. unfold bind.
    rewrite for_each_app, Hloop. cbn [for_each]. unfold bind.
    by rewrite Hrun. }
  rewrite Hstj, Hsej.
  split; [by rewrite Hst; destruct w|]. split; [done|]. clear Hstj.
  intros i it product Hi Hit Hprod.
  assert (item_outcome w0 w1 i it product) as Hres.
  { apply Hspec; by rewrite ?Hse. }
  unfold item_outcome in *. rewrite Hsej.
  destruct (bool_decide (product_type product = ProductType.DIGITAL)); [|done].
  destruct Hres as (k & n & Hk & Hres). exists k, n.
  split; [lia|done].
Qed.

(** The loop again, now counting the uuids it draws: every line item of a
    digital product with a file gets the token of a draw of its own. *)
Lemma for_each_process_item_draws (idxs : list nat) (w : World) :
  NoDup idxs →
  (∀ j, j ∈ idxs → ∃ it product,
      order_items (session w) !! j = Some it
      ∧ product_of (session w) it = Some product
      ∧ (product_type product = ProductType.DIGITAL →
         ∀ k, (clock_reads w ≤ k < clock_reads w + length idxs)%nat →
              ∃ e, expiry_date (utcnow k) product = Ok e)) →
  ∃ w' (draw : nat → nat),
    for_each idxs process_item w = (Ok tt, w')
    ∧ (uuid_draws w ≤ uuid_draws w')%nat
    ∧ products (session w') = products (session w)
    ∧ (∀ j, j ∉ idxs → order_items (session w') !! j = order_items (session w) !! j)
    ∧ (∀ j it product, j ∈ idxs →
         order_items (session w) !! j = Some it →
         product_of (session w) it = Some product →
         product_type product = ProductType.DIGITAL → has_file product = true →
         (uuid_draws w ≤ draw j < uuid_draws w')%nat
         ∧ ∃ k, order_items (session w') !! j
                = Some (delivered (utcnow k) (uuid4_hex (draw j)) product it))
    ∧ (∀ j1 j2 it1 it2 p1 p2, j1 ∈ idxs → j2 ∈ idxs → j1 ≠ j2 →
         order_items (session w) !! j1 = Some it1 →
         product_of (session w) it1 = Some p1 →
         product_type p1 = ProductType.DIGITAL → has_file p1 = true →
         order_items (session w) !! j2 = Some it2 →
         product_of (session w) it2 = Some p2 →
         product_type p2 = ProductType.DIGITAL → has_file p2 = true →
         draw j1 ≠ draw j2).
Proof.
  revert w. induction idxs as [|j0 rest IH]; intros w Hnd Hall.
  - exists w, (λ _, 0%nat). split; [done|]. split; [done|]. split; [done|].
    split; [done|]. split; intros; by exfalso; eapply elem_of_nil.
  - apply NoDup_cons in Hnd as [Hj0 Hnd].
    destruct (Hall j0) as (it0 & prod0 & Hit0 & Hprod0 & Hexp0); [by left|].
    assert (∃ w1, process_item j0 w = (Ok tt, w1)
              ∧ (clock_reads w ≤ clock_reads w1 ≤ S (clock_reads w))%nat
              ∧ products (session w1) = products (session w)
              ∧ (∀ j, j ≠ j0 → order_items (session w1) !! j = order_items (session w) !! j)
              ∧ (uuid_draws w ≤ uuid_draws w1)%nat
              ∧ (product_type prod0 = ProductType.DIGITAL → has_file prod0 = true →
                 uuid_draws w1 = S (uuid_draws w)
                 ∧ order_items (session w1) !! j0
                   = Some (delivered (utcnow (clock_reads w)) (uuid4_hex (uuid_draws w))
                             prod0 it0)))
      as (w1 & Hrun & Hclk & Hprods & Hother & Hmono & Hj0').
    { destruct (decide (product_type prod0 = ProductType.DIGITAL)) as [Hd|Hd].
      - destruct (Hexp0 Hd (clock_reads w)) as [e0 He0]; [simpl; lia|].
        eexists. split; [by eapply (process_item_digital _ _ _ _ e0)|]. simpl.
        split; [lia|].
        split; [done|]. split; [intros j Hne; by rewrite list_lookup_alter_ne|].
        split; [destruct (has_file prod0); lia|].
        intros _ ->. split; [done|]. by rewrite list_lookup_alter_eq, Hit0.
      - exists w. split; [by eapply process_item_physical|]. split; [lia|].
        split; [done|]. split; [done|]. split; [lia|]. intros H. done. }
    destruct (IH w1 Hnd) as (w' & draw' & Hloop & Hmono' & Hprods' & Hout & Hin & Hdist).
    { intros j Hj. destruct (Hall j) as (it & product & Hit & Hprod & Hexp); [by right|].
      exists it, product. rewrite Hother by (intros ->; done). split; [done|].
      split; [unfold product_of in *; by rewrite Hprods|].
      intros Hd k Hk. apply (Hexp Hd). simpl. lia. }
    assert (Hpo : ∀ it, product_of (session w1) it = product_of (session w) it).
    { intros it. unfold product_of. by rewrite Hprods. }
    exists w', (λ j, if decide (j = j0) then uuid_draws w else draw' j).
    split; [simpl; unfold bind; by rewrite Hrun|].
    split; [lia|]. split; [congruence|]. split.
    { intros j Hj. apply not_elem_of_cons in Hj as [Hne Hj].
      rewrite Hout by done. by apply Hother. }
    split.
    + intros j it product Hj Hit Hprod Hd Hf. apply elem_of_cons in Hj as [->|Hj].
      * rewrite decide_True by done.
        assert (it = it0) as -> by congruence.
        assert (product = prod0) as -> by congruence.
        destruct (Hj0' Hd Hf) as [Hud Hres]. split; [lia|].
        exists (clock_reads w). rewrite Hout by done. done.
      * assert (j ≠ j0) as Hne by (intros ->; done).
        rewrite decide_False by done.
        destruct (Hin j it product Hj) as [Hrange Hres]; try done.
        { by rewrite Hother. } { by rewrite Hpo. }
        split; [lia|done].
    + intros j1 j2 it1 it2 p1 p2 Hj1 Hj2 Hne Hit1 Hp1 Hd1 Hf1 Hit2 Hp2 Hd2 Hf2.
      apply elem_of_cons in Hj1 as [->|Hj1]; apply elem_of_cons in Hj2 as [->|Hj2].
      * done.
      * rewrite decide_True by done.
        assert (j2 ≠ j0) as Hne2 by (intros ->; done).
        rewrite decide_False by done.
        assert (it1 = it0) as -> by congruence.
        assert (p1 = prod0) as -> by congruence.
        destruct (Hj0' Hd1 Hf1) as [Hud _].
        destruct (Hin j2 it2 p2 Hj2) as [Hrange _]; try done.
        { by rewrite Hother. } { by rewrite Hpo. }
        lia.
      * rewrite (decide_True (P := j0 = j0)) by done.
        assert (j1 ≠ j0) as Hne1 by (intros ->; done).
        rewrite decide_False by done.
        assert (it2 = it0) as -> by congruence.
        assert (p2 = prod0) as -> by congruence.
        destruct (Hj0' Hd2 Hf2) as [Hud _].
        destruct (Hin j1 it1 p1 Hj1) as [Hrange _]; try done.
        { by rewrite Hother. } { by rewrite Hpo. }
        lia.
      * assert (j1 ≠ j0) as Hne1 by (intros ->; done).
        assert (j2 ≠ j0) as Hne2 by (intros ->; done).
        rewrite !decide_False by done.
        apply (Hdist j1 j2 it1 it2 p1 p2); try done;
          by rewrite ?Hother, ?Hpo.
Qed.

(** X23.  On an order all of whose line items have a product, whose
    digital products have an expiry that [datetime] can hold (the
    configured days, or 30, after any of the readings of the clock the
    handler can make), and with a uuid source that does not repeat itself,
    no two line items share a download token: two different line items of
    the order whose products are digital and have a file each end with one
    link, and the tokens of the two links differ. *)
Theorem process_digital_delivery_tokens_distinct (order : Z) (w : World) :
  (∀ j it, order_items (session w) !! j = Some it →
           item_order_id it = Some order → is_Some (product_of (session w) it)) →
  (∀ j it product k,
      order_items (session w) !! j = Some it → item_order_id it = Some order →
      product_of (session w) it = Some product →
      product_type product = ProductType.DIGITAL →
      (clock_reads w ≤ k < clock_reads w + length (order_items (session w)))%nat →
      ∃ e, expiry_date (utcnow k) product = Ok e) →
  (∀ a b, uuid4_hex a = uuid4_hex b → a = b) →
  ∃ w', _process_digital_delivery order w = (Ok tt, w')
    ∧ ∀ j1 j2 it1 it2 p1 p2, j1 ≠ j2 →
        order_items (session w) !! j1 = Some it1 → item_order_id it1 = Some order →
        product_of (session w) it1 = Some p1 →
        product_type p1 = ProductType.DIGITAL → has_file p1 = true →
        order_items (session w) !! j2 = Some it2 → item_order_id it2 = Some order →
        product_of (session w) it2 = Some p2 →
        product_type p2 = ProductType.DIGITAL → has_file p2 = true →
        ∃ it1' it2' l1 l2,
          order_items (session w') !! j1 = Some it1' ∧ download_links it1' = Some [l1]
          ∧ order_items (session w') !! j2 = Some it2' ∧ download_links it2' = Some [l2]
          ∧ token l1 ≠ token l2.
Proof.
  intros Hall Hrange Hinj. unfold _process_digital_delivery.
  set (w0 := set_calls (λ l, l ++ [Called_process_digital_delivery order]) w).
  assert (called (Called_process_digital_delivery order) w = (Ok tt, w0)) as Hc by done.
  assert (session w0 = session w) as Hse by (by destruct w).
  assert (Hin : ∀ j, j ∈ items_from order 0 (order_items (session w0)) ↔
                 ∃ it, order_items (session w) !! j = Some it
                       ∧ item_order_id it = Some order).
  { intros j. rewrite elem_of_items_from, Nat.sub_0_r, Hse.
    split; [by intros [_ H]|]. intros H. split; [lia|done]. }
  destruct (for_each_process_item_draws
              (items_from order 0 (order_items (session w0))) w0)
    as (w' & draw & Hloop & _ & _ & _ & Hspec & Hdist).
  { apply NoDup_items_from. }
  { intros j (it & Hit & Ho)%Hin. destruct (Hall j it Hit Ho) as [product Hp].
    exists it, product. rewrite Hse. split; [done|]. split; [done|].
    intros Hd k Hk. apply (Hrange j it product k Hit Ho Hp Hd).
    pose proof (length_items_from order 0 (order_items (session w0))).
    rewrite Hse in *. assert (clock_reads w0 = clock_reads w) as Hcl by (by destruct w).
    rewrite Hcl in Hk. lia. }
  exists w'. split.
  { unfold bind at 1. rewrite Hc. unfold try_except, bind at 1, order_items_of, bind at 1.
    cbn [get_world ret]. unfold bind. rewrite Hloop. done. }
  intros j1 j2 it1 it2 p1 p2 Hne Hit1 Ho1 Hp1 Hd1 Hf1 Hit2 Ho2 Hp2 Hd2 Hf2.
  assert (j1 ∈ items_from order 0 (order_items (session w0))) as Hj1 by (apply Hin; eauto).
  assert (j2 ∈ items_from order 0 (order_items (session w0))) as Hj2 by (apply Hin; eauto).
  rewrite <- Hse in Hit1, Hp1, Hit2, Hp2.
  destruct (Hspec j1 it1 p1 Hj1 Hit1 Hp1 Hd1 Hf1) as [_ [k1 Hr1]].
  destruct (Hspec j2 it2 p2 Hj2 Hit2 Hp2 Hd2 Hf2) as [_ [k2 Hr2]].
  pose proof (Hdist j1 j2 it1 it2 p1 p2 Hj1 Hj2 Hne Hit1 Hp1 Hd1 Hf1 Hit2 Hp2 Hd2 Hf2)
    as Hdraw.
  unfold has_file in Hf1, Hf2.
  eexists _, _, _, _. split; [exact Hr1|]. split.
  { unfold delivered. simpl. destruct (digital_file_url p1); [|done]. by rewrite Hf1. }
  split; [exact Hr2|]. split.
  { unfold delivered. simpl. destruct (digital_file_url p2); [|done]. by rewrite Hf2. }
  simpl. intros Heq. by apply Hdraw, Hinj.
Qed.

End DeliveryVerification.

(** ** Discount and shipping *)

Section DiscountVerification.
Context `{RT : Runtime} `{TX : Text}.

Lemma SFltb_irrefl (x : float) : SFltb x x = false.
Proof.
  destruct x as [s|s| |s m e]; try done.
  - by destruct s.
  - unfold SFltb, SFcompare. rewrite Z.compare_refl.
    rewrite Pos.compare_cont_refl. by destruct s.
Qed.

Lemma SFleb_zero_not_lt (x : float) :
  SFleb float_zero x = true → SFltb x float_zero = false.
Proof. destruct x as [s|[]| |[] m e]; done. Qed.

(** [min(a, b)] is never above [b]. *)
Lemma float_min_not_above (a b : float) : SFltb b (float_min a b) = false.
Proof.
  unfold float_min. destruct (SFltb b a) eqn:H; [apply SFltb_irrefl|done].
Qed.

(** X24.  The discount [calculate_discount] returns for a subtotal that
    is not negative is never above the subtotal, whatever the table of
    codes holds (a percentage over 100, a fixed amount larger than the
    order) and whatever fails on the way. *)
Theorem calculate_discount_at_most_subtotal (codes : list DiscountCode.t) (k : nat)
    (subtotal : float) (discount_code : string) :
  SFleb float_zero subtotal = true →
  SFltb subtotal (calculate_discount codes k subtotal discount_code) = false.
Proof.
  intros Hpos. pose proof (SFleb_zero_not_lt _ Hpos) as Hzero.
  unfold calculate_discount.
  destruct (find _ codes) as [discount|]; [|done].
  destruct (match DiscountCode.valid_from discount with
            | Some vf => datetime_lt _ vf | None => Some false end) as [[]|];
    simpl; try done.
  destruct (match DiscountCode.valid_until discount with
            | Some vu => datetime_lt vu _ | None => Some false end) as [[]|];
    simpl; try done.
  destruct (match DiscountCode.minimum_amount discount with
            | Some m => float_truthy m && SFltb subtotal m | None => false end);
    simpl; try done.
  destruct (match DiscountCode.usage_limit discount with
            | Some limit => _ | None => Some false end) as [[]|];
    simpl; try done.
  destruct (String.eqb (DiscountCode.type discount) "percentage"); simpl;
    [apply float_min_not_above|].
  destruct (String.eqb (DiscountCode.type discount) "fixed_amount"); simpl;
    [apply float_min_not_above|done].
Qed.

End DiscountVerification.

Lemma sum_terms_fails (acc : number) (items : list pyval) (item : pyval) :
  item ∈ items → shipping_term item = None → sum_terms acc items = None.
Proof.
  intros Hin Hnone. revert acc.
  induction items as [|x items IH]; intros acc; [by apply elem_of_nil in Hin|].
  apply elem_of_cons in Hin as [<-|Hin]; cbn [sum_terms].
  - by rewrite Hnone.
  - destruct (shipping_term x) as [t|]; [|done]. simpl.
    destruct (num_add acc t) as [acc'|]; [|done]. simpl. by apply IH.
Qed.

(** X25.  One item without quantity makes the shipping free:
    [calculate_shipping] returns [0.0] for every list of items one of which
    is not a dict or has no key [quantity], whatever the other items
    weigh. *)
Theorem calculate_shipping_item_without_quantity (items : list pyval) (item : pyval) :
  item ∈ items → py_getitem item "quantity" = None →
  calculate_shipping items = float_zero.
Proof.
  intros Hin Hq. unfold calculate_shipping.
  rewrite (sum_terms_fails _ items item Hin); [done|].
  unfold shipping_term. destruct (py_get item "weight" (PInt 0)); [|done].
  by rewrite Hq.
Qed.

(** ** The cart of the bot *)

Section BotVerification.
Context `{RT : Runtime} `{TX : Text} `{BR : BotRuntime} {T : Type}.

Lemma assoc_get_identity (text : string) (table : list (string * string)) :
  Forall (λ kv, fst kv = snd kv) table →
  match assoc_get text table with
  | Some translated => translated
  | None => text
  end = text.
Proof.
  induction 1 as [|[k v] table Hkv _ IH]; [done|]. simpl in *.
  destruct (String.eqb text k) eqn:E; [|done].
  apply String.eqb_eq in E. congruence.
Qed.

(** X26.  Only Lithuanian changes a text: for every other language, known
    or not, and for no language at all, [translate_text] returns the text
    it was given. *)
Theorem translate_text_changes_only_lithuanian (text : string) (language : option string) :
  language ≠ Some "lt"%string → translate_text text language = text.
Proof.
  intros Hlt. destruct language as [l|]; [|done].
  unfold translate_text, TRANSLATIONS. simpl.
  destruct (String.eqb l "en") eqn:Een.
  { apply assoc_get_identity. repeat constructor. }
  destruct (String.eqb l "lt") eqn:Elt; [|done].
  apply String.eqb_eq in Elt. congruence.
Qed.

Lemma dict_get_str_int_keys {V} (k : string) (d : list (pyval * V)) :
  int_keys d → dict_get (PStr k) d = None.
Proof.
  induction 1 as [|[k' v] d [n Hn] _ IH]; [done|]. simpl in *. by subst.
Qed.

Lemma dict_set_int_keys {V} (n : Z) (v : V) (d : list (pyval * V)) :
  int_keys d → int_keys (dict_set (PInt n) v d).
Proof.
  induction 1 as [|[k' v'] d [m Hm] Hd IH]; simpl in *.
  - repeat constructor. by exists n.
  - subst. destruct (Z.eqb n m); constructor; try done; by exists m.
Qed.

Lemma get_or_create_user_frame (user : TelegramUser.t) (b : Bot T) :
  user_carts (get_or_create_user user b).2 = user_carts b
  ∧ elsewhere (get_or_create_user user b).2 = elsewhere b
  ∧ sent (get_or_create_user user b).2 = sent b.
Proof.
  unfold get_or_create_user.
  destruct (first_user _ 0%nat (bot_users b)) as [[i u]|]; [|done].
  by destruct (_ || _).
Qed.

(** With integer keys in the carts, [start_checkout] finds no cart. *)
Lemma start_checkout_int_keys create_order (telegram_user : UserObject) (b : Bot T) :
  int_keys (user_carts b) →
  ∃ text,
    start_checkout create_order telegram_user b = send (Answer (Some text) true) b
    ∧ (text = "Checkout failed. Please try again."%string
       ∨ ∃ language,
           text = translate_text "Your cart is empty. Add some products first!" language).
Proof.
  intros Hkeys. unfold start_checkout.
  destruct telegram_user as [row|]; simpl.
  - rewrite (dict_get_str_int_keys _ _ Hkeys). simpl. eauto.
  - eauto.
Qed.

Lemma send_frame (m : Message) (b : Bot T) :
  user_carts (send m b) = user_carts b ∧ elsewhere (send m b) = elsewhere b.
Proof. done. Qed.

Lemma handle_cart_action_int_keys r1 r2 (data : string) (user : TelegramUser.t) (b : Bot T) :
  int_keys (user_carts b) →
  handle_cart_action r1 data user b = handle_cart_action r2 data user b
  ∧ int_keys (user_carts (handle_cart_action r1 data user b))
  ∧ elsewhere (handle_cart_action r1 data user b) = elsewhere b.
Proof.
  intros Hkeys. unfold handle_cart_action.
  destruct (split_on "_" data !! 1%nat) as [action|]; [|done].
  pose proof (get_or_create_user_frame user (send (Answer None false) b))
    as (Hc & He & _).
  destruct (get_or_create_user user _) as [telegram_user b1]. simpl in Hc, He.
  assert (int_keys (user_carts b1)) as Hk1 by by rewrite Hc.
  destruct (String.eqb action "add").
  { destruct (_ ≫= int_of_str) as [product_id|]; [|done].
    destruct (if Nat.ltb 3 _ then _ else _) as [quantity|]; [|done].
    split; [done|].
    destruct (attr BotUser.language telegram_user); (split; [|done]); simpl;
      apply dict_set_int_keys;
      (destruct (dict_get _ (user_carts b1)); [done|by apply dict_set_int_keys]). }
  destruct (String.eqb action "checkout"); [|done].
  destruct (start_checkout_int_keys r1 telegram_user b1 Hk1) as (t1 & E1 & _).
  rewrite E1. split; [|done].
  rewrite <- E1. unfold start_checkout.
  destruct telegram_user as [row|]; simpl; [|done].
  by rewrite (dict_get_str_int_keys _ _ Hk1).
Qed.

(** X27.  No cart callback ever gets as far as creating an order.  The
    carts are filled under the integer [user.id] and looked up at checkout
    under the string [telegram_id]: from a state whose carts have integer
    keys, as [handle_cart_action] keeps them, any sequence of cart
    callbacks runs the same whatever the rest of [start_checkout] would do,
    and leaves everything outside carts, users and answers as it was. *)
Theorem checkout_never_creates_an_order r1 r2 (updates : list (string * TelegramUser.t))
    (b : Bot T) :
  int_keys (user_carts b) →
  handle_cart_actions r1 updates b = handle_cart_actions r2 updates b
  ∧ int_keys (user_carts (handle_cart_actions r1 updates b))
  ∧ elsewhere (handle_cart_actions r1 updates b) = elsewhere b.
Proof.
  revert b. induction updates as [|[data user] updates IH]; intros b Hkeys; [done|].
  simpl.
  destruct (handle_cart_action_int_keys r1 r2 data user b Hkeys) as (E & Hk & He).
  destruct (IH _ Hk) as (E' & Hk' & He').
  split; [by rewrite E', E|]. split; [done|by rewrite He'].
Qed.

(** X28.  What the user gets at checkout: whatever was added to the cart
    before, the callback [cart_checkout] is answered with the alert that
    the cart is empty (in the language of the user), or with the failure
    alert, and with nothing else. *)
Theorem checkout_answers_empty_cart create_order (user : TelegramUser.t) (b : Bot T) :
  int_keys (user_carts b) →
  ∃ text,
    sent (handle_cart_action create_order "cart_checkout" user b)
    = sent b ++ [Answer None false; Answer (Some text) true]
    ∧ (text = "Checkout failed. Please try again."%string
       ∨ ∃ language,
           text = translate_text "Your cart is empty. Add some products first!" language).
Proof.
  intros Hkeys. unfold handle_cart_action.
  change (split_on "_" "cart_checkout" !! 1%nat) with (Some "checkout"%string).
  cbv iota beta.
  pose proof (get_or_create_user_frame user (send (Answer None false) b))
    as (Hc & _ & Hs).
  destruct (get_or_create_user user _) as [telegram_user b1]. simpl in Hc, Hs.
  change (String.eqb "checkout" "add") with false.
  change (String.eqb "checkout" "checkout") with true. cbv iota.
  assert (int_keys (user_carts b1)) as Hk1 by by rewrite Hc.
  destruct (start_checkout_int_keys create_order telegram_user b1 Hk1) as (text & -> & Ht).
  exists text. split; [|done].
  simpl. rewrite Hs. by rewrite <- app_assoc.
Qed.

End BotVerification.

(** * The model on the scenario of the specification *)

Import Scenario.
#[local] Existing Instance rt.

(** The premise [reads] for a payload of the scenario with status [st]. *)
Ltac reads_of st :=
  unfold reads; split; [reflexivity|]; split; [reflexivity|];
  split; [exists (PStr st); repeat split; reflexivity|];
  split; [exists (PInt 0); split; reflexivity|];
  split; [reflexivity|]; exists (PDict []); repeat split; reflexivity.

(** [int] truncates where the specification takes the floor: on -1.5 the
    one gives -1 and the other -2 (and on 50.75 both give 50). *)
Example int_truncates_floor_rounds_down :
  int_of_float (S754_finite true 3 (-1)) = Ok (-1)
  ∧ floor_amount (S754_finite true 3 (-1)) = Some (-2)
  ∧ int_of_float (S754_finite false 203 (-2)) = Ok 50
  ∧ floor_amount (S754_finite false 203 (-2)) = Some 50.
Proof. vm_compute. done. Qed.

(** The status is looked up without regard to case; a configured 0 counts
    as not configured. *)
Example status_lookup_ignores_case :
  map_payment_status (PStr "FiNiShEd") = Ok PaymentStatus.FINISHED
  ∧ map_payment_status (PStr "Partially_Paid") = Ok PaymentStatus.PARTIALLY_PAID
  ∧ map_payment_status (PInt 7) = Raise AttributeError
  ∧ or_default (Some 0) 30 = 30 ∧ or_default (Some 7) 30 = 7 ∧ or_default None 5 = 5.
Proof. vm_compute. done. Qed.

(** The order of 50.00 is paid: status PAID, 50 points, one ledger row. *)
Example scenario_finished :
  process_ipn_callback finished w0 = (Ok true, w1)
  ∧ status <$> orders (store w1) !! 7 = Some OrderStatus.PAID
  ∧ loyalty_points <$> users (store w1) !! 1 = Some 50
  ∧ loyalty_transactions (store w1) = [awarded 7 order7 1 50].
Proof. vm_compute. done. Qed.

(** The same notification again: success, no second ledger row, the points
    stay. *)
Example scenario_redelivered :
  process_ipn_callback finished w1 = (Ok true, w2)
  ∧ loyalty_points <$> users (store w2) !! 1 = Some 50
  ∧ loyalty_transactions (store w2) = [awarded 7 order7 1 50].
Proof. vm_compute. done. Qed.

(** C1 as stated fails: for a payment in status WAITING whose order has no
    line item, a FINISHED notification sets the order to PAID and calls the
    loyalty-award handler, and does not call the digital-delivery
    handler. *)
Lemma order_without_items_gets_no_delivery_call :
  ∃ w', process_ipn_callback finished w_empty = (Ok true, w')
    ∧ payment_status <$> payments (store w_empty) !! 0%nat = Some PaymentStatus.WAITING
    ∧ status <$> orders (store w') !! 8 = Some OrderStatus.PAID
    ∧ Called_award_loyalty_points 8 ∈ calls w'
    ∧ Called_process_digital_delivery 8 ∉ calls w'.
Proof.
  eexists. split; [vm_compute; reflexivity|].
  split; [done|]. split; [vm_compute; reflexivity|].
  split.
  - apply list_elem_of_In. vm_compute. tauto.
  - rewrite list_elem_of_In. vm_compute. intuition discriminate.
Qed.


(** In the scenario itself the redelivery leaves everything but that
    timestamp as it was. *)
Example scenario_redelivery_moves_updated_at :
  store w2 ≠ store w1
  ∧ store w2 = set_payments (alter (set_updated_at (Some (utcnow 4))) 0%nat) (store w1).
Proof.
  split; [|vm_compute; reflexivity].
  intros H. apply (f_equal payments) in H. vm_compute in H. discriminate.
Qed.

(** A FINISHED notification that carries a list of transaction ids is
    refused by the database at the commit of the request, after the award
    has committed its ledger row: delivered twice, it is refused twice, the
    payment stays WAITING and the balance 0, and the ledger holds two rows
    of 50 points. *)
Example finished_with_txid_list_awards_each_time :
  process_ipn_callback finished_txids w0 = (Ok false, after finished_txids w0)
  ∧ process_ipn_callback finished_txids (after finished_txids w0)
    = (Ok false, after finished_txids (after finished_txids w0))
  ∧ payment_status <$> payments (store (after finished_txids (after finished_txids w0))) !! 0%nat
    = Some PaymentStatus.WAITING
  ∧ loyalty_points <$> users (store (after finished_txids (after finished_txids w0))) !! 1
    = Some 0
  ∧ loyalty_transactions (store (after finished_txids (after finished_txids w0)))
    = [awarded 7 order7 1 50; awarded 7 order7 1 50].
Proof. vm_compute. done. Qed.

(** C5, where the code departs from it.  The first caller has reached its
    commit (line 210) for the FINISHED notification of the scenario: the
    store still holds the payment as WAITING, and already the ledger row
    of the award.  A second caller for the same notification that starts
    now is applied, runs Fulfillment again and draws a token again: two
    ledger rows of 50 points for one order.  Where the second starts after
    the first has returned, there is one ([w2]). *)
Example concurrent_finished_fulfills_twice :
  let first :=
    commit_world PaymentStatus.FINISHED zero PNone PNone PNone 0%nat
      (payment_for 7 PaymentStatus.WAITING) w0 in
  process_ipn_callback finished w0 = (Ok true, committed first)
  ∧ payment_status <$> payments (store first) !! 0%nat = Some PaymentStatus.WAITING
  ∧ loyalty_transactions (store first) = [awarded 7 order7 1 50]
  ∧ fst (process_ipn_callback finished first) = Ok true
  ∧ loyalty_transactions (store (after finished first))
    = [awarded 7 order7 1 50; awarded 7 order7 1 50]
  ∧ fulfillment_runs (calls (after finished first)) = 2%nat
  ∧ uuid_draws (after finished first) = 2%nat
  ∧ loyalty_transactions (store w2) = [awarded 7 order7 1 50]
  ∧ fulfillment_runs (calls w2) = 1%nat.
Proof. vm_compute. done. Qed.

(** C6 as stated fails: the award handler runs on an order of 50.00 that
    has no owner and appends no ledger row. *)
Lemma order_without_owner_gets_no_ledger_row :
  ∃ w', _award_loyalty_points 9 w_orphan = (Ok tt, w')
    ∧ orders (session w_orphan) !! 9 = Some order9
    ∧ floor_amount (total_amount order9) = Some 50
    ∧ Called_award_loyalty_points 9 ∈ calls w'
    ∧ loyalty_transactions (store w') = []
    ∧ loyalty_transactions (session w') = [].
Proof.
  eexists. split; [vm_compute; reflexivity|]. split; [reflexivity|].
  split; [vm_compute; reflexivity|]. split; [|done].
  apply list_elem_of_In. vm_compute. tauto.
Qed.

(** C3 as stated fails: on a payment stored as FINISHED, a stale CONFIRMING
    is applied and the stored status becomes CONFIRMING. *)
Lemma stale_confirming_overwrites_finished :
  ∃ w' p', process_ipn_callback confirming w_finished = (Ok true, w')
    ∧ payment_status <$> payments (store w_finished) !! 0%nat
      = Some PaymentStatus.FINISHED
    ∧ payments (store w') !! 0%nat = Some p'
    ∧ payment_status p' = PaymentStatus.CONFIRMING.
Proof.
  eexists _, _. split; [vm_compute; reflexivity|]. split; [done|].
  split; [vm_compute; reflexivity|]. done.
Qed.

(** After which a FINISHED notification triggers Fulfillment a second time:
    the user of the scenario ends with 100 points and two ledger rows for
    one order. *)
Example stale_confirming_then_finished_awards_twice :
  fst (process_ipn_callback confirming w1) = Ok true
  ∧ fst (process_ipn_callback finished w1') = Ok true
  ∧ loyalty_points <$> users (store w2') !! 1 = Some 100
  ∧ loyalty_transactions (store w2') = [awarded 7 order7 1 50; awarded 7 order7 1 50].
Proof. vm_compute. done. Qed.

(** C7 as stated fails: the third line item of the order is of a digital
    product that has no file; after the handler it holds an empty list of
    links, that is no token. *)
Lemma digital_item_without_file_gets_no_token :
  ∃ w' it, _process_digital_delivery 7 w0 = (Ok tt, w')
    ∧ product_type <$> product_of (session w0) (item_of 7 3) = Some ProductType.DIGITAL
    ∧ order_items (session w0) !! 2%nat = Some (item_of 7 3)
    ∧ order_items (session w') !! 2%nat = Some it
    ∧ download_links it = Some [].
Proof.
  eexists _, _. split; [vm_compute; reflexivity|]. split; [done|]. split; [done|].
  split; [vm_compute; reflexivity|]. done.
Qed.

(** An expiry that [datetime] cannot hold stops the delivery: the second
    line item is of a product whose links are to last 3000000 days; the
    first item gets its link, the second and the third, an e-book like the
    first, get nothing. *)
Example delivery_stops_at_expiry_out_of_range :
  ∃ w' it, _process_digital_delivery 7 w_lasting = (Ok tt, w')
    ∧ order_items (session w') !! 0%nat = Some it ∧ download_links it ≠ None
    ∧ order_items (session w') !! 1%nat = Some (item_of 7 5)
    ∧ order_items (session w') !! 2%nat = Some (item_of 7 1).
Proof.
  eexists _, _. split; [vm_compute; reflexivity|]. split; [vm_compute; reflexivity|].
  split; [discriminate|]. split; vm_compute; reflexivity.
Qed.

(** C10 as stated fails: a notification with the unrecognized status
    [on_hold] and a null amount, for the payment stored as FINISHED, is
    refused, and the stored status stays FINISHED. *)
Lemma on_hold_with_null_amount_is_refused :
  map_payment_status (PStr "on_hold") = Ok PaymentStatus.PENDING
  ∧ ∃ w', process_ipn_callback on_hold_null_amount w_finished = (Ok false, w')
      ∧ payment_status <$> payments (store w_finished) !! 0%nat
        = Some PaymentStatus.FINISHED
      ∧ payment_status <$> payments (store w') !! 0%nat = Some PaymentStatus.FINISHED.
Proof.
  split; [reflexivity|]. eexists. split; [vm_compute; reflexivity|]. split; reflexivity.
Qed.

(** The payment id is compared as the database compares it: a JSON number
    finds the payment whose stored id is its decimal text, and the
    notification is applied. *)
Example numeric_payment_id_finds_the_payment :
  payment_id <$> payments (store Samples.w_numeric) !! 0%nat
  = Some (Some "5077125051"%string)
  ∧ fst (process_ipn_callback Samples.numeric_id Samples.w_numeric) = Ok true
  ∧ payment_status
      <$> payments (store (after Samples.numeric_id Samples.w_numeric)) !! 0%nat
    = Some PaymentStatus.FINISHED.
Proof. vm_compute. done. Qed.

(** C9, where the code departs from it: a validly signed notification for a
    payment id that is not stored, which the host check and the limiter let
    through, is refused by [process_ipn_callback], and the endpoint answers
    with status 200 and, as body, the array made of the error object and
    the number 400. *)
Example payment_ipn_unknown_payment_answers_200 :
  serve_payment_ipn Let_through (signed (body_of "np_unknown" "finished")) w0
  = ({| status_code := 200;
        content := PList [PDict [("status"%string, PStr "error")]; PInt 400] |},
     set_calls (λ l, l ++ [Called_process_ipn_callback]) w0).
Proof. vm_compute. reflexivity. Qed.

(** The same for a request without signature: the exception the endpoint
    raises with status 400 is caught by the endpoint itself. *)
Example payment_ipn_unsigned_answers_200 :
  fst (serve_payment_ipn Let_through (unsigned (body_of "np_123" "finished")) w0)
  = {| status_code := 200;
       content := PList [PDict [("status"%string, PStr "error");
                                ("message"%string, PStr "400: Invalid signature")];
                         PInt 500] |}.
Proof. vm_compute. reflexivity. Qed.

(** A notification that is applied is answered with status 200 as well, so
    the status code tells the gateway nothing. *)
Example payment_ipn_applied_answers_200 :
  fst (serve_payment_ipn Let_through (signed (body_of "np_123" "finished")) w0)
  = {| status_code := 200; content := PDict [("status"%string, PStr "ok")] |}.
Proof. vm_compute. reflexivity. Qed.

(** ** The theorems at the scenario *)

(** C1 at the scenario: the FINISHED notification for the WAITING payment of
    order 7, which has line items. *)
Lemma process_ipn_callback_fulfillment_trigger_witness :
  ∃ order o o1,
    pay_order_id (payment_for 7 PaymentStatus.WAITING) = Some order
    ∧ orders (store w0) !! order = Some o
    ∧ orders (store w1) !! order = Some o1
    ∧ status o1 = OrderStatus.PAID
    ∧ order_payment_status o1 = PaymentStatus.FINISHED
    ∧ calls w1 = calls w0 ++ [Called_process_ipn_callback; Called_award_loyalty_points order;
                              Called_process_digital_delivery order].
Proof.
  destruct (process_ipn_callback_fulfillment_trigger finished w0 w1
              (PStr "np_123") PaymentStatus.FINISHED zero PNone PNone PNone 0%nat
              (payment_for 7 PaymentStatus.WAITING)) as [H _].
  - vm_compute. reflexivity.
  - reads_of "finished"%string.
  - reflexivity.
  - reflexivity.
  - destruct H as (order & o & o1 & H1 & H2 & H3 & H4 & H5 & H6); [by split|].
    exists order, o, o1. repeat split; try done.
    rewrite H6. injection H1 as <-. reflexivity.
Defined.

(** C3 at the scenario: a CONFIRMING notification for the payment stored as
    FINISHED. *)
Lemma terminal_status_is_overwritten_witness :
  ∃ p1, payments (store (after confirming w_finished)) !! 0%nat = Some p1
    ∧ payment_status p1 = PaymentStatus.CONFIRMING.
Proof.
  destruct (terminal_status_is_overwritten confirming w_finished
              (after confirming w_finished)
              (PStr "np_123") PaymentStatus.CONFIRMING zero PNone PNone PNone 0%nat
              (payment_for 7 PaymentStatus.FINISHED)) as (p1 & H1 & H2 & _).
  - reflexivity.
  - vm_compute. reflexivity.
  - reads_of "confirming"%string.
  - reflexivity.
  - reflexivity.
  - exists p1. split; done.
Defined.

(** C4 at a request that carries no signature header. *)
Lemma payment_ipn_rejects_bad_signature_witness :
  ∃ e, payment_ipn (unsigned (body_of "np_123" "finished")) w0
       = (Ok (error_500 (exn_str e)), w0).
Proof.
  apply payment_ipn_rejects_bad_signature. left. reflexivity.
Defined.

(** C6 at the order of 50.00 of the scenario. *)
Lemma award_loyalty_points_floor_witness :
  ∃ w', _award_loyalty_points 7 w0 = (Ok tt, w')
    ∧ users (session w') !! 1 = Some {| loyalty_points := 50; total_spent := fifty;
                                        total_orders := 1 |}
    ∧ loyalty_transactions (store w') = [awarded 7 order7 1 50].
Proof.
  destruct (award_loyalty_points_floor 7 w0 order7) as (w' & H & _ & _ & _ & _ & Hpos).
  - reflexivity.
  - exists w'. split; [exact H|].
    destruct (Hpos 50 1 alice) as [[Hs Hst] _];
      [vm_compute; reflexivity|lia|reflexivity|reflexivity|reflexivity|].
    rewrite Hs, Hst. split; vm_compute; reflexivity.
Defined.

(** C7 at the order of the scenario: an e-book, a mug and a digital product
    without file. *)
Lemma process_digital_delivery_items_witness :
  ∃ w', _process_digital_delivery 7 w0 = (Ok tt, w')
    ∧ store w' = store w0
    ∧ item_outcome w0 w' 0 (item_of 7 1) ebook
    ∧ item_outcome w0 w' 1 (item_of 7 2) mug.
Proof.
  destruct (process_digital_delivery_items 7 w0) as (w' & H & Hst & _ & Hit).
  - intros [|[|[|j]]] it Hj _; simpl in Hj; [| | |by rewrite lookup_nil in Hj];
      injection Hj as <-; vm_compute; eauto.
  - intros [|[|[|j]]] it product k Hj _ Hp _ Hk; simpl in Hj;
      [| | |by rewrite lookup_nil in Hj];
      injection Hj as <-; vm_compute in Hp; injection Hp as <-;
      eexists; apply expiry_date_in_range;
      unfold datetime_min, datetime_max; simpl in *; lia.
  - exists w'. split; [exact H|]. split; [exact Hst|]. split.
    + apply (Hit 0%nat (item_of 7 1)); reflexivity.
    + apply (Hit 1%nat (item_of 7 2)); reflexivity.
Defined.

(** C8 at the notification for the payment id [np_unknown]. *)
Lemma process_ipn_callback_unknown_payment_witness :
  ∃ w', process_ipn_callback unknown w0 = (Ok false, w')
        ∧ store w' = store w0
        ∧ calls w' = calls w0 ++ [Called_process_ipn_callback].
Proof.
  apply process_ipn_callback_unknown_payment.
  intros key p Hk Hp. injection Hk as <-.
  apply list_elem_of_singleton in Hp as ->. reflexivity.
Defined.

(** C10 at the status [on_hold], for the payment stored as FINISHED. *)
Lemma unrecognized_status_becomes_pending_witness :
  map_payment_status (PStr "on_hold") = Ok PaymentStatus.PENDING
  ∧ ∃ w' p', process_ipn_callback on_hold w_finished = (Ok true, w')
      ∧ payments (store w') !! 0%nat = Some p'
      ∧ payment_status p' = PaymentStatus.PENDING.
Proof.
  destruct (unrecognized_status_becomes_pending "on_hold" on_hold w_finished
              (PStr "np_123") PaymentStatus.PENDING zero PNone PNone PNone 0%nat
              (payment_for 7 PaymentStatus.FINISHED)) as [Hmap Hrun].
  - discriminate.
  - reflexivity.
  - split; [exact Hmap|].
    destruct Hrun as [(w' & H & Happlied & _) _].
    + reflexivity.
    + reads_of "on_hold"%string.
    + reflexivity.
    + reflexivity.
    + destruct Happlied as (p' & Hp' & Hst'); [reflexivity|].
      exists w', p'. split; [exact H|]. split; [exact Hp'|exact Hst'].
Defined.

(** * The rest of the code on sample data *)

Import Samples.
#[local] Existing Instance tx.
#[local] Existing Instance ar.

(** X2 at a FINISHED notification for the payment of the scenario whose
    [actually_paid] is null: it is lost. *)
Lemma process_ipn_callback_refuses_unreadable_fields_witness :
  ∃ w', process_ipn_callback null_amount w0 = (Ok false, w')
    ∧ store w' = store w0
    ∧ calls w' = calls w0 ++ [Called_process_ipn_callback].
Proof.
  apply process_ipn_callback_refuses_unreadable_fields.
  right. left. exists PNone, TypeError. split; reflexivity.
Defined.

(** X3 at an order that has no owner. *)
Lemma award_loyalty_points_swallows_failures_witness :
  _award_loyalty_points 9 w_orphan
  = (Ok tt, set_calls (λ l, l ++ [Called_award_loyalty_points 9]) w_orphan).
Proof.
  apply award_loyalty_points_swallows_failures.
  right. exists order9. split; [reflexivity|]. right. left. reflexivity.
Defined.

(** X4 at the scenario: one ledger row of 50 points, and 50 points more
    on the balance. *)
Lemma process_ipn_callback_ledger_and_balance_witness :
  ∃ row1 rows,
    users (store w1) !! 1 = Some row1
    ∧ loyalty_transactions (store w1) = loyalty_transactions (store w0) ++ rows
    ∧ (length rows ≤ 1)%nat
    ∧ loyalty_points alice ≤ loyalty_points row1
    ∧ 0 ≤ ledger_points 1 rows
    ∧ (true = true → rows ≠ [] →
       loyalty_points row1 - loyalty_points alice = ledger_points 1 rows)
    ∧ (true = false → row1 = alice).
Proof.
  apply (process_ipn_callback_ledger_and_balance finished w0 w1 true 1 alice).
  - vm_compute. reflexivity.
  - reflexivity.
Defined.

(** X9 at an answer of the gateway that gives the currency as [Btc]. *)
Lemma create_qr_payment_data_uri_witness :
  create_qr_payment_data payment_data w0
  = (Ok (PDict [ ("payment_uri"%string, PStr "btc:bc1qexample?amount=0.0015");
                 ("pay_address"%string, PStr "bc1qexample");
                 ("pay_amount"%string, PStr "0.0015");
                 ("pay_currency"%string, PStr "BTC");
                 ("qr_data"%string, PStr "btc:bc1qexample?amount=0.0015") ]), w0).
Proof.
  apply (create_qr_payment_data_uri payment_data (PStr "bc1qexample") (PStr "0.0015") "Btc").
  - repeat split; reflexivity.
  - reflexivity.
Defined.

(** X11 at a request whose cookie holds the token of user 1 and whose
    header holds another token. *)
Lemma get_current_user_prefers_cookie_witness :
  get_current_user with_cookie s0 = authenticate "tok1" s0.
Proof.
  apply get_current_user_prefers_cookie; [reflexivity|discriminate].
Defined.

(** X12 at a request without cookie whose header holds the token. *)
Lemma get_current_user_bearer_witness :
  get_current_user with_bearer s0 = authenticate "tok1" s0.
Proof.
  apply (get_current_user_bearer with_bearer s0 "tok1"); reflexivity.
Defined.

(** X15 at the login of the administrator of the sample, whose two-factor
    authentication is off. *)
Lemma login_redirect_requires_credentials_witness :
  ∃ i user,
    accounts s0 !! i = Some user
    ∧ username user = Some "root"%string
    ∧ pwd_verify "secret" (password_hash user) = Some true
    ∧ accounts (snd (login "root" "secret" None s0))
      = alter (λ a, set_login_attempts (Some 0)
                      (set_last_login (Some (utcnow (auth_clock_reads s0))) a))
          i (accounts s0).
Proof.
  destruct (login_redirect_requires_credentials "root" "secret" None s0
              (snd (login "root" "secret" None s0)) "/" 302
              [ {| cookie_key := "access_token"; cookie_value := "tok1";
                   httponly := true; secure := true |} ])
    as (i & user & token & H1 & H2 & _ & H4 & _ & _ & _ & _ & H9).
  - vm_compute. reflexivity.
  - exists i, user. repeat split; assumption.
Defined.

(** X16 at a login with a wrong password: nothing is stored, and the three
    failed attempts on record stay three. *)
Lemma login_never_counts_failures_witness :
  snd (login "root" "guess" None s0) = s0.
Proof.
  destruct (login_never_counts_failures "root" "guess" None s0
              (snd (login "root" "guess" None s0))
              (login_page [("error"%string, PStr "Invalid credentials")]))
    as (_ & _ & H).
  - vm_compute. reflexivity.
  - apply (H [("error"%string, PStr "Invalid credentials")]); [reflexivity|].
    simpl. discriminate.
Defined.

(** X17 at the login of the administrator, followed by a request with the
    cookie. *)
Lemma login_cookie_authenticates_witness :
  ∃ user, user ∈ accounts (snd (login "root" "secret" None s0))
    ∧ username user = Some "root"%string
    ∧ last_login user = Some (utcnow (auth_clock_reads s0))
    ∧ get_current_user with_cookie (snd (login "root" "secret" None s0))
      = if column_true (is_active user) then Ok user
        else Raise (HTTPException 400 "Inactive user").
Proof.
  apply (login_cookie_authenticates "root" "secret" None s0 _ "/" 302
           {| cookie_key := "access_token"; cookie_value := "tok1";
              httponly := true; secure := true |} with_cookie).
  - vm_compute. reflexivity.
  - intros [|[|[|i]]] [|[|[|j]]] a b Ha Hb; simpl in Ha, Hb; try discriminate;
      injection Ha as <-; injection Hb as <-; simpl; intros; done.
  - intros a Ha. apply list_elem_of_In in Ha. simpl in Ha.
    destruct Ha as [<-|[<-|[]]]; reflexivity.
  - intros claims He. simpl in *.
    destruct (assoc_get "sub" claims) as [[| | | |sub| | |]|] eqn:Hs; try discriminate.
    destruct (String.eqb_spec sub "1") as [->|]; [|discriminate].
    exists (PDict [("sub"%string, PStr "1")]). split; [reflexivity|].
    split; [reflexivity|]. unfold py_get. simpl. by rewrite Hs.
  - reflexivity.
  - discriminate.
Defined.

(** X19 at a text and at what it is escaped to. *)
Lemma escape_html_distinct_witness :
  escape_html (PStr "<") ≠ escape_html (PStr "&lt;").
Proof. apply escape_html_distinct. discriminate. Defined.

#[local] Existing Instance br.

(** X22 at an order whose second item is of a product whose links are to
    last 3000000 days: the first item is served, the second and the third
    are not. *)
Lemma process_digital_delivery_stops_at_failing_item_witness :
  ∃ w', _process_digital_delivery 7 w_lasting = (Ok tt, w')
    ∧ store w' = store w_lasting
    ∧ (∀ i, i ∈ [1; 2]%nat →
         order_items (session w') !! i = order_items (session w_lasting) !! i)
    ∧ (∀ i it product, i ∈ [0%nat] → order_items (session w_lasting) !! i = Some it →
         product_of (session w_lasting) it = Some product →
         item_outcome w_lasting w' i it product).
Proof.
  apply (process_digital_delivery_stops_at_failing_item 7 w_lasting [0%nat] [2%nat]
           1%nat (item_of 7 5)).
  - reflexivity.
  - intros i Hi. apply list_elem_of_singleton in Hi as ->.
    exists (item_of 7 1), ebook. split; [reflexivity|]. split; [reflexivity|].
    intros _ k Hk. eexists. apply expiry_date_in_range;
      unfold datetime_min, datetime_max; simpl in *; lia.
  - reflexivity.
  - right. exists lasting. split; [reflexivity|]. split; [reflexivity|].
    intros k Hk. eexists. apply expiry_date_beyond.
    unfold datetime_max; simpl in *; lia.
Defined.

(** X23 at an order of two e-books. *)
Lemma process_digital_delivery_tokens_distinct_witness :
  ∃ w', _process_digital_delivery 7 w_ebooks = (Ok tt, w')
    ∧ ∀ j1 j2 it1 it2 p1 p2, j1 ≠ j2 →
        order_items (session w_ebooks) !! j1 = Some it1 → item_order_id it1 = Some 7 →
        product_of (session w_ebooks) it1 = Some p1 →
        product_type p1 = ProductType.DIGITAL → has_file p1 = true →
        order_items (session w_ebooks) !! j2 = Some it2 → item_order_id it2 = Some 7 →
        product_of (session w_ebooks) it2 = Some p2 →
        product_type p2 = ProductType.DIGITAL → has_file p2 = true →
        ∃ it1' it2' l1 l2,
          order_items (session w') !! j1 = Some it1' ∧ download_links it1' = Some [l1]
          ∧ order_items (session w') !! j2 = Some it2' ∧ download_links it2' = Some [l2]
          ∧ token l1 ≠ token l2.
Proof.
  apply (process_digital_delivery_tokens_distinct 7 w_ebooks).
  - intros [|[|j]] it H _; [| |discriminate];
      injection H as <-; exists ebook; reflexivity.
  - intros [|[|j]] it product k H _ Hp _ Hk; [| |discriminate];
      injection H as <-; vm_compute in Hp; injection Hp as <-;
      eexists; apply expiry_date_in_range;
      unfold datetime_min, datetime_max; simpl in *; lia.
  - intros a b H. change (String.append "uuid" (pretty a) = String.append "uuid" (pretty b)) in H.
    apply (inj (String.append "uuid")) in H. by apply (inj pretty) in H.
Defined.

Lemma calculate_discount_at_most_subtotal_witness :
  SFltb fifty (calculate_discount [generous] 0 fifty "generous") = false.
Proof.
  apply (calculate_discount_at_most_subtotal [generous] 0 fifty "generous").
  reflexivity.
Defined.

Lemma calculate_shipping_item_without_quantity_witness :
  calculate_shipping parcel = float_zero.
Proof.
  apply (calculate_shipping_item_without_quantity parcel (PDict [("weight"%string, PInt 3)])).
  - apply list_elem_of_further, list_elem_of_here.
  - reflexivity.
Defined.

Lemma translate_text_changes_only_lithuanian_witness :
  translate_text "Cancel" (Some "en"%string) = "Cancel"%string.
Proof.
  apply (translate_text_changes_only_lithuanian "Cancel" (Some "en"%string)).
  discriminate.
Defined.

Lemma checkout_never_creates_an_order_witness :
  handle_cart_actions order_created [("cart_add_1_2"%string, carol); ("cart_checkout"%string, carol)] bot0
  = handle_cart_actions order_failed [("cart_add_1_2"%string, carol); ("cart_checkout"%string, carol)] bot0
  ∧ int_keys (user_carts (handle_cart_actions order_created
       [("cart_add_1_2"%string, carol); ("cart_checkout"%string, carol)] bot0))
  ∧ elsewhere (handle_cart_actions order_created
       [("cart_add_1_2"%string, carol); ("cart_checkout"%string, carol)] bot0) = elsewhere bot0.
Proof.
  apply (checkout_never_creates_an_order order_created order_failed
           [("cart_add_1_2"%string, carol); ("cart_checkout"%string, carol)] bot0).
  constructor.
Defined.

Lemma checkout_answers_empty_cart_witness :
  ∃ text,
    sent (handle_cart_action order_created "cart_checkout" carol
            (handle_cart_action order_created "cart_add_1_2" carol bot0))
    = sent (handle_cart_action order_created "cart_add_1_2" carol bot0)
      ++ [Answer None false; Answer (Some text) true]
    ∧ (text = "Checkout failed. Please try again."%string
       ∨ ∃ language,
           text = translate_text "Your cart is empty. Add some products first!" language).
Proof.
  apply (checkout_answers_empty_cart order_created carol
           (handle_cart_action order_created "cart_add_1_2" carol bot0)).
  vm_compute. repeat constructor. by exists 42.
Defined.
